(** * imagemanage: the supporting functions, the key-bind table and the
      input-mode machine of the image manager window.

    The Python sources are embedded as Rocq functions.  Python integers are
    [Z], strings are [string], lists are [list], the [_keybinds] dictionary
    is a [gmap].  Code that raises returns a [result]; generators return
    what they yielded together with the exception that ended them, if any;
    methods of the window thread the program state explicitly. *)

From Stdlib Require Import ZArith Lia Ascii SpecFloat.
From stdpp Require Import base list strings gmap pretty.

Local Open Scope string_scope.
Local Open Scope list_scope.
Local Open Scope Z_scope.

(** ** Python values, exceptions and results *)

(** The exceptions the embedded code can raise.  Each carries its message
    (or, for [NameError], the unbound name). *)
Inductive exn :=
  | AssertionError (msg : string)
  | ValueError (msg : string)
  | TypeError (msg : string)
  | NameError (name : string)
  | IndexError (msg : string)
  | ZeroDivisionError (msg : string)
  | OverflowError (msg : string)
  | FileNotFoundError (path : string)
  | IOError (path : string)
  | KeyError (key : string)
  | Exception (msg : string).

Inductive result (A : Type) :=
  | Ok (a : A)
  | Raise (e : exn).
Arguments Ok {A} a.
Arguments Raise {A} e.

#[export] Instance result_ret : MRet result := fun A a => Ok a.
#[export] Instance result_bind : MBind result := fun A B k r =>
  match r with
  | Ok a => k a
  | Raise e => Raise e
  end.

(** [sequence[i]] on a Python list: a negative index counts from the end,
    an index out of range raises [IndexError]. *)
Definition getitem {A} (sequence : list A) (i : Z) : result A :=
  let n := Z.of_nat (length sequence) in
  let j := if i <? 0 then i + n else i in
  if (j <? 0) || (n <=? j) then Raise (IndexError "list index out of range")
  else match sequence !! Z.to_nat j with
       | Some x => Ok x
       | None => Raise (IndexError "list index out of range")
       end.

(** ** Log records

    Modelled from the spec: lib/log.py, which builds the loggers and adds
    the trace level below debug, is not among the sources.  A call
    [logger.debug(msg, *args)] stores the format string and its arguments
    unformatted, as a record of Python's logging does.  The model keeps
    every record the code hands to a logger, in order, whatever level the
    logger is configured to let through. *)
Inductive level := TRACE | DEBUG | INFO | WARNING | ERROR.

(** Plain Python values: what the key-bind table is given as bound
    arguments and what log records carry. *)
Inductive pyval :=
  | PNone
  | PBool (b : bool)
  | PInt (z : Z)
  | PStr (s : string).

(** Keyword arguments, in the order given. *)
Definition kwdict : Type := list (string * pyval).

(** An argument of a log record: a value, or a whole [*args] tuple or
    [**kwargs] dictionary passed to be printed. *)
Inductive logarg :=
  | LVal (v : pyval)
  | LArgs (items : list pyval)
  | LKwargs (items : kwdict)
  | LExn (e : exn).

Record LogRecord := mkLog { lvl : level; msg : string; args : list logarg }.

(** ** State and exceptions

    Stateful code is a function from the state to a [result] and the state
    it leaves: an exception keeps the effects that happened before it. *)
Definition M (S A : Type) : Type := S -> result A * S.

Definition ret {S A} (a : A) : M S A := fun s => (Ok a, s).
Definition raise {S A} (e : exn) : M S A := fun s => (Raise e, s).
Definition bind {S A B} (m : M S A) (k : A -> M S B) : M S B :=
  fun s => match m s with
           | (Ok a, s') => k a s'
           | (Raise e, s') => (Raise e, s')
           end.
Definition get {S} : M S S := fun s => (Ok s, s).
Definition modify {S} (f : S -> S) : M S unit := fun s => (Ok tt, f s).


#[export] Instance M_ret {S} : MRet (M S) := fun A a => ret a.
#[export] Instance M_bind {S} : MBind (M S) := fun A B k m => bind m k.

(** ** Generators

    A generator that is run to its end has yielded a list of items and
    stopped either normally ([None]) or with an exception. *)
Definition gen (A : Type) : Type := (list A * option exn)%type.

Definition gen_done {A} : gen A := ([], None).
Definition gen_raise {A} (e : exn) : gen A := ([], Some e).
Definition gen_yield {A} (x : A) (g : gen A) : gen A := (x :: g.1, g.2).

(** Sequencing two generator bodies: the second runs only when the first
    ended normally. *)
Definition gen_then {A} (g1 g2 : gen A) : gen A :=
  match g1.2 with
  | Some e => g1
  | None => (g1.1 ++ g2.1, g2.2)
  end.

(** ** Python floats

    A Python [float] is an IEEE 754 binary64 number; the operations are
    those of the reference implementation in [SpecFloat]. *)
Module pyfloat.

(** The format: 53 bits of precision, infinities at exponent 1024. *)
Definition prec : Z := 53.
Definition emax : Z := 1024.
Definition float : Type := spec_float.

(** [float(n)] for an integer: the nearest double, ties to even; an
    integer that rounds beyond the largest double is an [OverflowError]. *)
Definition of_int (n : Z) : result float :=
  match binary_normalize prec emax n 0 false with
  | S754_infinity _ => Raise (OverflowError "int too large to convert to float")
  | f => Ok f
  end.

(** [a >= b]. *)
Definition ge (a b : float) : bool := SFleb b a.

(** [a / b]. *)
Definition truediv (a b : float) : result float :=
  match b with
  | S754_zero _ => Raise (ZeroDivisionError "float division by zero")
  | _ => Ok (SFdiv prec emax a b)
  end.

Definition signbit (x : float) : bool :=
  match x with
  | S754_zero s | S754_infinity s | S754_finite s _ _ => s
  | S754_nan => false
  end.

(** The exact value of a finite double as a fraction with a positive
    denominator. *)
Definition ratio (x : float) : Z * Z :=
  match x with
  | S754_finite s m e =>
      let n := cond_Zopp s (Zpos m) in
      if 0 <=? e then (n * 2 ^ e, 1) else (n, 2 ^ (- e))
  | _ => (0, 1)
  end.

(** [num / den] rounded to the nearest integer, ties to even. *)
Definition div_half_even (num den : Z) : Z :=
  let q := num / den in
  match 2 * (num mod den) ?= den with
  | Lt => q
  | Gt => q + 1
  | Eq => if Z.even q then q else q + 1
  end.

(** The double nearest to the fraction [num / den] of two non-negative
    integers, with sign [s]. *)
Definition of_ratio (s : bool) (num den : Z) : float :=
  match num, den with
  | Zpos n, Zpos d =>
      SFdiv prec emax (S754_finite s n 0) (S754_finite false d 0)
  | _, _ => S754_zero s
  end.

(** [round(x, ndigits)]: the exact value is rounded to [ndigits] decimal
    places, ties to even, and the decimal result is read back as a
    double. *)
Definition round (x : float) (ndigits : Z) : result float :=
  match x with
  | S754_nan | S754_infinity _ => Ok x
  | _ =>
      if 323 <? ndigits then Ok x
      else if ndigits <? -308 then Ok (S754_zero (signbit x))
      else
        let '(num, den) := ratio x in
        let k := if 0 <=? ndigits
                 then div_half_even (Z.abs num * 10 ^ ndigits) den
                 else div_half_even (Z.abs num) (den * 10 ^ (- ndigits)) in
        let r := if 0 <=? ndigits
                 then of_ratio (signbit x) k (10 ^ ndigits)
                 else of_ratio (signbit x) (k * 10 ^ (- ndigits)) 1 in
        match r with
        | S754_infinity _ => Raise (OverflowError "rounded value too large to represent")
        | _ => Ok r
        end
  end.

(** [int(x)]: truncation towards zero. *)
Definition to_int (x : float) : result Z :=
  match x with
  | S754_nan => Raise (ValueError "cannot convert float NaN to integer")
  | S754_infinity _ => Raise (OverflowError "cannot convert float infinity to integer")
  | S754_zero _ => Ok 0
  | S754_finite s m e =>
      Ok (cond_Zopp s (if 0 <=? e then Zpos m * 2 ^ e else Zpos m / 2 ^ (- e)))
  end.

(** [p / q < 10 ^ d]. *)
Definition lt_pow10 (p q d : Z) : bool :=
  if 0 <=? d then p <? q * 10 ^ d else p * 10 ^ (- d) <? q.

(** The decimal exponent of [p / q]: the least [d], from the start value
    on, with [p / q < 10 ^ d].  The doubles lie between [10 ^ -324] and
    [10 ^ 309], which bounds the search. *)
Fixpoint find_decpt (fuel : nat) (p q d : Z) : Z :=
  match fuel with
  | O => d
  | S fuel' => if lt_pow10 p q d then d else find_decpt fuel' p q (d + 1)
  end.

(** Does the [n]-digit decimal [c * 10 ^ (decpt - n)] read back as [x]? *)
Definition candidate (x : float) (c n decpt : Z) : bool :=
  let k := decpt - n in
  SFeqb x (if 0 <=? k then of_ratio false (c * 10 ^ k) 1
           else of_ratio false c (10 ^ (- k))).

(** The shortest decimal that reads back as [x], and among those of that
    length the nearest to [x]; seventeen digits always suffice. *)
Fixpoint shortest (fuel : nat) (x : float) (p q decpt n : Z) : Z * Z :=
  let k := n - decpt in
  let num := if 0 <=? k then p * 10 ^ k else p in
  let den := if 0 <=? k then q else q * 10 ^ (- k) in
  let lo := num / den in
  let r := num mod den in
  match fuel with
  | O => (div_half_even num den, n)
  | S fuel' =>
      if r =? 0 then (lo, n)
      else
        let lo_ok := candidate x lo n decpt in
        let hi_ok := candidate x (lo + 1) n decpt in
        match lo_ok, hi_ok with
        | true, true => (div_half_even num den, n)
        | true, false => (lo, n)
        | false, true => (lo + 1, n)
        | false, false => shortest fuel' x p q decpt (n + 1)
        end
  end.

Fixpoint rstrip_zeros (s : string) : string :=
  match s with
  | EmptyString => EmptyString
  | String c rest =>
      match rstrip_zeros rest with
      | EmptyString => if bool_decide (c = "0"%char) then EmptyString
                       else String c EmptyString
      | kept => String c kept
      end
  end.

Fixpoint zeros (n : nat) : string :=
  match n with O => EmptyString | S k => String "0" (zeros k) end.

(** The significant digits of [repr] and the position of the decimal
    point relative to their start. *)
Definition digits_of (x : float) : string * Z :=
  let '(p, q) := ratio (SFabs x) in
  let decpt := find_decpt 700 p q (-330) in
  let '(c, n) := shortest 16 x p q decpt 1 in
  let all := pretty c in
  (rstrip_zeros all, decpt + (Z.of_nat (String.length all) - n)).

Definition exponent_text (e : Z) : string :=
  (if e <? 0 then "-" else "+") +:+
  (if Z.abs e <? 10 then "0" else "") +:+ pretty (Z.abs e).

(** [repr(x)], which is also [str(x)]: the shortest digits, in exponent
    notation when the decimal point would be far from them. *)
Definition repr (x : float) : string :=
  match x with
  | S754_nan => "nan"
  | S754_infinity s => if s then "-inf" else "inf"
  | S754_zero s => if s then "-0.0" else "0.0"
  | S754_finite s _ _ =>
      let '(digits, decpt) := digits_of (SFabs x) in
      let n := Z.of_nat (String.length digits) in
      let body :=
        if (decpt <=? -4) || (16 <? decpt) then
          String.substring 0 1 digits +:+
          (if 1 <? n then "." +:+ String.substring 1 (String.length digits - 1) digits
           else "") +:+
          "e" +:+ exponent_text (decpt - 1)
        else if decpt <=? 0 then
          "0." +:+ zeros (Z.to_nat (- decpt)) +:+ digits
        else if n <=? decpt then
          digits +:+ zeros (Z.to_nat (decpt - n)) +:+ ".0"
        else
          String.substring 0 (Z.to_nat decpt) digits +:+ "." +:+
          String.substring (Z.to_nat decpt) (String.length digits - Z.to_nat decpt) digits
      in
      (if s then "-" else "") +:+ body
  end.

End pyfloat.

(** ** Program state

    A [QLineEdit] as far as the window uses it: its visibility, whether it
    holds the input focus, and its text. *)
Record LineEdit := mkLineEdit {
  isVisible : bool;
  hasFocus : bool;
  text : string
}.

(** Where Qt has the top-level window: not on screen (before [show()] and
    after [close()]), on screen, or on screen and the active window.  A
    widget of the window can be visible only while the window is on
    screen, and can hold the keyboard focus only while the window is the
    active one. *)
Inductive Screen := Offscreen | Onscreen | Active.

Definition on_screen (s : Screen) : bool :=
  match s with
  | Offscreen => false
  | Onscreen | Active => true
  end.

Definition is_active (s : Screen) : bool :=
  match s with
  | Active => true
  | Offscreen | Onscreen => false
  end.

(** The fields of the [ImageManager] window that its methods read or write.
    [actions] lists the shortcuts of the [QAction]s added to the window,
    [pixmap] is the image the canvas shows, [closed] records [close()],
    [screen] is where Qt has the window. *)
Record ImageManager := mkImageManager {
  textbox : LineEdit;
  _images : list string;
  _count : Z;
  _image : option string;
  pixmap : option string;
  _index : Z;
  _mode : string;
  _advance_many : Z;
  _output : list string;
  actions : list string;
  closed : bool;
  screen : Screen
}.

(** The state the methods and the bound functions run in: the records
    handed to the loggers so far, and the window. *)
Record World := mkWorld {
  logs : list LogRecord;
  window : ImageManager
}.

Definition log_to (l : level) (m : string) (a : list logarg) : M (list LogRecord) unit :=
  modify (fun rs => rs ++ [mkLog l m a]).

Definition log (l : level) (m : string) (a : list logarg) : M World unit :=
  modify (fun w => mkWorld (logs w ++ [mkLog l m a]) (window w)).

Definition get_window : M World ImageManager := fun w => (Ok (window w), w).
Definition modify_window (f : ImageManager -> ImageManager) : M World unit :=
  modify (fun w => mkWorld (logs w) (f (window w))).

Definition set_textbox (t : LineEdit) (im : ImageManager) : ImageManager :=
  mkImageManager t (_images im) (_count im) (_image im) (pixmap im) (_index im)
    (_mode im) (_advance_many im) (_output im) (actions im) (closed im) (screen im).
Definition set_mode (m : string) (im : ImageManager) : ImageManager :=
  mkImageManager (textbox im) (_images im) (_count im) (_image im) (pixmap im)
    (_index im) m (_advance_many im) (_output im) (actions im) (closed im) (screen im).
Definition set_index_field (i : Z) (im : ImageManager) : ImageManager :=
  mkImageManager (textbox im) (_images im) (_count im) (_image im) (pixmap im)
    i (_mode im) (_advance_many im) (_output im) (actions im) (closed im) (screen im).
Definition set_image (path : string) (im : ImageManager) : ImageManager :=
  mkImageManager (textbox im) (_images im) (_count im) (Some path) (Some path)
    (_index im) (_mode im) (_advance_many im) (_output im) (actions im) (closed im)
    (screen im).
Definition add_action (keys : string) (im : ImageManager) : ImageManager :=
  mkImageManager (textbox im) (_images im) (_count im) (_image im) (pixmap im)
    (_index im) (_mode im) (_advance_many im) (_output im) (actions im ++ [keys])
    (closed im) (screen im).
Definition add_output (line : string) (im : ImageManager) : ImageManager :=
  mkImageManager (textbox im) (_images im) (_count im) (_image im) (pixmap im)
    (_index im) (_mode im) (_advance_many im) (_output im ++ [line]) (actions im)
    (closed im) (screen im).
(** [close()]: the window leaves the screen, so none of its widgets is
    visible or holds the focus any more. *)
Definition set_closed (im : ImageManager) : ImageManager :=
  mkImageManager (mkLineEdit false false (text (textbox im)))
    (_images im) (_count im) (_image im) (pixmap im)
    (_index im) (_mode im) (_advance_many im) (_output im) (actions im) true Offscreen.

(** ** lib/constants.py *)
Module constants.
Definition MODE_NONE := "none".
Definition MODE_RENAME := "rename".
Definition MODE_GOTO := "goto".
Definition MODE_SET_IMAGE := "set-image".
Definition MODE_LABEL := "label".
Definition MODE_COMMAND := "command".
End constants.

(** ** lib/valuehelper.py *)
Module valuehelper.
(** [iter_none]: iterate over a sequence that may be [None]. *)
Definition iter_none {A} (sequence : option (list A)) : list A :=
  match sequence with
  | Some items => items
  | None => []
  end.
End valuehelper.

(** ** lib/fshelper.py *)
Module fshelper.

(** What a path resolves to when the gatherer looks at it: nothing
    ([os.path.exists] is false, as for an absent path or a dangling
    link), a regular file ([os.path.isfile]), something that exists and is
    neither file nor directory, or a directory ([os.path.isdir]) with the
    names [os.listdir] returns and what each of them resolves to. *)
#[local] Unset Elimination Schemes.
Inductive node :=
  | Missing
  | File
  | Other
  | Dir (children : list (string * node)).
#[local] Set Elimination Schemes.

Fixpoint endswith_slash (s : string) : bool :=
  match s with
  | EmptyString => false
  | String c EmptyString => bool_decide (c = "/"%char)
  | String _ rest => endswith_slash rest
  end.

(** [os.path.join] of two components on a POSIX system. *)
Definition join (a b : string) : string :=
  if String.prefix "/" b then b
  else if bool_decide (a = "") || endswith_slash a then a +:+ b
  else a +:+ "/" +:+ b.

(** [_get_files_of]: the files given by one entry.  [nd] is what [entry]
    resolves to; the children of a directory are visited in the order
    [os.listdir] returned them.  The generator is run to its end, so the
    result is what it yielded, how it stopped, and the log after it.  The
    [traced_function] decorator of lib/log.py, which is not among the
    sources, only traces the call and is left out. *)
Fixpoint _get_files_of (entry : string) (nd : node) (depth depth_max : Z)
    (soft_errors : bool) (lg : list LogRecord) {struct nd}
    : gen string * list LogRecord :=
  match nd with
  | Missing =>
      let lg := lg ++ [mkLog ERROR "Entry %r does not exist" [LVal (PStr entry)]] in
      if negb soft_errors then (gen_raise (FileNotFoundError entry), lg)
      else (gen_done, lg)
  | Dir children =>
      if (depth_max =? -1) || (depth + 1 <=? depth_max) then
        (fix for_child (names : list (string * node)) (lg : list LogRecord)
             : gen string * list LogRecord :=
           match names with
           | [] => (gen_done, lg)
           | (child_name, child_node) :: rest =>
               let child := join entry child_name in
               let '(g, lg) :=
                 _get_files_of child child_node (depth + 1) depth_max soft_errors lg in
               match g.2 with
               | Some _ => (g, lg)
               | None => let '(g', lg) := for_child rest lg in (gen_then g g', lg)
               end
           end) children lg
      else if depth_max =? 0 then
        (gen_done, lg ++ [mkLog INFO "Skipping directory %r" [LVal (PStr entry)]])
      else
        (gen_done,
         lg ++ [mkLog INFO "Skipping directory %r; max depth %d reached"
                  [LVal (PStr entry); LVal (PInt depth)]])
  | File => (gen_yield entry gen_done, lg)
  | Other =>
      (gen_yield entry gen_done,
       lg ++ [mkLog WARNING "%r neither file not directory; adding anyway"
                [LVal (PStr entry)]])
  end.

(** The loop of [_get_files_of] over the children of a directory, under a
    name of its own. *)
Definition for_children (entry : string) (depth depth_max : Z) (soft_errors : bool)
    : list (string * node) -> list LogRecord -> gen string * list LogRecord :=
  fix for_child (names : list (string * node)) (lg : list LogRecord) :=
    match names with
    | [] => (gen_done, lg)
    | (child_name, child_node) :: rest =>
        let child := join entry child_name in
        let '(g, lg) :=
          _get_files_of child child_node (depth + 1) depth_max soft_errors lg in
        match g.2 with
        | Some _ => (g, lg)
        | None => let '(g', lg) := for_child rest lg in (gen_then g g', lg)
        end
    end.

(** The loop of [get_files]: [results.extend(_get_files_of(entry, 0, ...))]
    for each entry; an exception of the generator leaves the function. *)
Fixpoint extend_all (resolve : string -> node) (entry_list : list string)
    (recurse_max : Z) (soft_errors : bool) (results : list string)
    : M (list LogRecord) (list string) :=
  match entry_list with
  | [] => ret results
  | entry :: rest => fun lg =>
      let '(g, lg) :=
        _get_files_of entry (resolve entry) 0 recurse_max soft_errors lg in
      match g.2 with
      | Some e => (Raise e, lg)
      | None => extend_all resolve rest recurse_max soft_errors (results ++ g.1) lg
      end
  end.

(** [get_files(entry_list, recurse_max, soft_errors)]. *)
Definition get_files (resolve : string -> node) (entry_list : list string)
    (recurse_max : Z) (soft_errors : bool) : M (list LogRecord) (list string) :=
  extend_all resolve entry_list recurse_max soft_errors [].

End fshelper.

(** ** lib/qhelper.py *)
Module qhelper.

(** A function as the key-bind table calls it: positional arguments,
    keyword arguments, and its effect on the program state. *)
Definition Callable : Type := list pyval -> kwdict -> M World unit.

(** An object stored in a key-bind's function list: a function, or a
    plain value that ended up there. *)
Inductive member :=
  | Fn (name : string) (body : Callable)
  | Plain (v : pyval).

Record KeyBind := mkKeyBind {
  _keys : string;
  _functions : list member;
  _action : option string
}.

(** Modelled from the spec: lib/log.py is not among the sources; its
    [func_name] gives the name a function was defined under, and is
    only used to fill log records. *)
Definition func_name (f : member) : string :=
  match f with
  | Fn name _ => name
  | Plain _ => "<object>"
  end.

(** Calling [func] with positional and keyword arguments; calling a
    value that is not a function is a [TypeError]. *)
Definition call (f : member) (args : list pyval) (kwargs : kwdict) : M World unit :=
  match f with
  | Fn _ body => body args kwargs
  | Plain _ => raise (TypeError "object is not callable")
  end.

(** Two keyword dictionaries unpacked into one call: a keyword given
    twice is a [TypeError]. *)
Definition merge_kwargs (fkwargs kwargs : kwdict) : result kwdict :=
  if existsb (fun k => bool_decide (k ∈ fkwargs.*1)) kwargs.*1
  then Raise (TypeError "got multiple values for keyword argument")
  else Ok (fkwargs ++ kwargs).

(** [KeyBind(keys, *functions)]: the constructor takes no keyword
    arguments, and every further positional argument is a function. *)
Definition __init__ (keys : string) (functions : list member) (kwargs : kwdict)
    : result KeyBind :=
  match kwargs with
  | [] => Ok (mkKeyBind keys functions None)
  | _ :: _ => Raise (TypeError "__init__() got an unexpected keyword argument")
  end.

(** The names the module binds at its top level: its imports and its
    definitions.  A name used by a function body is looked up here when
    the body runs. *)
Definition module_globals : list string :=
  ["logging"; "QAction"; "lib"; "logger"; "KeyBind"; "menu_item"].

Definition lookup_global (globals : list string) (name : string) : result unit :=
  if bool_decide (name ∈ globals) then Ok tt else Raise (NameError name).

(** The [wrapper] that [bind] builds around [function]: it passes its own
    arguments first, then the bound ones. *)
Definition wrapper (function : member) (args : list pyval) (kwargs : kwdict) : member :=
  Fn (func_name function)
     (fun fargs fkwargs =>
        match merge_kwargs fkwargs kwargs with
        | Ok kw => call function (fargs ++ args) kw
        | Raise e => raise e
        end).

(** [KeyBind.bind], run in a module whose top level binds [globals]: the
    decorator [@functools.wraps(function)] is evaluated first, then the
    wrapper is appended to the function list. *)
Definition bind_in (globals : list string) (kb : KeyBind) (function : member)
    (args : list pyval) (kwargs : kwdict) : result KeyBind :=
  match lookup_global globals "functools" with
  | Raise e => Raise e
  | Ok _ =>
      Ok (mkKeyBind (_keys kb) (_functions kb ++ [wrapper function args kwargs])
            (_action kb))
  end.

Definition bind : KeyBind -> member -> list pyval -> kwdict -> result KeyBind :=
  bind_in module_globals.

(** [get_action]: the [QAction] is created once, with the key combination
    as its shortcut; triggering it calls the key-bind without arguments. *)
Definition get_action (kb : KeyBind) : KeyBind * string :=
  match _action kb with
  | None => (mkKeyBind (_keys kb) (_functions kb) (Some (_keys kb)), _keys kb)
  | Some a => (kb, a)
  end.

(** The loop of [__call__] over the function list. *)
Fixpoint call_each (keys : string) (functions : list member) (args : list pyval)
    (kwargs : kwdict) : M World unit :=
  match functions with
  | [] => mret tt
  | func :: rest =>
      log DEBUG ("invoke %s: %s(" +:+ "*%s, **%s)")
        [LVal (PStr keys); LVal (PStr (func_name func)); LArgs args; LKwargs kwargs];;
      call func args kwargs;;
      call_each keys rest args kwargs
  end.

(** [KeyBind.__call__]: invoke the bound functions. *)
Definition __call__ (kb : KeyBind) (args : list pyval) (kwargs : kwdict) : M World unit :=
  call_each (_keys kb) (_functions kb) args kwargs.

(** The log record [__call__] writes before it calls a member. *)
Definition invoke_record (keys : string) (func : member)
    (args : list pyval) (kwargs : kwdict) : LogRecord :=
  mkLog DEBUG ("invoke %s: %s(" +:+ "*%s, **%s)")
    [LVal (PStr keys); LVal (PStr (func_name func)); LArgs args; LKwargs kwargs].

End qhelper.

(** ** imagemanage.py *)
Module imagemanage.
Import constants.

(** Default advance count for bulk advancing. *)
Definition ADVANCE_MANY_AMOUNT : Z := 10.


(** *** Formatting helpers *)

(** The value [format_size] prints: an [int] when [places] is zero, a
    [float] otherwise. *)
Inductive number :=
  | NInt (z : Z)
  | NFloat (f : pyfloat.float).

Definition str (v : number) : string :=
  match v with
  | NInt z => pretty z
  | NFloat f => pyfloat.repr f
  end.

(** A [str.format] string, as its literal text and its replacement
    fields. *)
Inductive piece :=
  | Text (s : string)
  | Field (name : string).

(** The default, written [{num} {suffix}] in the source. *)
Definition default_format : list piece := [Field "num"; Text " "; Field "suffix"].

(** [format.format(num=value, suffix=unit)]. *)
Fixpoint format_ (format : list piece) (num : number) (suffix : string)
    : result string :=
  match format with
  | [] => Ok ""
  | Text s :: rest => tail ← format_ rest num suffix; Ok (s +:+ tail)
  | Field name :: rest =>
      if bool_decide (name = "num") then
        tail ← format_ rest num suffix; Ok (str num +:+ tail)
      else if bool_decide (name = "suffix") then
        tail ← format_ rest num suffix; Ok (suffix +:+ tail)
      else Raise (KeyError name)
  end.

Definition prefixes : list string := [""; "K"; "M"; "G"; "T"; "P"].

(** The float literals [1024.0] and [1000.0]. *)
Definition scale_1024 : pyfloat.float :=
  binary_normalize pyfloat.prec pyfloat.emax 1024 0 false.
Definition scale_1000 : pyfloat.float :=
  binary_normalize pyfloat.prec pyfloat.emax 1000 0 false.

(** The loop [while value >= scale and exponent+1 < len(prefixes)].  The
    exponent grows by one each time, so it runs at most [len(prefixes)]
    times, which is the recursion measure. *)
Fixpoint scale_loop (n : nat) (value : pyfloat.float) (exponent : Z)
    (scale : pyfloat.float) : result (pyfloat.float * Z) :=
  match n with
  | O => Ok (value, exponent)
  | S n' =>
      if pyfloat.ge value scale && (exponent + 1 <? Z.of_nat (length prefixes)) then
        value ← pyfloat.truediv value scale;
        scale_loop n' value (exponent + 1) scale
      else Ok (value, exponent)
  end.

(** [format_size(num_bytes, places, base, format)]; the defaults of the
    source are [places=2], [base=2] and [default_format]. *)
Definition format_size (num_bytes : Z) (places : option Z) (base : Z)
    (format : list piece) : result string :=
  if negb ((base =? 2) || (base =? 10)) then
    Raise (AssertionError ("invalid base " +:+ pretty base +:+ "; must be 2 or 10"))
  else
    let '(scale, suffix) :=
      if base =? 10
      then (scale_1000, if 1000 <=? num_bytes then "iB" else "B")
      else (scale_1024, "B") in
    value ← pyfloat.of_int num_bytes;
    '(value, exponent) ← scale_loop (length prefixes) value 0 scale;
    value ← match places with
            | Some p => pyfloat.round value p
            | None => Ok value
            end;
    num ← (if bool_decide (places = Some 0)
           then z ← pyfloat.to_int value; Ok (NInt z)
           else Ok (NFloat value));
    prefix ← getitem prefixes exponent;
    format_ format num (prefix +:+ suffix).

(** *** Iterating from an index *)

(** The loop [while curr < bound: yield sequence[curr]; curr += 1].  It
    runs [bound - curr] times, which is the recursion measure. *)
Fixpoint while_yield {A} (n : nat) (sequence : list A) (curr bound : Z) : gen A :=
  match n with
  | O => gen_done
  | S n' =>
      if curr <? bound then
        match getitem sequence curr with
        | Ok x => gen_yield x (while_yield n' sequence (curr + 1) bound)
        | Raise e => gen_raise e
        end
      else gen_done
  end.

Definition while_lt {A} (sequence : list A) (curr bound : Z) : gen A :=
  while_yield (Z.to_nat (bound - curr)) sequence curr bound.

(** imagemanage.py, [iterate_from]. *)
Definition iterate_from {A} (sequence : list A) (start_index : Z) : gen A :=
  let length := Z.of_nat (length sequence) in
  let start_index :=
    if start_index <? 0 then start_index + length else start_index in
  let curr := start_index in
  if negb ((0 <=? curr) && (curr <? length)) then
    gen_raise (AssertionError
      (pretty curr +:+ " outside the half interval [0, " +:+ pretty length +:+ ")"))
  else
    gen_then (while_lt sequence curr length)
             (while_lt sequence 0 start_index).

(** *** The input box

    The methods of the input box, called on the box of a window that Qt
    has at [s]. *)

(** [setVisible(b)]: hiding takes effect at once; showing makes the box
    visible only while its window is on screen. *)
Definition setVisible (b : bool) (s : Screen) (t : LineEdit) : LineEdit :=
  mkLineEdit (b && on_screen s) (hasFocus t) (text t).

(** [setFocus()]: the box gets the keyboard focus only when it is visible
    and its window is the active one. *)
Definition setFocus (s : Screen) (t : LineEdit) : LineEdit :=
  mkLineEdit (isVisible t) (hasFocus t || (isVisible t && is_active s)) (text t).

Definition clearFocus (s : Screen) (t : LineEdit) : LineEdit :=
  mkLineEdit (isVisible t) false (text t).

Definition modify_textbox (f : Screen -> LineEdit -> LineEdit) : M World unit :=
  modify_window (fun im => set_textbox (f (screen im) (textbox im)) im).

Definition when (b : bool) (m : M World unit) : M World unit :=
  if b then m else mret tt.

(** [_show_textbox]: ensure the textbox is both visible and has focus. *)
Definition _show_textbox : M World unit :=
  w ← get_window;
  when (negb (isVisible (textbox w))) (modify_textbox (setVisible true));;
  w ← get_window;
  when (negb (hasFocus (textbox w))) (modify_textbox setFocus).

(** [_hide_textbox]: ensure the textbox is both invisible and lacks focus. *)
Definition _hide_textbox : M World unit :=
  w ← get_window;
  when (hasFocus (textbox w)) (modify_textbox clearFocus);;
  w ← get_window;
  when (isVisible (textbox w)) (modify_textbox (setVisible false)).

(** *** The decorator [_blocked_by_input]

    [name] is the decorated function's name, as the log records show it. *)
Definition _blocked_by_input (name : string) (func : qhelper.Callable)
    : qhelper.Callable :=
  fun args kwargs =>
    w ← get_window;
    if hasFocus (textbox w) then
      log DEBUG "Input has focus; blocking %r call" [LVal (PStr name)]
    else
      log TRACE ("%s(" +:+ "*%s, **%s)") [LVal (PStr name); LArgs args; LKwargs kwargs];;
      func args kwargs.

(** A method that takes no argument besides [self]. *)
Definition method0 (name : string) (body : M World unit) : qhelper.Callable :=
  fun args kwargs =>
    match args, kwargs with
    | [], [] => body
    | _, _ => raise (TypeError (name +:+ "() takes 1 positional argument"))
    end.

(** A method that takes one argument besides [self], named [param]. *)
Definition method1 (name param : string) (body : pyval -> M World unit)
    : qhelper.Callable :=
  fun args kwargs =>
    match args, kwargs with
    | [v], [] => body v
    | [], [(k, v)] =>
        if bool_decide (k = param) then body v
        else raise (TypeError (name +:+ "() got an unexpected keyword argument"))
    | _, _ => raise (TypeError (name +:+ "() takes 2 positional arguments"))
    end.

(** *** The window *)

Definition lift {S A} (r : result A) : M S A :=
  match r with
  | Ok a => mret a
  | Raise e => raise e
  end.

(** [a % b] on Python integers: the result has the sign of [b]. *)
Definition py_mod (a b : Z) : result Z :=
  if b =? 0 then Raise (ZeroDivisionError "integer modulo by zero")
  else Ok (a mod b).

(** [repr] of a string without quotes or escapes in it. *)
Definition repr (s : string) : string := "'" +:+ s +:+ "'".

(** [s.split("/", 1)] unpacked into two names. *)
Fixpoint split_slash (s : string) : option (string * string) :=
  match s with
  | EmptyString => None
  | String c rest =>
      if bool_decide (c = "/"%char) then Some (EmptyString, rest)
      else match split_slash rest with
           | Some (a, b) => Some (String c a, b)
           | None => None
           end
  end.

Definition close : M World unit := modify_window set_closed.

Section Redraw.
(** [mimetypes.guess_type] of the standard library: the MIME type and
    the encoding of a path, each possibly [None]. *)
Variable guess_type : string -> option string * option string.

(** [redraw]: show the current image. *)
Definition redraw : M World unit :=
  w ← get_window;
  path ← lift (getitem (_images w) (_index w));
  let '(mime, encoding) := guess_type path in
  match mime with
  | None => raise (ValueError ("Image with unknown mimetype " +:+ path))
  | Some mime =>
      match encoding with
      | Some enc =>
          log ERROR "File %r has encoding %r (mime %r)"
            [LVal (PStr path); LVal (PStr enc); LVal (PStr mime)];;
          raise (ValueError
            ("Encodings not supported (" +:+ repr path +:+ " has " +:+ enc +:+ ")"))
      | None =>
          match split_slash mime with
          | None => raise (ValueError "not enough values to unpack (expected 2, got 1)")
          | Some (mimecat, mimename) =>
              if bool_decide (mimecat = "image") then modify_window (set_image path)
              else if bool_decide (mimecat = "video") then mret tt
              else log WARNING "Unhandled mimetype %s for %s"
                     [LVal (PStr mime); LVal (PStr path)]
          end
      end
  end.

(** [set_index]: change the current index to the value given. *)
Definition set_index (idx : Z) : M World unit :=
  w ← get_window;
  if (idx <? 0) || (_count w <=? idx) then
    raise (ValueError
      (pretty idx +:+ " outside range [0, " +:+ pretty (_count w) +:+ ")"))
  else
    log DEBUG "Index %d -> %d" [LVal (PInt (_index w)); LVal (PInt idx)];;
    modify_window (set_index_field idx);;
    redraw.

(** [_advance_index]: advance the image index by a specified number. *)
Definition _advance_index (by_ : Z) : M World unit :=
  w ← get_window;
  idx ← lift (py_mod (_index w + by_) (_count w));
  set_index idx.

Definition _key_prev_image : qhelper.Callable :=
  _blocked_by_input "_key_prev_image"
    (method0 "_key_prev_image" (_advance_index (-1))).

Definition _key_next_image : qhelper.Callable :=
  _blocked_by_input "_key_next_image"
    (method0 "_key_next_image" (_advance_index 1)).

Definition _key_prev_many : qhelper.Callable :=
  _blocked_by_input "_key_prev_many"
    (method0 "_key_prev_many"
       (w ← get_window; _advance_index (- _advance_many w))).

Definition _key_next_many : qhelper.Callable :=
  _blocked_by_input "_key_next_many"
    (method0 "_key_next_many"
       (w ← get_window; _advance_index (_advance_many w))).
End Redraw.

(** [_key_on_escape]: de-focus the input, then exit. *)
Definition _key_on_escape : qhelper.Callable :=
  method0 "_key_on_escape"
    (modify_window (set_mode MODE_NONE);;
     w ← get_window;
     if hasFocus (textbox w) || isVisible (textbox w) then _hide_textbox
     else close).

(** The body shared by the keys that enter an input mode. *)
Definition enter_mode (mode : string) : M World unit :=
  modify_window (set_mode mode);;
  _show_textbox.

Definition _key_rename_image : qhelper.Callable :=
  _blocked_by_input "_key_rename_image"
    (method0 "_key_rename_image" (enter_mode MODE_RENAME)).

Definition _key_delete_image : qhelper.Callable :=
  _blocked_by_input "_key_delete_image" (method0 "_key_delete_image" (mret tt)).

Definition _key_find_image : qhelper.Callable :=
  _blocked_by_input "_key_find_image"
    (method0 "_key_find_image" (enter_mode MODE_SET_IMAGE)).

Definition _key_go_to_image : qhelper.Callable :=
  _blocked_by_input "_key_go_to_image"
    (method0 "_key_go_to_image" (enter_mode MODE_GOTO)).

Definition _key_show_help : qhelper.Callable :=
  _blocked_by_input "_key_show_help" (method0 "_key_show_help" (mret tt)).

Definition _key_adjust : qhelper.Callable :=
  _blocked_by_input "_key_adjust" (method1 "_key_adjust" "amount" (fun _ => mret tt)).

Definition _key_toggle_text : qhelper.Callable :=
  _blocked_by_input "_key_toggle_text" (method0 "_key_toggle_text" (mret tt)).

Definition _key_label : qhelper.Callable :=
  _blocked_by_input "_key_label" (method0 "_key_label" (enter_mode MODE_LABEL)).

Definition _key_toggle_zoom : qhelper.Callable :=
  _blocked_by_input "_key_toggle_zoom" (method0 "_key_toggle_zoom" (mret tt)).

Definition _key_enter_command : qhelper.Callable :=
  _blocked_by_input "_key_enter_command"
    (method0 "_key_enter_command" (enter_mode MODE_COMMAND)).

Definition _key_zoom_out : qhelper.Callable :=
  _blocked_by_input "_key_zoom_out" (method0 "_key_zoom_out" (mret tt)).

Definition _key_zoom_in : qhelper.Callable :=
  _blocked_by_input "_key_zoom_in" (method0 "_key_zoom_in" (mret tt)).

Definition _key_mark_image : qhelper.Callable :=
  _blocked_by_input "_key_mark_image"
    (method1 "_key_mark_image" "number" (fun _ => mret tt)).

(** The branches of [_on_command] on the captured mode. *)
Definition dispatch (mode text : string) : M World unit :=
  if bool_decide (mode = MODE_RENAME) then mret tt
  else if bool_decide (mode = MODE_GOTO) then mret tt
  else if bool_decide (mode = MODE_SET_IMAGE) then mret tt
  else if bool_decide (mode = MODE_LABEL) then mret tt
  else if bool_decide (mode = MODE_COMMAND) then mret tt
  else log WARNING "Invalid mode %r (while executing %r)"
         [LVal (PStr mode); LVal (PStr text)].

(** [_on_command]: called when the input box is submitted. *)
Definition _on_command : M World unit :=
  w ← get_window;
  let mode := _mode w in
  modify_window (set_mode MODE_NONE);;
  w ← get_window;
  let text := text (textbox w) in
  _hide_textbox;;
  log DEBUG "_on_command: mode=%s text=%r" [LVal (PStr mode); LVal (PStr text)];;
  dispatch mode text.

(** *** The key-bind table

    The window together with its [_keybinds] dictionary.  The functions
    bound in the table act on the [World]; the table itself is changed
    by [_add_keybind] only. *)
Record Program := mkProgram {
  _keybinds : gmap string qhelper.KeyBind;
  world : World
}.

Definition in_world {A} (m : M World A) : M Program A :=
  fun p => let '(r, w) := m (world p) in (r, mkProgram (_keybinds p) w).

Definition set_keybind (keys : string) (kb : qhelper.KeyBind) : M Program unit :=
  modify (fun p => mkProgram (<[keys := kb]> (_keybinds p)) (world p)).

(** [_add_keybind]: have the given key combination invoke the function.
    [globals] are the names the [qhelper] module binds at its top level,
    where [KeyBind.bind] runs. *)
Definition _add_keybind_in (globals : list string) (keys : string)
    (func : qhelper.member) (args : list pyval) (kwargs : kwdict) : M Program unit :=
  let fname := qhelper.func_name func in
  p ← get;
  match _keybinds p !! keys with
  | None =>
      in_world (log DEBUG ("bind new %s to %s(" +:+ "*%r, **%r)")
        [LVal (PStr keys); LVal (PStr fname); LArgs args; LKwargs kwargs]);;
      kbinst ← lift (qhelper.__init__ keys (func :: map qhelper.Plain args) kwargs);
      let '(kbinst, action) := qhelper.get_action kbinst in
      set_keybind keys kbinst;;
      in_world (modify_window (add_action action))
  | Some kb =>
      in_world (log DEBUG ("bind %s to %s(" +:+ "*%r, **%r)")
        [LVal (PStr keys); LVal (PStr fname); LArgs args; LKwargs kwargs]);;
      kb' ← lift (qhelper.bind_in globals kb func args kwargs);
      set_keybind keys kb'
  end.

Definition _add_keybind : string -> qhelper.member -> list pyval -> kwdict ->
    M Program unit :=
  _add_keybind_in qhelper.module_globals.

(** Triggering the [QAction] whose shortcut is [keys]: its slot calls the
    key-bind of that key combination without arguments. *)
Definition trigger (keys : string) : M Program unit :=
  p ← get;
  if bool_decide (keys ∈ actions (window (world p))) then
    match _keybinds p !! keys with
    | Some kb => in_world (qhelper.__call__ kb [] [])
    | None => mret tt
    end
  else mret tt.

(** *** Gathering the images *)

(** The file system as [gather_images] sees it: what a path resolves to,
    and the lines a listing file yields when it is opened for reading as
    text, or the error opening it raises. *)
Record filesystem := mkFs {
  resolve : string -> fshelper.node;
  open_rt : string -> result (list string)
}.

(** [os.linesep] on a POSIX system. *)
Definition linesep : string := String "010"%char EmptyString.

Fixpoint contains_char (c : ascii) (chars : string) : bool :=
  match chars with
  | EmptyString => false
  | String d rest => bool_decide (c = d) || contains_char c rest
  end.

(** [s.rstrip(chars)]: drop the trailing characters that are in [chars]. *)
Fixpoint rstrip (chars : string) (s : string) : string :=
  match s with
  | EmptyString => EmptyString
  | String c rest =>
      match rstrip chars rest with
      | EmptyString => if contains_char c chars then EmptyString
                       else String c EmptyString
      | kept => String c kept
      end
  end.

(** [IOError] is [OSError]: the errors [except IOError] catches. *)
Definition is_oserror (e : exn) : bool :=
  match e with
  | FileNotFoundError _ | IOError _ => true
  | _ => false
  end.

(** The loop of [gather_images] over the listing files. *)
Fixpoint read_lists (fs : filesystem) (file_list : list string)
    (soft_errors : bool) (inputs : list string)
    : M (list LogRecord) (list string) :=
  match file_list with
  | [] => mret inputs
  | file_path :: rest =>
      match open_rt fs file_path with
      | Ok lines =>
          read_lists fs rest soft_errors (inputs ++ map (rstrip linesep) lines)
      | Raise err =>
          if is_oserror err then
            if negb soft_errors then raise err
            else
              log_to ERROR "Error reading %s: %s" [LVal (PStr file_path); LExn err];;
              read_lists fs rest soft_errors inputs
          else raise err
      end
  end.

Fixpoint log_images (images : list string) (idx total : Z)
    : M (list LogRecord) unit :=
  match images with
  | [] => mret tt
  | image :: rest =>
      log_to DEBUG "Image %d/%d: %s"
        [LVal (PInt (idx + 1)); LVal (PInt total); LVal (PStr image)];;
      log_images rest (idx + 1) total
  end.

(** [gather_images]: gather images from the specified items. *)
Definition gather_images (fs : filesystem) (image_list file_list : option (list string))
    (recurse soft_errors : bool) : M (list LogRecord) (list string) :=
  let inputs := valuehelper.iter_none image_list in
  inputs ← read_lists fs (valuehelper.iter_none file_list) soft_errors inputs;
  let recurse_max := if recurse then -1 else 1 in
  images ← fshelper.get_files (resolve fs) inputs recurse_max soft_errors;
  log_to DEBUG "Scanned %d images" [LVal (PInt (Z.of_nat (length images)))];;
  log_images images 0 (Z.of_nat (length images));;
  mret images.

End imagemanage.

(** ** lib/handle.py *)
Module handle.

(** A [Handles] object: the handle it gave out last. *)
Record Handles := mkHandles { _id : Z }.

(** [Handles()]. *)
Definition __init__ : Handles := mkHandles 0.

(** [next]: advance to and return the next handle. *)
Definition next : M Handles Z :=
  fun self =>
    let self := mkHandles (_id self + 1) in
    (Ok (_id self), self).

End handle.

(** ** imagemanage.py, class [ImageDrawWidget]: the overlay texts

    The widget as far as its text methods use it: the handle provider and
    the dictionary of the texts that are drawn, by handle.  The methods
    run on the records handed to the module's logger and the widget. *)
Module ImageDrawWidget.
Section Texts.
(** What the dictionary holds for a text. *)
Variable TextData : Type.

Record Widget := mkWidget {
  _handle_provider : handle.Handles;
  _text_objects : gmap Z TextData
}.

(** The two fields as the constructor sets them. *)
Definition __init__ : Widget := mkWidget handle.__init__ ∅.

(** [is_text]: true if the given handle is still being drawn. *)
Definition is_text (handle : Z) : M (list LogRecord * Widget) bool :=
  fun s => (Ok (bool_decide (is_Some (_text_objects s.2 !! handle))), s).

(** [get_text]: the data for a specific text handle, or [None] after a
    warning. *)
Definition get_text (handle : Z) : M (list LogRecord * Widget) (option TextData) :=
  bind (is_text handle) (fun known : bool =>
    if known then
      fun s =>
        match _text_objects s.2 !! handle with
        | Some data => (Ok (Some data), s)
        | None => (Raise (KeyError (pretty handle)), s)
        end
    else
      fun s =>
        (Ok None,
         (s.1 ++ [mkLog WARNING "get_text() failed; %r is not a valid handle"
                    [LVal (PInt handle)]],
          s.2))).

(** [add_text]: takes the next handle and returns it; the position, the
    text and the attributes are not used. *)
Definition add_text (pos : Z * Z) (text : string) (attrs : kwdict)
    : M (list LogRecord * Widget) Z :=
  fun s =>
    let '(handle, provider) := handle.next (_handle_provider s.2) in
    (handle, (s.1, mkWidget provider (_text_objects s.2))).

End Texts.
End ImageDrawWidget.

(** ** imagemanage.py, class [ImageManager]: the constructor *)
Module manager.
Import constants.
Section Constructor.
Variable guess_type : string -> option string * option string.

(** One call [self._add_keybind(keys, func, *args)] of the constructor. *)
Definition binding : Type := (string * qhelper.member * list pyval)%type.

(** The calls of [_add_keybind] the constructor makes, in their order:
    the fixed ones, then the loop over [range(1, 10)]. *)
Definition keybinds : list binding :=
  [ ("Ctrl+q", qhelper.Fn "close" (imagemanage.method0 "close" imagemanage.close), []);
    ("Ctrl+w", qhelper.Fn "close" (imagemanage.method0 "close" imagemanage.close), []);
    ("Escape", qhelper.Fn "_key_on_escape" imagemanage._key_on_escape, []);
    ("Left", qhelper.Fn "_key_prev_image" (imagemanage._key_prev_image guess_type), []);
    ("Right", qhelper.Fn "_key_next_image" (imagemanage._key_next_image guess_type), []);
    ("Up", qhelper.Fn "_key_prev_many" (imagemanage._key_prev_many guess_type), []);
    ("Down", qhelper.Fn "_key_next_many" (imagemanage._key_next_many guess_type), []);
    ("Shift+r", qhelper.Fn "_key_rename_image" imagemanage._key_rename_image, []);
    ("Shift+d", qhelper.Fn "_key_delete_image" imagemanage._key_delete_image, []);
    ("Shift+f", qhelper.Fn "_key_find_image" imagemanage._key_find_image, []);
    ("Shift+g", qhelper.Fn "_key_go_to_image" imagemanage._key_go_to_image, []);
    (":", qhelper.Fn "_key_go_to_image" imagemanage._key_go_to_image, []);
    ("h", qhelper.Fn "_key_show_help" imagemanage._key_show_help, []);
    ("z", qhelper.Fn "_key_adjust" imagemanage._key_adjust, [PInt (-1)]);
    ("c", qhelper.Fn "_key_adjust" imagemanage._key_adjust, [PInt 1]);
    ("t", qhelper.Fn "_key_toggle_text" imagemanage._key_toggle_text, []);
    ("l", qhelper.Fn "_key_label" imagemanage._key_label, []);
    ("=", qhelper.Fn "_key_toggle_zoom" imagemanage._key_toggle_zoom, []);
    ("/", qhelper.Fn "_key_enter_command" imagemanage._key_enter_command, []);
    ("_", qhelper.Fn "_key_zoom_out" imagemanage._key_zoom_out, []);
    ("+", qhelper.Fn "_key_zoom_in" imagemanage._key_zoom_in, []) ]
  ++ map (fun idx : Z =>
            (pretty idx, qhelper.Fn "_key_mark_image" imagemanage._key_mark_image,
             [PInt idx]))
       (seqZ 1 9).

(** A run of [_add_keybind] calls; an exception of one of them leaves the
    constructor. *)
Fixpoint add_keybinds (calls : list binding) : M imagemanage.Program unit :=
  match calls with
  | [] => mret tt
  | (keys, func, args) :: rest =>
      imagemanage._add_keybind keys func args [];;
      add_keybinds rest
  end.

(** [ImageManager.__init__], from the point where the Qt window, its
    menus and its central widget exist: the input box is hidden, the
    fields are set, the keys are bound and the first image is shown.
    [lg] holds the log records written so far.  The result is what the
    constructor returns or raises, and the object as it is then: the
    window is not on screen before [main] calls its [show()]. *)
Definition __init__ (images : list string) (advance_many : Z) (lg : list LogRecord)
    : result unit * imagemanage.Program :=
  let textbox := imagemanage.setVisible false Offscreen (mkLineEdit false false "") in
  let self :=
    mkImageManager textbox images (Z.of_nat (length images)) None None 0 MODE_NONE
      advance_many [] [] false Offscreen in
  (add_keybinds keybinds;;
   imagemanage.in_world (imagemanage.set_index guess_type 0))
    (imagemanage.mkProgram ∅ (mkWorld lg self)).

End Constructor.
End manager.

(** ** Sample states

    Concrete states and inputs on which the code is run in the examples
    below. *)

Definition sample_images : list string :=
  ["a.png"; "b.png"; "c.png"; "d.png"; "e.png"].

(** A window over five images, as the constructor sets it up and [main]
    shows it, on screen and active, with the given input box, mode and
    index. *)
Definition sample_window (box : LineEdit) (mode : string) (index : Z) : ImageManager :=
  mkImageManager box sample_images 5 None None index mode
    imagemanage.ADVANCE_MANY_AMOUNT [] [] false Active.

Definition sample_world (box : LineEdit) (mode : string) (index : Z) : World :=
  mkWorld [] (sample_window box mode index).

(** The input box as the constructor leaves it, and while the user types. *)
Definition box_hidden : LineEdit := mkLineEdit false false "".
Definition box_typing (t : string) : LineEdit := mkLineEdit true true t.

(** A [guess_type] that takes every path for a PNG image. *)
Definition sample_guess_type (path : string) : option string * option string :=
  (Some "image/png", None).


(** A bound function that records its name in the action log, and one
    that raises. *)
Definition note (name : string) : qhelper.member :=
  qhelper.Fn name (fun _ _ => modify_window (add_output name)).
Definition boom : qhelper.member :=
  qhelper.Fn "boom" (fun _ _ => raise (Exception "boom")).

(** A program with an empty key-bind table. *)
Definition sample_program : imagemanage.Program :=
  imagemanage.mkProgram ∅ (sample_world box_hidden constants.MODE_NONE 0).

(** A directory of pictures with a sub-directory, a picture next to it,
    and a listing file that names the picture and a path that does not
    exist. *)
Definition sample_resolve (path : string) : fshelper.node :=
  if bool_decide (path = "pics") then
    fshelper.Dir [("a.png", fshelper.File);
                  ("old", fshelper.Dir [("deep.png", fshelper.File)]);
                  ("b.png", fshelper.File)]
  else if bool_decide (path = "c.png") then fshelper.File
  else fshelper.Missing.

Definition sample_fs : imagemanage.filesystem :=
  imagemanage.mkFs sample_resolve
    (fun path =>
       if bool_decide (path = "list.txt")
       then Ok ["c.png" +:+ imagemanage.linesep; "gone.png" +:+ imagemanage.linesep]
       else Raise (FileNotFoundError path)).


(** ** Runs and descriptions

    Repeated calls of the code, and the plain descriptions its results
    are compared with below. *)

(** [n] calls of [Handles.next] in a row; the handles they return. *)
Fixpoint next_n (n : nat) : M handle.Handles (list Z) :=
  match n with
  | O => mret []
  | S k => h ← handle.next; hs ← next_n k; mret (h :: hs)
  end.

(** [add_text] called once for each of the given texts; the handles it
    returns. *)
Fixpoint add_texts {TextData} (texts : list (Z * Z * string))
    : M (list LogRecord * ImageDrawWidget.Widget TextData) (list Z) :=
  match texts with
  | [] => mret []
  | (pos, text) :: rest =>
      h ← ImageDrawWidget.add_text TextData pos text [];
      hs ← add_texts rest;
      mret (h :: hs)
  end.

(** The input box as [_show_textbox] leaves it: visible when it was
    visible or the window is on screen, focused when it was focused or
    the window is the active one. *)
Definition shown_box (im : ImageManager) : LineEdit :=
  mkLineEdit (isVisible (textbox im) || on_screen (screen im))
    (hasFocus (textbox im) || is_active (screen im))
    (text (textbox im)).

(** The key actions that enter an input mode, each with its mode. *)
Definition mode_keys : list (qhelper.Callable * string) :=
  [ (imagemanage._key_rename_image, constants.MODE_RENAME);
    (imagemanage._key_find_image, constants.MODE_SET_IMAGE);
    (imagemanage._key_go_to_image, constants.MODE_GOTO);
    (imagemanage._key_label, constants.MODE_LABEL);
    (imagemanage._key_enter_command, constants.MODE_COMMAND) ].

(** The other key actions decorated with [_blocked_by_input]. *)
Definition action_keys (guess_type : string -> option string * option string)
    : list qhelper.Callable :=
  [ imagemanage._key_prev_image guess_type;
    imagemanage._key_next_image guess_type;
    imagemanage._key_prev_many guess_type;
    imagemanage._key_next_many guess_type;
    imagemanage._key_delete_image;
    imagemanage._key_show_help;
    imagemanage._key_adjust;
    imagemanage._key_toggle_text;
    imagemanage._key_toggle_zoom;
    imagemanage._key_zoom_out;
    imagemanage._key_zoom_in;
    imagemanage._key_mark_image ].

(** The window after a run of [_advance_index] calls, one for each
    amount; a call that raises leaves the window as it is then. *)
Definition advance_all (guess_type : string -> option string * option string)
    (amounts : list Z) (w : World) : World :=
  fold_left (fun w by_ => (imagemanage._advance_index guess_type by_ w).2) amounts w.

(** The sum of a list of integers. *)
Definition total (amounts : list Z) : Z := fold_right Z.add 0 amounts.



(** Does a string end with a line feed? *)
Fixpoint ends_with_newline (s : string) : bool :=
  match s with
  | EmptyString => false
  | String c EmptyString => bool_decide (c = "010"%char)
  | String _ rest => ends_with_newline rest
  end.

(** Every path the list holds is taken for an image by [guess_type]. *)
Definition all_images (guess_type : string -> option string * option string)
    (images : list string) : Prop :=
  forall path, path ∈ images ->
    exists subtype, guess_type path = (Some ("image/" +:+ subtype), None).











(** The window with the given shortcuts added to its actions. *)
Definition with_actions (shortcuts : list string) (im : ImageManager) : ImageManager :=
  mkImageManager (textbox im) (_images im) (_count im) (_image im) (pixmap im)
    (_index im) (_mode im) (_advance_many im) (_output im) (actions im ++ shortcuts)
    (closed im) (screen im).

(** The key-bind a first registration stores: the function, then every
    bound argument as one more member, and the action created. *)
Definition first_keybind (call : manager.binding) : qhelper.KeyBind :=
  qhelper.mkKeyBind call.1.1 (call.1.2 :: map qhelper.Plain call.2) (Some call.1.1).

(** The record [_add_keybind] writes for a key that is not bound yet. *)
Definition bind_new_record (keys : string) (func : qhelper.member)
    (args : list pyval) (kwargs : kwdict) : LogRecord :=
  mkLog DEBUG ("bind new %s to %s(" +:+ "*%r, **%r)")
    [LVal (PStr keys); LVal (PStr (qhelper.func_name func)); LArgs args; LKwargs kwargs].

(** The table after a run of first registrations. *)
Definition bound_table (calls : list manager.binding)
    (table : gmap string qhelper.KeyBind) : gmap string qhelper.KeyBind :=
  fold_left (fun t call => <[call.1.1 := first_keybind call]> t) calls table.

(** The shortcuts the constructor binds, in the order of its calls. *)
Definition constructor_shortcuts : list string :=
  ["Ctrl+q"; "Ctrl+w"; "Escape"; "Left"; "Right"; "Up"; "Down"; "Shift+r"; "Shift+d";
   "Shift+f"; "Shift+g"; ":"; "h"; "z"; "c"; "t"; "l"; "="; "/"; "_"; "+";
   "1"; "2"; "3"; "4"; "5"; "6"; "7"; "8"; "9"].

(** The window the constructor has built when it comes to show the first
    image. *)
Definition constructed (images : list string) (advance_many : Z) : ImageManager :=
  mkImageManager (mkLineEdit false false "") images (Z.of_nat (length images))
    None None 0 constants.MODE_NONE advance_many [] constructor_shortcuts false
    Offscreen.

(** * Properties *)

Import constants.

(** ** [iterate_from] *)

Section IterateFrom.
Context {A : Type}.
Implicit Types (sequence : list A) (curr bound : Z).

(** [while_lt] satisfies the equation of the source loop, so the measure
    it recurses on is always enough. *)
Lemma while_lt_unfold sequence curr bound :
  imagemanage.while_lt sequence curr bound =
    if curr <? bound then
      match getitem sequence curr with
      | Ok x => gen_yield x (imagemanage.while_lt sequence (curr + 1) bound)
      | Raise e => gen_raise e
      end
    else gen_done.
Proof.
  unfold imagemanage.while_lt.
  destruct (Z.ltb_spec curr bound) as [Hlt | Hge].
  - replace (Z.to_nat (bound - curr)) with (S (Z.to_nat (bound - (curr + 1)))) by lia.
    simpl. apply Z.ltb_lt in Hlt. rewrite Hlt. reflexivity.
  - replace (Z.to_nat (bound - curr)) with O by lia. reflexivity.
Qed.

Lemma getitem_lookup sequence (i : nat) (x : A) :
  sequence !! i = Some x -> getitem sequence (Z.of_nat i) = Ok x.
Proof.
  intros Hx. pose proof (lookup_lt_Some _ _ _ Hx) as Hlt.
  unfold getitem.
  destruct (Z.ltb_spec (Z.of_nat i) 0) as [? | _]; [lia |].
  destruct (Z.ltb_spec (Z.of_nat i) 0) as [? | _]; [lia |].
  destruct (Z.leb_spec (Z.of_nat (length sequence)) (Z.of_nat i)) as [? | _]; [lia |].
  simpl. rewrite Nat2Z.id, Hx. reflexivity.
Qed.

(** Run from position [lo] over [k] positions inside the sequence, the
    loop yields exactly that slice and ends normally. *)
Lemma while_lt_slice sequence (k lo : nat) :
  (lo + k <= length sequence)%nat ->
  imagemanage.while_lt sequence (Z.of_nat lo) (Z.of_nat (lo + k)) =
    (take k (drop lo sequence), None).
Proof.
  revert lo. induction k as [| k IH]; intros lo Hle.
  - rewrite while_lt_unfold.
    destruct (Z.ltb_spec (Z.of_nat lo) (Z.of_nat (lo + 0))) as [? | _]; [lia |].
    reflexivity.
  - rewrite while_lt_unfold.
    destruct (Z.ltb_spec (Z.of_nat lo) (Z.of_nat (lo + S k))) as [_ | ?]; [| lia].
    destruct (lookup_lt_is_Some_2 sequence lo ltac:(lia)) as [x Hx].
    rewrite (getitem_lookup _ _ _ Hx).
    replace (Z.of_nat lo + 1) with (Z.of_nat (S lo)) by lia.
    replace (lo + S k)%nat with (S lo + k)%nat by lia.
    rewrite IH by lia.
    rewrite (drop_S _ _ _ Hx). reflexivity.
Qed.

(** From a start index in range, the generator yields the rotation. *)
Lemma iterate_from_in_range sequence (s : nat) :
  (s < length sequence)%nat ->
  imagemanage.iterate_from sequence (Z.of_nat s) =
    (drop s sequence ++ take s sequence, None).
Proof.
  intros Hs. unfold imagemanage.iterate_from.
  destruct (Z.ltb_spec (Z.of_nat s) 0) as [? | _]; [lia |].
  destruct (Z.leb_spec 0 (Z.of_nat s)) as [_ | ?]; [| lia].
  destruct (Z.ltb_spec (Z.of_nat s) (Z.of_nat (length sequence))) as [_ | ?]; [| lia].
  simpl negb. cbv iota.
  replace (Z.of_nat (length sequence)) with (Z.of_nat (s + (length sequence - s))) by lia.
  rewrite while_lt_slice by lia.
  pose proof (while_lt_slice sequence s 0 ltac:(simpl; lia)) as H0.
  change (Z.of_nat 0) with 0 in H0. change (0 + s)%nat with s in H0. rewrite H0.
  unfold gen_then. simpl.
  rewrite take_ge by (rewrite length_drop; lia).
  reflexivity.
Qed.

(** A negative start index in range is first moved up by the length. *)
Lemma iterate_from_negative sequence (s : Z) :
  0 <= s < Z.of_nat (length sequence) ->
  imagemanage.iterate_from sequence (s - Z.of_nat (length sequence)) =
    imagemanage.iterate_from sequence s.
Proof.
  intros Hs. unfold imagemanage.iterate_from.
  destruct (Z.ltb_spec (s - Z.of_nat (length sequence)) 0) as [_ | ?]; [| lia].
  destruct (Z.ltb_spec s 0) as [? | _]; [lia |].
  replace (s - Z.of_nat (length sequence) + Z.of_nat (length sequence)) with s by lia.
  reflexivity.
Qed.

Lemma rotation_lookup sequence (s i : nat) :
  (s < length sequence)%nat -> (i < length sequence)%nat ->
  (drop s sequence ++ take s sequence) !! i =
    sequence !! Z.to_nat ((Z.of_nat s + Z.of_nat i) mod Z.of_nat (length sequence)).
Proof.
  intros Hs Hi.
  destruct (decide (i < length sequence - s)%nat) as [Hlt | Hge].
  - rewrite lookup_app_l by (rewrite length_drop; lia).
    rewrite lookup_drop, Z.mod_small by lia.
    f_equal. lia.
  - rewrite lookup_app_r by (rewrite length_drop; lia).
    rewrite length_drop, lookup_take_lt by lia.
    replace ((Z.of_nat s + Z.of_nat i) mod Z.of_nat (length sequence))
      with (Z.of_nat s + Z.of_nat i - Z.of_nat (length sequence)).
    + f_equal. lia.
    + apply Z.mod_unique with (q := 1); lia.
Qed.

End IterateFrom.

(** The position visited at step [i] of a rotation from [s]. *)
Lemma rotation_position (n s i : Z) :
  0 <= s < n -> 0 <= i < n ->
  (s + i) mod n = if s + i <? n then s + i else s + i - n.
Proof.
  intros Hs Hi. destruct (Z.ltb_spec (s + i) n) as [Hlt | Hge].
  - apply Z.mod_small. lia.
  - symmetry. apply Z.mod_unique with (q := 1); lia.
Qed.

(** C6: for a sequence of length [n > 0] and a start index [s] in
    [[0, n-1]], iterating from [s] and from [s - n] produce the same
    output, the rotation [sequence[s:] + sequence[:s]].  The output is a
    permutation of the sequence, its [i]-th item is the item at position
    [(s + i) mod n], and every position of the sequence is the position
    of exactly one step. *)
Theorem iterate_from_rotation {A} (sequence : list A) (s : Z) :
  0 <= s < Z.of_nat (length sequence) ->
  let n := Z.of_nat (length sequence) in
  let out := drop (Z.to_nat s) sequence ++ take (Z.to_nat s) sequence in
  imagemanage.iterate_from sequence s = (out, None) /\
  imagemanage.iterate_from sequence (s - n) = (out, None) /\
  out ≡ₚ sequence /\
  length out = length sequence /\
  (forall i, 0 <= i < n ->
     out !! Z.to_nat i = sequence !! Z.to_nat ((s + i) mod n)) /\
  (forall j, 0 <= j < n ->
     exists i, 0 <= i < n /\ (s + i) mod n = j /\
       forall i', 0 <= i' < n -> (s + i') mod n = j -> i' = i).
Proof.
  intros Hs n out.
  assert (Hrun : imagemanage.iterate_from sequence s = (out, None)).
  { rewrite <- (Z2Nat.id s) at 1 by lia. apply iterate_from_in_range. lia. }
  split; [exact Hrun |].
  split; [unfold n; rewrite iterate_from_negative by lia; exact Hrun |].
  split; [unfold out; rewrite Permutation_app_comm, take_drop; reflexivity |].
  split; [unfold out; rewrite length_app, length_drop, length_take; lia |].
  split.
  - intros i Hi. unfold n in Hi. unfold out, n.
    rewrite rotation_lookup; [| lia | lia ].
    rewrite !Z2Nat.id by lia. reflexivity.
  - intros j Hj. fold n in Hs.
    exists (if s <=? j then j - s else j - s + n).
    destruct (Z.leb_spec s j) as [Hle | Hgt].
    + split; [lia |]. split.
      * rewrite rotation_position by lia.
        destruct (Z.ltb_spec (s + (j - s)) n); lia.
      * intros i' Hi'. rewrite rotation_position by lia.
        destruct (Z.ltb_spec (s + i') n); lia.
    + split; [lia |]. split.
      * rewrite rotation_position by lia.
        destruct (Z.ltb_spec (s + (j - s + n)) n); lia.
      * intros i' Hi'. rewrite rotation_position by lia.
        destruct (Z.ltb_spec (s + i') n); lia.
Qed.

Lemma iterate_from_rotation_witness :
  0 <= 2 < Z.of_nat (length ["a"; "b"; "c"; "d"; "e"]) /\
  imagemanage.iterate_from ["a"; "b"; "c"; "d"; "e"] 2 = (["c"; "d"; "e"; "a"; "b"], None) /\
  imagemanage.iterate_from ["a"; "b"; "c"; "d"; "e"] (2 - 5) = (["c"; "d"; "e"; "a"; "b"], None).
Proof.
  assert (H : 0 <= 2 < Z.of_nat (length ["a"; "b"; "c"; "d"; "e"])) by (simpl; lia).
  split; [exact H |].
  split; [exact (proj1 (iterate_from_rotation ["a"; "b"; "c"; "d"; "e"] 2 H)) |].
  exact (proj1 (proj2 (iterate_from_rotation ["a"; "b"; "c"; "d"; "e"] 2 H))).
Defined.

(** C7: for a start index outside [[-n, n-1]] the generator fails with an
    [AssertionError] before it yields anything; the index is neither
    clamped nor wrapped into range. *)
Theorem iterate_from_out_of_range {A} (sequence : list A) (start_index : Z) :
  let n := Z.of_nat (length sequence) in
  start_index < - n \/ n <= start_index ->
  exists msg,
    imagemanage.iterate_from sequence start_index = ([], Some (AssertionError msg)).
Proof.
  intros n Hout. unfold imagemanage.iterate_from. fold n.
  destruct (Z.ltb_spec start_index 0) as [Hneg | Hpos].
  - destruct (Z.leb_spec 0 (start_index + n)) as [Hle | _]; [| eexists; reflexivity].
    destruct (Z.ltb_spec (start_index + n) n) as [? | ?]; [lia | eexists; reflexivity].
  - destruct (Z.leb_spec 0 start_index) as [_ | ?]; [| lia].
    destruct (Z.ltb_spec start_index n) as [? | _]; [lia | eexists; reflexivity].
Qed.

Lemma iterate_from_out_of_range_witness :
  (12 < - Z.of_nat (length [0; 1; 2]) \/ Z.of_nat (length [0; 1; 2]) <= 12) /\
  exists msg, imagemanage.iterate_from [0; 1; 2] 12 = ([], Some (AssertionError msg)).
Proof.
  assert (H : 12 < - Z.of_nat (length [0; 1; 2]) \/ Z.of_nat (length [0; 1; 2]) <= 12)
    by (right; simpl; lia).
  split; [exact H | exact (iterate_from_out_of_range [0; 1; 2] 12 H)].
Defined.

(** ** The window: input box, modes and index *)

(** Unfolding of the state-and-exception operations. *)
Ltac unfold_monad :=
  unfold mbind, M_bind, result_bind, bind, mret, M_ret, result_ret, ret, raise,
    modify, get, log, log_to, get_window, modify_window, imagemanage.lift,
    imagemanage.when, imagemanage.modify_textbox, imagemanage.in_world,
    imagemanage.set_keybind in *.

(** [_hide_textbox] always succeeds and leaves the box invisible and
    unfocused; its text and the rest of the state are untouched. *)
Lemma hide_textbox_spec (w : World) :
  imagemanage._hide_textbox w =
    (Ok tt,
     mkWorld (logs w)
       (set_textbox (mkLineEdit false false (text (textbox (window w)))) (window w))).
Proof.
  destruct w as [lg [[vis foc txt] imgs cnt img pm idx md adv outp acts cl scr]].
  unfold imagemanage._hide_textbox. unfold_monad.
  destruct vis, foc; reflexivity.
Qed.

(** [_show_textbox] always succeeds.  It leaves the box visible when it
    was visible or the window is on screen, and focused when it was
    focused or the window is the active one. *)
Lemma show_textbox_spec (w : World) :
  imagemanage._show_textbox w =
    (Ok tt,
     mkWorld (logs w)
       (set_textbox
          (mkLineEdit
             (isVisible (textbox (window w)) || on_screen (screen (window w)))
             (hasFocus (textbox (window w)) || is_active (screen (window w)))
             (text (textbox (window w))))
          (window w))).
Proof.
  destruct w as [lg [[vis foc txt] imgs cnt img pm idx md adv outp acts cl scr]].
  unfold imagemanage._show_textbox. unfold_monad.
  destruct vis, foc, scr; reflexivity.
Qed.

(** What a function decorated with [_blocked_by_input] does while the
    input box has focus: it writes one debug record and returns, without
    calling the function. *)
Lemma blocked_by_input_focused (name : string) (func : qhelper.Callable)
    (args : list pyval) (kwargs : kwdict) (w : World) :
  hasFocus (textbox (window w)) = true ->
  imagemanage._blocked_by_input name func args kwargs w =
    (Ok tt,
     mkWorld (logs w ++ [mkLog DEBUG "Input has focus; blocking %r call" [LVal (PStr name)]])
       (window w)).
Proof.
  intros Hfocus. unfold imagemanage._blocked_by_input. unfold_monad.
  rewrite Hfocus. reflexivity.
Qed.

(** Without focus on the input box the decorated function is called, after
    a trace record. *)
Lemma blocked_by_input_unfocused (name : string) (func : qhelper.Callable)
    (args : list pyval) (kwargs : kwdict) (w : World) :
  hasFocus (textbox (window w)) = false ->
  imagemanage._blocked_by_input name func args kwargs w =
    func args kwargs
      (mkWorld
         (logs w ++ [mkLog TRACE ("%s(" +:+ "*%s, **%s)")
                       [LVal (PStr name); LArgs args; LKwargs kwargs]])
         (window w)).
Proof.
  intros Hfocus. unfold imagemanage._blocked_by_input. unfold_monad.
  rewrite Hfocus. reflexivity.
Qed.

(** C4: when the input box has focus, a key action that enters an input
    mode returns without touching the window: the mode, the visibility
    of the input box and every other field of the window are as before.
    Only a debug record is written to the log. *)
Theorem mode_entry_blocked_while_focused (w : World) (args : list pyval) (kwargs : kwdict) :
  hasFocus (textbox (window w)) = true ->
  let unchanged (key : qhelper.Callable) :=
    (key args kwargs w).1 = Ok tt /\ window (key args kwargs w).2 = window w in
  unchanged imagemanage._key_rename_image /\
  unchanged imagemanage._key_find_image /\
  unchanged imagemanage._key_go_to_image /\
  unchanged imagemanage._key_label /\
  unchanged imagemanage._key_enter_command.
Proof.
  intros Hfocus unchanged. unfold unchanged.
  unfold imagemanage._key_rename_image, imagemanage._key_find_image,
    imagemanage._key_go_to_image, imagemanage._key_label,
    imagemanage._key_enter_command.
  rewrite !blocked_by_input_focused by exact Hfocus.
  repeat split.
Qed.

Lemma mode_entry_blocked_while_focused_witness :
  let w := sample_world (box_typing "12") MODE_GOTO 0 in
  hasFocus (textbox (window w)) = true /\
  (imagemanage._key_rename_image [] [] w).1 = Ok tt /\
  window (imagemanage._key_rename_image [] [] w).2 = window w.
Proof.
  intros w. split; [reflexivity |].
  exact (proj1 (mode_entry_blocked_while_focused w [] [] eq_refl)).
Defined.

(** [redraw] changes the shown image only: the index and the image list
    stay as they are, whether it succeeds or raises. *)
Lemma redraw_keeps_index guess_type (w : World) :
  _index (window (imagemanage.redraw guess_type w).2) = _index (window w) /\
  _count (window (imagemanage.redraw guess_type w).2) = _count (window w).
Proof.
  unfold imagemanage.redraw. unfold_monad.
  destruct (getitem (_images (window w)) (_index (window w))) as [path | e];
    [| split; reflexivity].
  simpl.
  destruct (guess_type path) as [[mime |] [enc |]]; try (split; reflexivity).
  destruct (imagemanage.split_slash mime) as [[mimecat mimename] |];
    [| split; reflexivity].
  repeat case_bool_decide; split; reflexivity.
Qed.

(** [set_index] with an index in range stores it, then redraws. *)
Lemma set_index_in_range guess_type (idx : Z) (w : World) :
  0 <= idx < _count (window w) ->
  _index (window (imagemanage.set_index guess_type idx w).2) = idx.
Proof.
  intros Hidx. unfold imagemanage.set_index. unfold_monad.
  destruct (Z.ltb_spec idx 0) as [? | _]; [lia |].
  destruct (Z.leb_spec (_count (window w)) idx) as [? | _]; [lia |].
  simpl.
  match goal with
  | |- context [imagemanage.redraw guess_type ?w'] =>
      pose proof (redraw_keeps_index guess_type w') as [Hi _];
      destruct (imagemanage.redraw guess_type w') as [r w'']
  end.
  simpl in *. destruct r; exact Hi.
Qed.

(** [_advance_index] on a window with at least one image. *)
Lemma advance_index_spec guess_type (by_ : Z) (w : World) :
  0 < _count (window w) ->
  _index (window (imagemanage._advance_index guess_type by_ w).2) =
    (_index (window w) + by_) mod _count (window w).
Proof.
  intros Hn. unfold imagemanage._advance_index, imagemanage.py_mod. unfold_monad.
  destruct (Z.eqb_spec (_count (window w)) 0) as [? | _]; [lia |].
  simpl.
  pose proof (Z.mod_pos_bound (_index (window w) + by_) (_count (window w)) Hn) as Hb.
  pose proof (set_index_in_range guess_type _ w Hb) as Hset.
  destruct (imagemanage.set_index guess_type _ w) as [r w'].
  simpl in *. exact Hset.
Qed.

(** C5: on a window over [n > 0] images whose index is in [[0, n)],
    advancing by any amount, positive or negative, sets the index to
    [(index + amount) mod n]: one step past the last image gives 0, one
    step before the first gives [n - 1], and the key for advancing many
    images does the same with the window's advance count. *)
Theorem advance_index_wraps guess_type (w : World) (by_ : Z) :
  let n := _count (window w) in
  let index := _index (window w) in
  0 < n ->
  0 <= index < n ->
  _index (window (imagemanage._advance_index guess_type by_ w).2) = (index + by_) mod n /\
  (index = n - 1 ->
     _index (window (imagemanage._advance_index guess_type 1 w).2) = 0) /\
  (index = 0 ->
     _index (window (imagemanage._advance_index guess_type (-1) w).2) = n - 1) /\
  (hasFocus (textbox (window w)) = false ->
     _index (window (imagemanage._key_next_many guess_type [] [] w).2) =
       (index + _advance_many (window w)) mod n).
Proof.
  intros n index Hn Hidx. unfold n, index in *.
  split; [apply advance_index_spec; exact Hn |].
  split; [| split].
  - intros Hlast. rewrite advance_index_spec by exact Hn.
    rewrite Hlast. replace (_count (window w) - 1 + 1) with (_count (window w)) by lia.
    apply Z.mod_same. lia.
  - intros Hfirst. rewrite advance_index_spec by exact Hn.
    rewrite Hfirst. symmetry. apply Z.mod_unique with (q := -1); lia.
  - intros Hfocus. unfold imagemanage._key_next_many.
    rewrite blocked_by_input_unfocused by exact Hfocus.
    unfold imagemanage.method0. unfold_monad. simpl.
    match goal with
    | |- context [imagemanage._advance_index guess_type ?b ?w'] =>
        pose proof (advance_index_spec guess_type b w' Hn) as Hadv;
        destruct (imagemanage._advance_index guess_type b w') as [r w'']
    end.
    simpl in *. exact Hadv.
Qed.

Lemma advance_index_wraps_witness :
  let w := sample_world box_hidden MODE_NONE 0 in
  0 < _count (window w) /\
  0 <= _index (window w) < _count (window w) /\
  _index (window (imagemanage._advance_index sample_guess_type 10 w).2) = 0 /\
  _index (window (imagemanage._key_next_many sample_guess_type [] [] w).2) = 0.
Proof.
  intros w.
  assert (Hn : 0 < _count (window w)) by (simpl; lia).
  assert (Hidx : 0 <= _index (window w) < _count (window w)) by (simpl; lia).
  split; [exact Hn |]. split; [exact Hidx |].
  split.
  - exact (proj1 (advance_index_wraps sample_guess_type w 10 Hn Hidx)).
  - exact (proj2 (proj2 (proj2 (advance_index_wraps sample_guess_type w 10 Hn Hidx)))
             eq_refl).
Defined.

(** The branch [_on_command] takes on the captured mode: nothing for the
    five input modes, a warning record for any other value. *)
Lemma dispatch_spec (mode submitted : string) (w : World) :
  imagemanage.dispatch mode submitted w =
    (Ok tt,
     mkWorld
       (logs w ++
          if bool_decide (mode ∈ [MODE_RENAME; MODE_GOTO; MODE_SET_IMAGE;
                                   MODE_LABEL; MODE_COMMAND])
          then []
          else [mkLog WARNING "Invalid mode %r (while executing %r)"
                  [LVal (PStr mode); LVal (PStr submitted)]])
       (window w)).
Proof.
  destruct w as [lg im]. unfold imagemanage.dispatch. unfold_monad. simpl.
  destruct (decide (mode = MODE_RENAME)) as [-> | H1]; [rewrite app_nil_r; reflexivity |].
  destruct (decide (mode = MODE_GOTO)) as [-> | H2]; [rewrite app_nil_r; reflexivity |].
  destruct (decide (mode = MODE_SET_IMAGE)) as [-> | H3]; [rewrite app_nil_r; reflexivity |].
  destruct (decide (mode = MODE_LABEL)) as [-> | H4]; [rewrite app_nil_r; reflexivity |].
  destruct (decide (mode = MODE_COMMAND)) as [-> | H5]; [rewrite app_nil_r; reflexivity |].
  rewrite (bool_decide_eq_false_2 (mode = MODE_RENAME)) by exact H1.
  rewrite (bool_decide_eq_false_2 (mode = MODE_GOTO)) by exact H2.
  rewrite (bool_decide_eq_false_2 (mode = MODE_SET_IMAGE)) by exact H3.
  rewrite (bool_decide_eq_false_2 (mode = MODE_LABEL)) by exact H4.
  rewrite (bool_decide_eq_false_2 (mode = MODE_COMMAND)) by exact H5.
  rewrite bool_decide_eq_false_2; [reflexivity |].
  rewrite !elem_of_cons, elem_of_nil. tauto.
Qed.

(** C1, as the code has it: submitting the input box captures the mode,
    resets the stored mode to [MODE_NONE], reads the text of the input
    box, hides the box (invisible and unfocused) and dispatches on the
    captured mode.  After every submission the mode is [MODE_NONE] and the
    box is hidden; its text is what it was before the submission. *)
Theorem on_command_resets_mode_and_hides (w : World) :
  let mode := _mode (window w) in
  let submitted := text (textbox (window w)) in
  let r := imagemanage._on_command w in
  r.1 = Ok tt /\
  window r.2 =
    set_textbox (mkLineEdit false false submitted) (set_mode MODE_NONE (window w)) /\
  _mode (window r.2) = MODE_NONE /\
  isVisible (textbox (window r.2)) = false /\
  hasFocus (textbox (window r.2)) = false /\
  text (textbox (window r.2)) = submitted /\
  logs r.2 =
    logs w ++
    [mkLog DEBUG "_on_command: mode=%s text=%r" [LVal (PStr mode); LVal (PStr submitted)]] ++
    (if bool_decide (mode ∈ [MODE_RENAME; MODE_GOTO; MODE_SET_IMAGE;
                              MODE_LABEL; MODE_COMMAND])
     then []
     else [mkLog WARNING "Invalid mode %r (while executing %r)"
             [LVal (PStr mode); LVal (PStr submitted)]]).
Proof.
  intros mode submitted r.
  assert (Hr : r =
    (Ok tt,
     mkWorld
       (logs w ++
        [mkLog DEBUG "_on_command: mode=%s text=%r"
           [LVal (PStr mode); LVal (PStr submitted)]] ++
        (if bool_decide (mode ∈ [MODE_RENAME; MODE_GOTO; MODE_SET_IMAGE;
                                  MODE_LABEL; MODE_COMMAND])
         then []
         else [mkLog WARNING "Invalid mode %r (while executing %r)"
                 [LVal (PStr mode); LVal (PStr submitted)]]))
       (set_textbox (mkLineEdit false false submitted)
          (set_mode MODE_NONE (window w))))).
  { unfold r, imagemanage._on_command.
    unfold mbind, M_bind, bind, get_window, modify_window, modify, log. simpl.
    rewrite hide_textbox_spec. simpl.
    rewrite dispatch_spec. simpl.
    rewrite <- app_assoc. reflexivity. }
  rewrite Hr. simpl. repeat split.
Qed.

(** C1, counterexample to the claim that the text is cleared: submitted
    in rename mode with a name typed in, the box is hidden and the mode
    reset, and the box still holds the name. *)
Lemma on_command_does_not_clear_text :
  let w := sample_world (box_typing "holiday.png") MODE_RENAME 0 in
  let w' := (imagemanage._on_command w).2 in
  _mode (window w) <> MODE_NONE /\
  text (textbox (window w')) = "holiday.png" /\
  ~ (_mode (window w') = MODE_NONE /\
     isVisible (textbox (window w')) = false /\
     hasFocus (textbox (window w')) = false /\
     text (textbox (window w')) = "").
Proof.
  vm_compute. split; [discriminate |]. split; [reflexivity |].
  intros (_ & _ & _ & H). discriminate H.
Qed.

(** ** The key-bind table *)

Lemma call_each_cons keys func rest args kwargs (w : World) :
  qhelper.call_each keys (func :: rest) args kwargs w =
    match qhelper.call func args kwargs
            (mkWorld (logs w ++ [qhelper.invoke_record keys func args kwargs]) (window w)) with
    | (Ok _, w') => qhelper.call_each keys rest args kwargs w'
    | (Raise e, w') => (Raise e, w')
    end.
Proof. reflexivity. Qed.

Lemma call_each_app keys pre post args kwargs (w : World) :
  qhelper.call_each keys (pre ++ post) args kwargs w =
    match qhelper.call_each keys pre args kwargs w with
    | (Ok _, w') => qhelper.call_each keys post args kwargs w'
    | (Raise e, w') => (Raise e, w')
    end.
Proof.
  revert w. induction pre as [| func pre IH]; intros w; [reflexivity |].
  rewrite <- app_comm_cons, !call_each_cons.
  destruct (qhelper.call func args kwargs _) as [[[] | e] w']; [apply IH | reflexivity].
Qed.

(** C3, as the code has it: a trigger calls the members in the order they
    were bound and stops at the first one that raises.  With no member it
    returns at once and changes nothing.  A single member is called with
    the arguments of the trigger, after the log record of the call, and
    the trigger returns or raises as that call does, from the state it
    left.  In general a member is called when all members before it
    returned, on the state they left; when it raises, the trigger raises
    the same exception from that state and no later member is called;
    when it returns, the trigger goes on with the members after it. *)
Theorem call_stops_at_first_exception (keys : string) (action : option string)
    (pre : list qhelper.member) (func : qhelper.member) (post : list qhelper.member)
    (args : list pyval) (kwargs : kwdict) (w : World) :
  qhelper.__call__ (qhelper.mkKeyBind keys [] action) args kwargs w = (Ok tt, w) /\
  qhelper.__call__ (qhelper.mkKeyBind keys [func] action) args kwargs w =
    match qhelper.call func args kwargs
            (mkWorld (logs w ++ [qhelper.invoke_record keys func args kwargs]) (window w)) with
    | (Raise e, w1) => (Raise e, w1)
    | (Ok _, w1) => (Ok tt, w1)
    end /\
  qhelper.__call__ (qhelper.mkKeyBind keys (pre ++ func :: post) action) args kwargs w =
    match qhelper.__call__ (qhelper.mkKeyBind keys pre action) args kwargs w with
    | (Raise e, w1) => (Raise e, w1)
    | (Ok _, w1) =>
        match qhelper.call func args kwargs
                (mkWorld (logs w1 ++ [qhelper.invoke_record keys func args kwargs]) (window w1)) with
        | (Raise e, w2) => (Raise e, w2)
        | (Ok _, w2) =>
            qhelper.__call__ (qhelper.mkKeyBind keys post action) args kwargs w2
        end
    end.
Proof.
  unfold qhelper.__call__. cbn [qhelper._keys qhelper._functions].
  split; [reflexivity |]. split.
  - rewrite call_each_cons. cbn [qhelper.call_each].
    destruct (qhelper.call func args kwargs _) as [[[] | e] w1]; reflexivity.
  - rewrite call_each_app.
    destruct (qhelper.call_each keys pre args kwargs w) as [[[] | e] w1]; [| reflexivity].
    apply call_each_cons.
Qed.

(** C3, counterexample to the claim that a failing member does not stop
    the others: with a member that raises bound before one that records
    its name, the trigger raises, one call is logged, and the second
    member has recorded nothing. *)
Lemma call_skips_members_after_exception :
  let kb := qhelper.mkKeyBind "x" [boom; note "second"] None in
  let w := sample_world box_hidden MODE_NONE 0 in
  let r := qhelper.__call__ kb [] [] w in
  r.1 = Raise (Exception "boom") /\
  logs r.2 = [qhelper.invoke_record "x" boom [] []] /\
  _output (window r.2) = [] /\
  _output (window (qhelper.__call__ (qhelper.mkKeyBind "x" [note "second"] None) [] [] w).2)
    = ["second"].
Proof. vm_compute. repeat split. Qed.

(** On a key combination that is already bound, [_add_keybind] writes its
    log record, raises [NameError] from [KeyBind.bind] and leaves the
    table and the window as they were. *)
Lemma add_keybind_existing_raises (keys : string) (func : qhelper.member)
    (args : list pyval) (kwargs : kwdict) (p : imagemanage.Program)
    (kb : qhelper.KeyBind) :
  imagemanage._keybinds p !! keys = Some kb ->
  exists lg,
    imagemanage._add_keybind keys func args kwargs p =
      (Raise (NameError "functools"),
       imagemanage.mkProgram (imagemanage._keybinds p)
         (mkWorld lg (window (imagemanage.world p)))).
Proof.
  intros Hkb. destruct p as [table [lg win]].
  unfold imagemanage._add_keybind, imagemanage._add_keybind_in. unfold_monad.
  simpl in *. rewrite Hkb. simpl. eexists. reflexivity.
Qed.

(** Had the module imported [functools], the second registration would
    append a wrapper of the function to the members already bound. *)
Lemma add_keybind_in_existing (globals : list string) (keys : string)
    (func : qhelper.member) (args : list pyval) (kwargs : kwdict)
    (p : imagemanage.Program) (kb : qhelper.KeyBind) :
  "functools" ∈ globals ->
  imagemanage._keybinds p !! keys = Some kb ->
  exists lg,
    imagemanage._add_keybind_in globals keys func args kwargs p =
      (Ok tt,
       imagemanage.mkProgram
         (<[keys := qhelper.mkKeyBind (qhelper._keys kb)
                      (qhelper._functions kb ++ [qhelper.wrapper func args kwargs])
                      (qhelper._action kb)]> (imagemanage._keybinds p))
         (mkWorld lg (window (imagemanage.world p)))).
Proof.
  intros Hin Hkb. destruct p as [table [lg win]].
  unfold imagemanage._add_keybind_in, qhelper.bind_in, qhelper.lookup_global.
  unfold_monad. simpl in *. rewrite Hkb. simpl.
  rewrite bool_decide_eq_true_2 by exact Hin. simpl.
  eexists. reflexivity.
Qed.

(** C2, the code run on two registrations under one key: the first creates
    the entry; the second raises [NameError], because [KeyBind.bind] uses
    [functools], which its module never imports.  The entry keeps the
    first function only, and triggering the key calls that one alone. *)
Lemma add_keybind_second_registration_raises :
  let r1 := imagemanage._add_keybind "x" (note "first") [] [] sample_program in
  let r2 := imagemanage._add_keybind "x" (note "second") [] [] r1.2 in
  let r3 := imagemanage.trigger "x" r2.2 in
  r1.1 = Ok tt /\
  r2.1 = Raise (NameError "functools") /\
  (map qhelper.func_name ∘ qhelper._functions) <$> imagemanage._keybinds r2.2 !! "x"
    = Some ["first"] /\
  r3.1 = Ok tt /\
  _output (window (imagemanage.world r3.2)) = ["first"].
Proof. vm_compute. repeat split. Qed.

(** The same two registrations in a module that binds [functools]: both
    functions are kept and the trigger calls them in registration order. *)
Lemma add_keybind_twice_with_functools :
  let globals := "functools" :: qhelper.module_globals in
  let r1 := imagemanage._add_keybind_in globals "x" (note "first") [] [] sample_program in
  let r2 := imagemanage._add_keybind_in globals "x" (note "second") [] [] r1.2 in
  let r3 := imagemanage.trigger "x" r2.2 in
  r2.1 = Ok tt /\
  (map qhelper.func_name ∘ qhelper._functions) <$> imagemanage._keybinds r2.2 !! "x"
    = Some ["first"; "second"] /\
  r3.1 = Ok tt /\
  _output (window (imagemanage.world r3.2)) = ["first"; "second"].
Proof. vm_compute. repeat split. Qed.

(** A first registration with a bound argument: the constructor takes the
    argument for one more function, so the entry holds the function and
    the value, and the trigger calls the function without its argument. *)
Example add_keybind_with_bound_argument :
  let r1 := imagemanage._add_keybind "z" (qhelper.Fn "_key_adjust" imagemanage._key_adjust)
              [PInt (-1)] [] sample_program in
  let r2 := imagemanage.trigger "z" r1.2 in
  r1.1 = Ok tt /\
  (map qhelper.func_name ∘ qhelper._functions) <$> imagemanage._keybinds r1.2 !! "z"
    = Some ["_key_adjust"; "<object>"] /\
  r2.1 = Raise (TypeError "_key_adjust() takes 2 positional arguments").
Proof. vm_compute. repeat split. Qed.

(** ** Gathering files *)

Section NodeInduction.
Import fshelper.
Variable P : node -> Prop.
Hypothesis missing_case : P Missing.
Hypothesis file_case : P File.
Hypothesis other_case : P Other.
Hypothesis dir_case :
  forall children, Forall (fun c => P c.2) children -> P (Dir children).

(** Induction on a directory tree: the children of a directory satisfy
    the property. *)
Fixpoint node_tree_ind (nd : node) : P nd :=
  match nd with
  | Missing => missing_case
  | File => file_case
  | Other => other_case
  | Dir children =>
      dir_case children
        ((fix all (cs : list (string * node)) : Forall (fun c => P c.2) cs :=
            match cs with
            | [] => @List.Forall_nil _ (fun c => P c.2)
            | (name, child) :: cs' =>
                @List.Forall_cons _ (fun c => P c.2) (name, child) cs'
                  (node_tree_ind child) (all cs')
            end) children)
  end.
End NodeInduction.

(** A directory is listed when the depth allows it, and skipped with one
    of two notices otherwise. *)
Lemma get_files_of_dir entry children depth depth_max soft_errors lg :
  fshelper._get_files_of entry (fshelper.Dir children) depth depth_max soft_errors lg =
    if (depth_max =? -1) || (depth + 1 <=? depth_max) then
      fshelper.for_children entry depth depth_max soft_errors children lg
    else if depth_max =? 0 then
      (gen_done, lg ++ [mkLog INFO "Skipping directory %r" [LVal (PStr entry)]])
    else
      (gen_done,
       lg ++ [mkLog INFO "Skipping directory %r; max depth %d reached"
                [LVal (PStr entry); LVal (PInt depth)]]).
Proof. reflexivity. Qed.

Lemma for_children_cons entry depth depth_max soft_errors child_name child_node rest lg :
  fshelper.for_children entry depth depth_max soft_errors
    ((child_name, child_node) :: rest) lg =
    let '(g, lg1) :=
      fshelper._get_files_of (fshelper.join entry child_name) child_node (depth + 1)
        depth_max soft_errors lg in
    match g.2 with
    | Some _ => (g, lg1)
    | None =>
        let '(g', lg2) :=
          fshelper.for_children entry depth depth_max soft_errors rest lg1 in
        (gen_then g g', lg2)
    end.
Proof. reflexivity. Qed.

(** The gatherer only appends to the log: run from any log, it yields what
    it yields from the empty log, and leaves the records it writes from
    the empty log after those it started with. *)
Lemma get_files_of_frame nd :
  forall entry depth depth_max soft_errors lg,
    fshelper._get_files_of entry nd depth depth_max soft_errors lg =
      ((fshelper._get_files_of entry nd depth depth_max soft_errors []).1,
       lg ++ (fshelper._get_files_of entry nd depth depth_max soft_errors []).2).
Proof.
  induction nd as [| | | children IH] using node_tree_ind;
    intros entry depth depth_max soft_errors lg.
  - simpl. destruct soft_errors; reflexivity.
  - simpl. rewrite app_nil_r. reflexivity.
  - reflexivity.
  - rewrite !get_files_of_dir.
    destruct ((depth_max =? -1) || (depth + 1 <=? depth_max));
      [| destruct (depth_max =? 0); reflexivity].
    revert lg. induction IH as [| [child_name child_node] rest Hchild _ IHrest]; intros lg.
    + simpl. rewrite app_nil_r. reflexivity.
    + rewrite !for_children_cons. simpl in Hchild.
      rewrite (Hchild _ _ _ _ lg).
      destruct (fshelper._get_files_of (fshelper.join entry child_name) child_node
                  (depth + 1) depth_max soft_errors []) as [[ys [e |]] new]; simpl.
      * reflexivity.
      * rewrite (IHrest (lg ++ new)), (IHrest new).
        simpl. rewrite app_assoc. reflexivity.
Qed.


(** The only exception the generator raises is [FileNotFoundError]. *)
Lemma get_files_of_raises_not_found nd :
  forall entry depth depth_max soft_errors lg e,
    (fshelper._get_files_of entry nd depth depth_max soft_errors lg).1.2 = Some e ->
    exists path, e = FileNotFoundError path.
Proof.
  induction nd as [| | | children IH] using node_tree_ind;
    intros entry depth depth_max soft_errors lg e; try discriminate.
  - simpl. destruct soft_errors; simpl; [discriminate |].
    intros [= <-]. eexists. reflexivity.
  - rewrite get_files_of_dir.
    destruct ((depth_max =? -1) || (depth + 1 <=? depth_max));
      [| destruct (depth_max =? 0); discriminate].
    revert lg. induction IH as [| [child_name child_node] rest Hchild _ IHrest]; intros lg.
    + discriminate.
    + rewrite for_children_cons. simpl in Hchild.
      specialize (Hchild (fshelper.join entry child_name) (depth + 1) depth_max
                    soft_errors lg).
      destruct (fshelper._get_files_of _ child_node _ _ _ lg) as [[ys [e1 |]] lg1];
        simpl in *.
      * intros [= <-]. apply Hchild. reflexivity.
      * specialize (IHrest lg1).
        destruct (fshelper.for_children entry depth depth_max soft_errors rest lg1)
          as [[ys' stop'] lg2].
        simpl in *. exact IHrest.
Qed.

(** The results collected so far are a prefix of what [get_files] returns. *)
Lemma extend_all_results resolve entry_list recurse_max soft_errors results lg :
  fshelper.extend_all resolve entry_list recurse_max soft_errors results lg =
    match fshelper.extend_all resolve entry_list recurse_max soft_errors [] lg with
    | (Ok files, lg') => (Ok (results ++ files), lg')
    | (Raise e, lg') => (Raise e, lg')
    end.
Proof.
  revert results lg. induction entry_list as [| entry rest IH]; intros results lg.
  - simpl. unfold ret. rewrite app_nil_r. reflexivity.
  - simpl.
    destruct (fshelper._get_files_of entry (resolve entry) 0 recurse_max soft_errors lg)
      as [[ys [e |]] lg1]; simpl; [reflexivity |].
    rewrite (IH (results ++ ys)), (IH ys).
    destruct (fshelper.extend_all resolve rest recurse_max soft_errors [] lg1)
      as [[files | e] lg2]; [rewrite app_assoc |]; reflexivity.
Qed.



(** Without soft errors, every failure of [get_files] is a
    [FileNotFoundError]. *)
Lemma get_files_raises_not_found resolve entry_list recurse_max soft_errors lg e lg' :
  fshelper.get_files resolve entry_list recurse_max soft_errors lg = (Raise e, lg') ->
  exists path, e = FileNotFoundError path.
Proof.
  unfold fshelper.get_files. revert lg.
  induction entry_list as [| entry rest IH]; intros lg.
  - discriminate.
  - simpl.
    pose proof (get_files_of_raises_not_found (resolve entry) entry 0 recurse_max
                  soft_errors lg) as Hraise.
    destruct (fshelper._get_files_of entry (resolve entry) 0 recurse_max soft_errors lg)
      as [[ys [e1 |]] lg1]; simpl in *.
    + intros [= <- <-]. apply Hraise. reflexivity.
    + rewrite extend_all_results.
      specialize (IH lg1).
      destruct (fshelper.extend_all resolve rest recurse_max soft_errors [] lg1)
        as [[files | e2] lg2]; [discriminate |].
      intros [= <- <-]. apply IH. reflexivity.
Qed.

(** ** Walking the entries *)










(** The same run, evaluated. *)
Example get_files_missing_entry_run :
  (fshelper.get_files sample_resolve ["pics"; "gone.png"; "c.png"] 1 false []).1 =
    Raise (FileNotFoundError "gone.png") /\
  (fshelper.get_files sample_resolve ["pics"; "gone.png"; "c.png"] 1 true []).1 =
    Ok ["pics/a.png"; "pics/b.png"; "c.png"].
Proof. vm_compute. split; reflexivity. Qed.

(** ** Gathering images without the recurse flag *)




Section LogInvariant.
(** A property of log records that every record has, except perhaps the
    notice of the depth-0 branch. *)
Variable Q : LogRecord -> Prop.
Hypothesis Q_other : forall r, msg r <> "Skipping directory %r" -> Q r.






End LogInvariant.



(** ** [format_size] *)

Section FloatFacts.
Import pyfloat.

Lemma iter_pos_invariant {T} (f : T -> T) (P : T -> Prop) :
  (forall x, P x -> P (f x)) -> forall p x, P x -> P (SpecFloat.iter_pos f p x).
Proof.
  intros Hf. induction p as [p IH | p IH |]; intros x Hx; simpl; auto.
Qed.

Lemma shr_1_nonneg mrs : 0 <= shr_m mrs -> 0 <= shr_m (shr_1 mrs).
Proof.
  destruct mrs as [m r s]. simpl.
  destruct m as [| [p | p |] | [p | p |]]; simpl; lia.
Qed.

Lemma shr_fexp_nonneg m e l : 0 <= m -> 0 <= shr_m (shr_fexp prec emax m e l).1.
Proof.
  intros Hm. unfold shr_fexp, shr.
  assert (H0 : 0 <= shr_m (shr_record_of_loc m l)) by (destruct l as [| []]; exact Hm).
  destruct (fexp prec emax (Zdigits2 m + e) - e); simpl; try exact H0.
  apply iter_pos_invariant; [apply shr_1_nonneg | exact H0].
Qed.

Lemma round_nearest_even_nonneg m l : 0 <= m -> 0 <= round_nearest_even m l.
Proof.
  intros Hm. destruct l as [| []]; simpl; try lia.
  destruct (Z.even m); lia.
Qed.

(** Rounding a non-negative mantissa gives a zero, a finite number or an
    infinity. *)
Lemma binary_round_aux_not_nan s m e l :
  0 <= m -> binary_round_aux prec emax s m e l <> S754_nan.
Proof.
  intros Hm. unfold binary_round_aux.
  pose proof (shr_fexp_nonneg m e l Hm) as H1.
  destruct (shr_fexp prec emax m e l) as [mrs' e']. simpl in H1.
  pose proof (shr_fexp_nonneg _ e' loc_Exact
                (round_nearest_even_nonneg _ (loc_of_shr_record mrs') H1)) as H2.
  destruct (shr_fexp prec emax _ e' loc_Exact) as [mrs'' e'']. simpl in H2.
  destruct (shr_m mrs'') as [| p | p]; [discriminate | | lia].
  destruct (e'' <=? emax - prec); discriminate.
Qed.

Lemma of_int_not_nan n v : of_int n = Ok v -> v <> S754_nan.
Proof.
  unfold of_int, binary_normalize, binary_round.
  destruct n as [| p | p].
  - intros [= <-]. discriminate.
  - destruct (shl_align p 0 _) as [mz ez].
    pose proof (binary_round_aux_not_nan false (Z.pos mz) ez loc_Exact ltac:(lia)) as Hn.
    destruct (binary_round_aux prec emax false (Z.pos mz) ez loc_Exact);
      intros [= <-]; congruence.
  - destruct (shl_align p 0 _) as [mz ez].
    pose proof (binary_round_aux_not_nan true (Z.pos mz) ez loc_Exact ltac:(lia)) as Hn.
    destruct (binary_round_aux prec emax true (Z.pos mz) ez loc_Exact);
      intros [= <-]; congruence.
Qed.

(** Dividing a number by a positive finite one gives a number. *)
Lemma SFdiv_not_nan x m e :
  x <> S754_nan -> SFdiv prec emax x (S754_finite false m e) <> S754_nan.
Proof.
  intros Hx. destruct x as [s | s | | s mx ex]; simpl; try discriminate;
    [contradiction |].
  unfold SFdiv_core_binary.
  set (m' := match _ - _ - _ with Z.pos _ => _ | Z0 => _ | Z.neg _ => _ end).
  assert (Hm' : 0 <= m').
  { unfold m'. destruct (_ - _ - _); try lia. apply Z.shiftl_nonneg. lia. }
  pose proof (Z_div_mod m' (Z.pos m) ltac:(lia)) as Hdiv.
  destruct (Z.div_eucl m' (Z.pos m)) as [q r].
  apply binary_round_aux_not_nan. nia.
Qed.

(** For numbers, "not at or above" a positive finite bound is "below". *)
Lemma not_ge_is_lt x m e :
  x <> S754_nan ->
  ge x (S754_finite false m e) = false ->
  SFltb x (S754_finite false m e) = true.
Proof.
  intros Hx. unfold ge, SFleb, SFltb.
  destruct x as [s | s | | s mx ex]; simpl;
    [congruence | destruct s; congruence | contradiction |].
  destruct s; [reflexivity |].
  rewrite (Z.compare_antisym ex e).
  destruct (ex ?= e) eqn:Hcmp; simpl; try congruence.
  assert (Hopp : Pos.compare_cont Eq m mx = CompOpp (Pos.compare_cont Eq mx m))
    by (rewrite Pos.compare_cont_antisym; reflexivity).
  rewrite Hopp.
  destruct (Pos.compare_cont Eq mx m); simpl; congruence.
Qed.

Lemma scale_1024_finite : imagemanage.scale_1024 = S754_finite false 4503599627370496 (-42).
Proof. reflexivity. Qed.

Lemma scale_1000_finite : imagemanage.scale_1000 = S754_finite false 8796093022208000 (-43).
Proof. reflexivity. Qed.

End FloatFacts.

Section FloatRange.

(** The number of binary digits of a positive integer. *)
Lemma digits2_bounds (p : positive) :
  2 ^ (Z.pos (digits2_pos p) - 1) <= Z.pos p < 2 ^ Z.pos (digits2_pos p).
Proof.
  induction p as [p IH | p IH |]; simpl digits2_pos.
  - rewrite Pos2Z.inj_succ.
    replace (Z.succ (Z.pos (digits2_pos p)) - 1) with (Z.succ (Z.pos (digits2_pos p) - 1)) by lia.
    rewrite !Z.pow_succ_r by lia. lia.
  - rewrite Pos2Z.inj_succ.
    replace (Z.succ (Z.pos (digits2_pos p)) - 1) with (Z.succ (Z.pos (digits2_pos p) - 1)) by lia.
    rewrite !Z.pow_succ_r by lia. lia.
  - simpl. lia.
Qed.

Lemma Zdigits2_unique (m d : Z) :
  0 < d -> 2 ^ (d - 1) <= m < 2 ^ d -> Zdigits2 m = d.
Proof.
  intros Hd Hm.
  assert (Hpow : 0 < 2 ^ (d - 1)) by (apply Z.pow_pos_nonneg; lia).
  destruct m as [| p | p]; try lia.
  simpl. pose proof (digits2_bounds p) as Hp.
  destruct (Z.lt_trichotomy (Z.pos (digits2_pos p)) d) as [Hlt | [Heq | Hgt]]; [| exact Heq |].
  - assert (2 ^ Z.pos (digits2_pos p) <= 2 ^ (d - 1)) by (apply Z.pow_le_mono_r; lia). lia.
  - assert (2 ^ d <= 2 ^ (Z.pos (digits2_pos p) - 1)) by (apply Z.pow_le_mono_r; lia). lia.
Qed.

(** [iter_pos] iterates as many times as its argument says. *)
Lemma iter_pos_nat {T} (f : T -> T) (p : positive) (x : T) :
  SpecFloat.iter_pos f p x = Nat.iter (Pos.to_nat p) f x.
Proof.
  revert x. induction p as [p IH | p IH |]; intros x; simpl SpecFloat.iter_pos.
  - rewrite !IH, Pos2Nat.inj_xI.
    replace (S (2 * Pos.to_nat p)) with (Pos.to_nat p + (Pos.to_nat p + 1))%nat by lia.
    rewrite !Nat.iter_add. reflexivity.
  - rewrite !IH, Pos2Nat.inj_xO.
    replace (2 * Pos.to_nat p)%nat with (Pos.to_nat p + Pos.to_nat p)%nat by lia.
    rewrite Nat.iter_add. reflexivity.
  - reflexivity.
Qed.

(** One step to the right halves the mantissa and keeps the bit that
    falls off as the round bit. *)
Lemma shr_1_m mrs : 0 <= shr_m mrs -> shr_m (shr_1 mrs) = shr_m mrs / 2.
Proof.
  destruct mrs as [m r s]. cbn [shr_m]. intros Hm.
  destruct m as [| [p | p |] | p]; cbn [shr_1 shr_m]; try lia.
  - reflexivity.
  - apply Z.div_unique with (r := 1); lia.
  - apply Z.div_unique with (r := 0); lia.
  - reflexivity.
Qed.

Lemma shr_1_r mrs : 0 <= shr_m mrs -> shr_r (shr_1 mrs) = Z.odd (shr_m mrs).
Proof.
  destruct mrs as [m r s]. simpl. intros Hm.
  destruct m as [| [p | p |] | p]; simpl; try reflexivity; lia.
Qed.

Lemma iter_shr_m (n : nat) mrs :
  0 <= shr_m mrs -> shr_m (Nat.iter n shr_1 mrs) = shr_m mrs / 2 ^ Z.of_nat n.
Proof.
  intros Hm. induction n as [| n IH].
  - simpl. rewrite Z.div_1_r. reflexivity.
  - simpl Nat.iter. rewrite shr_1_m, IH.
    + rewrite Nat2Z.inj_succ, Z.pow_succ_r by lia.
      rewrite Z.div_div by lia. f_equal. lia.
    + rewrite IH. apply Z.div_pos; [exact Hm | apply Z.pow_pos_nonneg; lia].
Qed.

Lemma iter_shr_r (n : nat) mrs :
  0 <= shr_m mrs ->
  shr_r (Nat.iter (S n) shr_1 mrs) = Z.odd (shr_m mrs / 2 ^ Z.of_nat n).
Proof.
  intros Hm. simpl Nat.iter. rewrite shr_1_r.
  - rewrite iter_shr_m by exact Hm. reflexivity.
  - rewrite iter_shr_m by exact Hm. apply Z.div_pos; [exact Hm | apply Z.pow_pos_nonneg; lia].
Qed.

(** Away from the subnormal range a double keeps 53 digits. *)
Lemma fexp_normal (e : Z) : -1021 <= e -> fexp 53 1024 e = e - 53.
Proof. intros He. unfold fexp, emin. lia. Qed.

Lemma shr_fexp_normal (m e : Z) (l : location) :
  -1021 <= Zdigits2 m + e ->
  shr_fexp 53 1024 m e l = shr (shr_record_of_loc m l) e (Zdigits2 m - 53).
Proof.
  intros He. unfold shr_fexp. rewrite fexp_normal by exact He.
  f_equal. lia.
Qed.

(** Rounding an exact 53-bit mantissa changes nothing. *)
Lemma binary_round_aux_exact (s : bool) (mz : positive) (ez : Z) :
  Zdigits2 (Z.pos mz) = 53 -> -1074 <= ez ->
  binary_round_aux 53 1024 s (Z.pos mz) ez loc_Exact =
    if ez <=? 1024 - 53 then S754_finite s mz ez else S754_infinity s.
Proof.
  intros Hd He. unfold binary_round_aux.
  rewrite shr_fexp_normal by lia. rewrite Hd.
  change (shr (shr_record_of_loc (Z.pos mz) loc_Exact) ez (53 - 53))
    with (shr_record_of_loc (Z.pos mz) loc_Exact, ez).
  cbn [shr_m shr_record_of_loc loc_of_shr_record round_nearest_even].
  rewrite shr_fexp_normal by lia. rewrite Hd.
  change (shr (shr_record_of_loc (Z.pos mz) loc_Exact) ez (53 - 53))
    with (shr_record_of_loc (Z.pos mz) loc_Exact, ez).
  reflexivity.
Qed.

Lemma iter_xO (n : nat) (p : positive) :
  Z.pos (Nat.iter n xO p) = Z.pos p * 2 ^ Z.of_nat n.
Proof.
  induction n as [| n IH].
  - simpl. lia.
  - simpl Nat.iter. rewrite Pos2Z.inj_xO, IH, Nat2Z.inj_succ, Z.pow_succ_r by lia. lia.
Qed.

Lemma round_nearest_even_bounds (m : Z) (l : location) :
  m <= round_nearest_even m l <= m + 1.
Proof.
  destruct l as [| []]; simpl; try lia. destruct (Z.even m); lia.
Qed.

Lemma round_nearest_even_down (mrs : shr_record) :
  shr_r mrs = false ->
  round_nearest_even (shr_m mrs) (loc_of_shr_record mrs) = shr_m mrs.
Proof.
  destruct mrs as [m r s]. simpl. intros ->. destruct s; reflexivity.
Qed.

(** An integer below [2 ^ 1024 - 2 ^ 970], the midpoint between the largest
    double and [2 ^ 1024], rounds to a finite double. *)
Lemma binary_round_no_overflow (p : positive) :
  Z.pos p < 2 ^ 1024 - 2 ^ 970 ->
  forall s, binary_round 53 1024 false p 0 <> S754_infinity s.
Proof.
  intros Hp s.
  pose proof (digits2_bounds p) as Hd.
  set (d := Z.pos (digits2_pos p)) in *.
  assert (Hd1 : 1 <= d) by (unfold d; lia).
  assert (Hd2 : d <= 1024).
  { destruct (Z.le_gt_cases d 1024) as [H | H]; [exact H |].
    assert (2 ^ 1024 <= 2 ^ (d - 1)) by (apply Z.pow_le_mono_r; lia).
    assert (0 < 2 ^ 970) by (apply Z.pow_pos_nonneg; lia). lia. }
  unfold binary_round. fold d. rewrite fexp_normal by lia.
  unfold shl_align.
  destruct (d + 0 - 53 - 0) as [| k | k] eqn:Hk.
  - (* 53 digits: nothing to shift *)
    rewrite binary_round_aux_exact; [| unfold Zdigits2; fold d; lia | lia].
    discriminate.
  - (* more than 53 digits: the low bits are rounded away *)
    assert (Hkd : Z.pos k = d - 53) by lia.
    unfold binary_round_aux.
    rewrite shr_fexp_normal by (unfold Zdigits2; fold d; lia).
    unfold Zdigits2 at 1. fold d. rewrite <- Hkd.
    unfold shr at 1. rewrite iter_pos_nat.
    set (mrs := Nat.iter (Pos.to_nat k) shr_1 (shr_record_of_loc (Z.pos p) loc_Exact)).
    assert (Hm1 : shr_m mrs = Z.pos p / 2 ^ Z.pos k).
    { unfold mrs. rewrite iter_shr_m by (simpl; lia).
      rewrite positive_nat_Z. reflexivity. }
    assert (Hpow : 0 < 2 ^ Z.pos k) by (apply Z.pow_pos_nonneg; lia).
    assert (Hsplit : 2 ^ d = 2 ^ 53 * 2 ^ Z.pos k)
      by (rewrite <- Z.pow_add_r by lia; f_equal; lia).
    assert (Hsplit' : 2 ^ (d - 1) = 2 ^ 52 * 2 ^ Z.pos k)
      by (rewrite <- Z.pow_add_r by lia; f_equal; lia).
    assert (Hlo : 2 ^ 52 <= shr_m mrs).
    { rewrite Hm1. apply Z.div_le_lower_bound; [exact Hpow |]. lia. }
    assert (Hhi : shr_m mrs < 2 ^ 53).
    { rewrite Hm1. apply Z.div_lt_upper_bound; [exact Hpow |]. lia. }
    set (m2 := round_nearest_even (shr_m mrs) (loc_of_shr_record mrs)).
    pose proof (round_nearest_even_bounds (shr_m mrs) (loc_of_shr_record mrs)) as Hm2.
    fold m2 in Hm2.
    destruct (Z.lt_ge_cases m2 (2 ^ 53)) as [Hsmall | Hcarry].
    + (* no carry *)
      assert (Hdig : Zdigits2 m2 = 53) by (apply Zdigits2_unique; lia).
      rewrite shr_fexp_normal by lia. rewrite Hdig.
      change (shr (shr_record_of_loc m2 loc_Exact) (0 + Z.pos k) (53 - 53))
        with (shr_record_of_loc m2 loc_Exact, 0 + Z.pos k).
      cbn [shr_m shr_record_of_loc].
      destruct m2 as [| q | q]; try lia.
      destruct (Z.leb_spec (0 + Z.pos k) (1024 - 53)); [discriminate | lia].
    + (* the rounding carried into a 54th bit *)
      assert (Hm2eq : m2 = 2 ^ 53) by lia.
      assert (Hdig : Zdigits2 m2 = 54) by (apply Zdigits2_unique; lia).
      rewrite shr_fexp_normal by lia. rewrite Hdig.
      change (54 - 53) with 1. unfold shr. simpl SpecFloat.iter_pos.
      rewrite Hm2eq.
      change (shr_m (shr_1 (shr_record_of_loc (2 ^ 53) loc_Exact))) with (2 ^ 52).
      change (2 ^ 52) with (Z.pos (Z.to_pos (2 ^ 52))). cbv iota.
      destruct (Z.leb_spec (0 + Z.pos k + 1) (1024 - 53)) as [_ | Hbig]; [discriminate |].
      exfalso.
      (* only when there are 1024 digits, and then the value is too large *)
      assert (Hd1024 : d = 1024) by lia.
      assert (Hk971 : Z.pos k = 971) by lia.
      assert (Hup : shr_r mrs = true).
      { destruct (shr_r mrs) eqn:Hr; [reflexivity |].
        unfold m2 in Hm2eq. rewrite round_nearest_even_down in Hm2eq by exact Hr. lia. }
      assert (Hword : shr_m mrs = 2 ^ 53 - 1) by lia.
      destruct (Pos.to_nat k) as [| n] eqn:Hn; [lia |].
      unfold mrs in Hup. rewrite iter_shr_r in Hup by (simpl; lia).
      cbn [shr_m shr_record_of_loc] in Hup.
      assert (Hn970 : Z.of_nat n = 970) by lia.
      rewrite Hn970 in Hup.
      rewrite Hm1, Hk971 in Hword.
      assert (Hq : Z.pos p / 2 ^ 970 = 2 ^ 54 - 2).
      { assert (H971 : (2 : Z) ^ 971 = 2 * 2 ^ 970)
          by (change 971 with (Z.succ 970); apply Z.pow_succ_r; lia).
        assert (H1024 : (2 : Z) ^ 1024 = 2 ^ 54 * 2 ^ 970)
          by (rewrite <- Z.pow_add_r by lia; reflexivity).
        assert (Hp970 : 0 < 2 ^ 970) by (apply Z.pow_pos_nonneg; lia).
        pose proof (Z.mul_div_le (Z.pos p) (2 ^ 971) ltac:(lia)) as Hle.
        rewrite Hword in Hle.
        assert (Hge : 2 ^ 54 - 2 <= Z.pos p / 2 ^ 970).
        { apply Z.div_le_lower_bound; [exact Hp970 |].
          rewrite H971 in Hle. change (2 ^ 53) with (2 * 2 ^ 52 : Z) in Hle.
          change (2 ^ 54) with (4 * 2 ^ 52 : Z). lia. }
        assert (Hlt : Z.pos p / 2 ^ 970 < 2 ^ 54 - 1).
        { apply Z.div_lt_upper_bound; [exact Hp970 |]. lia. }
        lia. }
      rewrite Hq in Hup. discriminate Hup.
  - (* fewer than 53 digits: the mantissa is shifted up *)
    assert (Hkd : Z.pos k = 53 - d) by lia.
    rewrite Pos2Nat.inj_iter.
    change (nat_rect (fun _ => positive) p (fun _ => xO) (Pos.to_nat k))
      with (Nat.iter (Pos.to_nat k) xO p).
    rewrite binary_round_aux_exact; [| | lia].
    + destruct (Z.leb_spec (d + 0 - 53) (1024 - 53)); [discriminate | lia].
    + apply Zdigits2_unique; [lia |].
      rewrite iter_xO, positive_nat_Z.
      assert (Hpow : 0 < 2 ^ Z.pos k) by (apply Z.pow_pos_nonneg; lia).
      assert (Hsplit : 2 ^ 53 = 2 ^ d * 2 ^ Z.pos k)
        by (rewrite <- Z.pow_add_r by lia; f_equal; lia).
      assert (Hsplit' : 2 ^ (53 - 1) = 2 ^ (d - 1) * 2 ^ Z.pos k)
        by (rewrite <- Z.pow_add_r by lia; f_equal; lia).
      rewrite Hsplit, Hsplit'. nia.
Qed.

Lemma round_nearest_even_up (mrs : shr_record) :
  shr_r mrs = true -> Z.odd (shr_m mrs) = true ->
  round_nearest_even (shr_m mrs) (loc_of_shr_record mrs) = shr_m mrs + 1.
Proof.
  destruct mrs as [m r s]. simpl. intros -> Hodd.
  destruct s; simpl; [reflexivity |].
  rewrite <- Z.negb_odd, Hodd. reflexivity.
Qed.

(** From that midpoint on, an integer rounds to infinity. *)
Lemma binary_round_overflow (p : positive) :
  2 ^ 1024 - 2 ^ 970 <= Z.pos p ->
  binary_round 53 1024 false p 0 = S754_infinity false.
Proof.
  intros Hp.
  pose proof (digits2_bounds p) as Hd.
  set (d := Z.pos (digits2_pos p)) in *.
  assert (H1024 : (2 : Z) ^ 1024 = 2 ^ 54 * 2 ^ 970)
    by (rewrite <- Z.pow_add_r by lia; reflexivity).
  assert (H971 : (2 : Z) ^ 971 = 2 * 2 ^ 970)
    by (change 971 with (Z.succ 970); apply Z.pow_succ_r; lia).
  assert (Hp970 : 0 < 2 ^ 970) by (apply Z.pow_pos_nonneg; lia).
  assert (Hd2 : 1024 <= d).
  { destruct (Z.le_gt_cases 1024 d) as [H | H]; [exact H |].
    assert (2 ^ d <= 2 ^ 1023) by (apply Z.pow_le_mono_r; lia).
    assert (H1023 : (2 : Z) ^ 1023 = 2 ^ 53 * 2 ^ 970)
      by (rewrite <- Z.pow_add_r by lia; reflexivity).
    change (2 ^ 54) with (2 * 2 ^ 53 : Z) in H1024.
    assert (0 < 2 ^ 53) by reflexivity. nia. }
  unfold binary_round. fold d. rewrite fexp_normal by lia.
  unfold shl_align.
  destruct (d + 0 - 53 - 0) as [| k | k] eqn:Hk; try lia.
  assert (Hkd : Z.pos k = d - 53) by lia.
  unfold binary_round_aux.
  rewrite shr_fexp_normal by (unfold Zdigits2; fold d; lia).
  unfold Zdigits2 at 1. fold d. rewrite <- Hkd.
  unfold shr at 1. rewrite iter_pos_nat.
  set (mrs := Nat.iter (Pos.to_nat k) shr_1 (shr_record_of_loc (Z.pos p) loc_Exact)).
  assert (Hm1 : shr_m mrs = Z.pos p / 2 ^ Z.pos k).
  { unfold mrs. rewrite iter_shr_m by (simpl; lia).
    rewrite positive_nat_Z. reflexivity. }
  assert (Hpow : 0 < 2 ^ Z.pos k) by (apply Z.pow_pos_nonneg; lia).
  assert (Hsplit : 2 ^ d = 2 ^ 53 * 2 ^ Z.pos k)
    by (rewrite <- Z.pow_add_r by lia; f_equal; lia).
  assert (Hsplit' : 2 ^ (d - 1) = 2 ^ 52 * 2 ^ Z.pos k)
    by (rewrite <- Z.pow_add_r by lia; f_equal; lia).
  assert (Hlo : 2 ^ 52 <= shr_m mrs).
  { rewrite Hm1. apply Z.div_le_lower_bound; [exact Hpow |]. lia. }
  assert (Hhi : shr_m mrs < 2 ^ 53).
  { rewrite Hm1. apply Z.div_lt_upper_bound; [exact Hpow |]. lia. }
  set (m2 := round_nearest_even (shr_m mrs) (loc_of_shr_record mrs)).
  pose proof (round_nearest_even_bounds (shr_m mrs) (loc_of_shr_record mrs)) as Hm2.
  fold m2 in Hm2.
  destruct (Z.lt_ge_cases m2 (2 ^ 53)) as [Hsmall | Hcarry].
  - (* no carry: only with more than 1024 digits *)
    assert (Hdig : Zdigits2 m2 = 53) by (apply Zdigits2_unique; lia).
    rewrite shr_fexp_normal by lia. rewrite Hdig.
    change (shr (shr_record_of_loc m2 loc_Exact) (0 + Z.pos k) (53 - 53))
      with (shr_record_of_loc m2 loc_Exact, 0 + Z.pos k).
    cbn [shr_m shr_record_of_loc].
    destruct m2 as [| q | q] eqn:Hm2q; try lia.
    destruct (Z.leb_spec (0 + Z.pos k) (1024 - 53)) as [Hfits | _]; [| reflexivity].
    exfalso.
    assert (Hk971 : Z.pos k = 971) by lia.
    assert (Hword : shr_m mrs = 2 ^ 53 - 1).
    { rewrite Hm1, Hk971.
      assert (2 ^ 53 - 1 <= Z.pos p / 2 ^ 971).
      { apply Z.div_le_lower_bound; [lia |].
        rewrite H971. change (2 ^ 53) with (2 * 2 ^ 52 : Z).
        change (2 ^ 54) with (4 * 2 ^ 52 : Z) in H1024. lia. }
      rewrite Hm1, Hk971 in Hhi. lia. }
    assert (Hup : shr_r mrs = true).
    { destruct (Pos.to_nat k) as [| n] eqn:Hn; [lia |].
      unfold mrs. rewrite iter_shr_r by (simpl; lia).
      cbn [shr_m shr_record_of_loc].
      assert (Hn970 : Z.of_nat n = 970) by lia.
      rewrite Hn970.
      assert (Hq : Z.pos p / 2 ^ 970 = 2 ^ 54 - 1).
      { assert (Hd1024 : d = 1024) by lia. rewrite Hd1024 in Hd.
        assert (Hge : 2 ^ 54 - 1 <= Z.pos p / 2 ^ 970)
          by (apply Z.div_le_lower_bound; [exact Hp970 | lia]).
        assert (Hlt : Z.pos p / 2 ^ 970 < 2 ^ 54)
          by (apply Z.div_lt_upper_bound; [exact Hp970 | lia]).
        lia. }
      rewrite Hq. reflexivity. }
    assert (Hm2up : m2 = shr_m mrs + 1).
    { unfold m2. apply round_nearest_even_up; [exact Hup |].
      rewrite Hword. reflexivity. }
    lia.
  - (* the rounding carried: the exponent grows by one *)
    assert (Hm2eq : m2 = 2 ^ 53) by lia.
    assert (Hdig : Zdigits2 m2 = 54) by (apply Zdigits2_unique; lia).
    rewrite shr_fexp_normal by lia. rewrite Hdig.
    change (54 - 53) with 1. unfold shr. simpl SpecFloat.iter_pos.
    rewrite Hm2eq.
    change (shr_m (shr_1 (shr_record_of_loc (2 ^ 53) loc_Exact))) with (2 ^ 52).
    change (2 ^ 52) with (Z.pos (Z.to_pos (2 ^ 52))). cbv iota.
    destruct (Z.leb_spec (0 + Z.pos k + 1) (1024 - 53)) as [Hfits | _]; [lia | reflexivity].
Qed.

(** [float(n)] succeeds exactly below the midpoint. *)
Lemma of_int_in_range (n : Z) :
  0 <= n < 2 ^ 1024 - 2 ^ 970 -> exists v, pyfloat.of_int n = Ok v.
Proof.
  intros Hn. unfold pyfloat.of_int, pyfloat.prec, pyfloat.emax, binary_normalize.
  destruct n as [| p | p]; [eexists; reflexivity | | lia].
  pose proof (binary_round_no_overflow p ltac:(lia)) as Hfinite.
  destruct (binary_round 53 1024 false p 0) as [s | s | | s m e];
    try (eexists; reflexivity).
  exfalso. exact (Hfinite s eq_refl).
Qed.

Lemma of_int_overflow (n : Z) :
  2 ^ 1024 - 2 ^ 970 <= n ->
  pyfloat.of_int n = Raise (OverflowError "int too large to convert to float").
Proof.
  intros Hn. unfold pyfloat.of_int, pyfloat.prec, pyfloat.emax, binary_normalize.
  assert (H1024 : (2 : Z) ^ 1024 = 2 ^ 54 * 2 ^ 970)
    by (rewrite <- Z.pow_add_r by lia; reflexivity).
  assert (Hp970 : 0 < 2 ^ 970) by (apply Z.pow_pos_nonneg; lia).
  assert (Hpos : 0 < n) by (change (2 ^ 54) with 18014398509481984 in H1024; lia).
  destruct n as [| p | p]; try lia.
  rewrite binary_round_overflow by exact Hn. reflexivity.
Qed.

End FloatRange.

Lemma string_app_nil_r (s : string) : s +:+ "" = s.
Proof.
  induction s as [| c s IH]; [reflexivity |].
  change (String c (s +:+ "") = String c s). f_equal. exact IH.
Qed.

Lemma scale_loop_S (n : nat) (v : pyfloat.float) (exponent : Z) (scale : pyfloat.float) :
  imagemanage.scale_loop (S n) v exponent scale =
    if pyfloat.ge v scale && (exponent + 1 <? 6) then
      match pyfloat.truediv v scale with
      | Ok v' => imagemanage.scale_loop n v' (exponent + 1) scale
      | Raise e => Raise e
      end
    else Ok (v, exponent).
Proof. reflexivity. Qed.

(** The loop of [format_size] for a positive finite [scale]: started at an
    exponent in range it leaves through its condition, after dividing [k]
    times; every value before the last was at or above the scale, and the
    last one is not unless the largest exponent was reached. *)
Lemma scale_loop_spec (m : positive) (e : Z) :
  let scale := S754_finite false m e in
  let div := fun x => SFdiv pyfloat.prec pyfloat.emax x scale in
  forall (n : nat) (v : pyfloat.float) (exponent : Z),
    0 <= exponent <= 5 ->
    5 - exponent <= Z.of_nat n ->
    exists k : nat,
      imagemanage.scale_loop n v exponent scale =
        Ok (Nat.iter k div v, exponent + Z.of_nat k) /\
      exponent + Z.of_nat k <= 5 /\
      (forall j, (j < k)%nat -> pyfloat.ge (Nat.iter j div v) scale = true) /\
      (exponent + Z.of_nat k = 5 \/ pyfloat.ge (Nat.iter k div v) scale = false).
Proof.
  intros scale div n. induction n as [| n IH]; intros v exponent Hrange Hfuel.
  - exists 0%nat. change (Z.of_nat 0) with 0. rewrite Z.add_0_r.
    split; [reflexivity |]. split; [lia |]. split; [intros j Hj; lia | left; lia].
  - rewrite scale_loop_S.
    destruct (pyfloat.ge v scale) eqn:Hge; simpl andb.
    + destruct (Z.ltb_spec (exponent + 1) 6) as [Hlt | Hmax].
      * destruct (IH (div v) (exponent + 1) ltac:(lia) ltac:(lia))
          as (k & Hrun & Hle & Hbefore & Hlast).
        exists (S k). rewrite !Nat.iter_succ_r.
        change (pyfloat.truediv v scale) with (Ok (div v)). cbv iota.
        rewrite Hrun.
        replace (exponent + 1 + Z.of_nat k) with (exponent + Z.of_nat (S k)) in * by lia.
        split; [reflexivity |]. split; [lia |]. split; [| exact Hlast].
        intros [| j] Hj; [exact Hge |].
        rewrite Nat.iter_succ_r. apply Hbefore. lia.
      * exists 0%nat. change (Z.of_nat 0) with 0. rewrite Z.add_0_r.
        split; [reflexivity |]. split; [lia |]. split; [intros j Hj; lia | left; lia].
    + exists 0%nat. change (Z.of_nat 0) with 0. rewrite Z.add_0_r.
      split; [reflexivity |]. split; [lia |].
      split; [intros j Hj; lia | right; exact Hge].
Qed.

(** The values the loop goes through are numbers. *)
Lemma scaled_not_nan (m : positive) (e : Z) (v0 : pyfloat.float) (k : nat) :
  v0 <> S754_nan ->
  Nat.iter k (fun x => SFdiv pyfloat.prec pyfloat.emax x (S754_finite false m e)) v0
    <> S754_nan.
Proof.
  intros Hv0. induction k as [| k IH]; [exact Hv0 |].
  simpl. apply SFdiv_not_nan. exact IH.
Qed.

Example format_size_1024 :
  imagemanage.format_size 1024 (Some 2) 2 imagemanage.default_format = Ok "1.0 KB".
Proof. vm_compute. reflexivity. Qed.

Example format_size_1000_base_10 :
  imagemanage.format_size 1000 (Some 2) 10 imagemanage.default_format = Ok "1.0 KiB".
Proof. vm_compute. reflexivity. Qed.

Example format_size_1_places_0 :
  imagemanage.format_size 1 (Some 0) 2 imagemanage.default_format = Ok "1 B".
Proof. vm_compute. reflexivity. Qed.

(** The largest unit takes what is left unscaled, as the test suite has
    it. *)
Example format_size_largest_unit :
  imagemanage.format_size (1024 ^ 6) (Some 2) 2 imagemanage.default_format
    = Ok "1024.0 PB".
Proof. vm_compute. reflexivity. Qed.

Lemma format_default (num : imagemanage.number) (unit_ : string) :
  imagemanage.format_ imagemanage.default_format num unit_ =
    Ok (imagemanage.str num +:+ " " +:+ unit_).
Proof.
  unfold imagemanage.default_format, imagemanage.format_.
  rewrite (bool_decide_eq_true_2 ("num" = "num")) by reflexivity.
  rewrite (bool_decide_eq_false_2 ("suffix" = "num")) by discriminate.
  rewrite (bool_decide_eq_true_2 ("suffix" = "suffix")) by reflexivity.
  unfold mbind, result_bind.
  rewrite string_app_nil_r. reflexivity.
Qed.

(** [format_size] for a byte count that converts to a float, in base 2
    (with the scale [1024.0]) or base 10 (with [1000.0]). *)
Lemma format_size_spec (num_bytes : Z) (places : option Z) (base : Z)
    (v0 : pyfloat.float) (m : positive) (e : Z) :
  base = 2 \/ base = 10 ->
  pyfloat.of_int num_bytes = Ok v0 ->
  (if base =? 10 then imagemanage.scale_1000 else imagemanage.scale_1024)
    = S754_finite false m e ->
  let scale := S754_finite false m e in
  let suffix := if (base =? 10) && (1000 <=? num_bytes) then "iB" else "B" in
  let scaled := fun k : nat =>
    Nat.iter k (fun x => SFdiv pyfloat.prec pyfloat.emax x scale) v0 in
  exists (exponent : nat) (prefix : string),
    imagemanage.prefixes !! exponent = Some prefix /\
    (forall k, (k < exponent)%nat -> pyfloat.ge (scaled k) scale = true) /\
    (exponent = 5%nat \/ SFltb (scaled exponent) scale = true) /\
    imagemanage.format_size num_bytes places base imagemanage.default_format =
      (value ← match places with
               | Some p => pyfloat.round (scaled exponent) p
               | None => Ok (scaled exponent)
               end;
       num ← (if bool_decide (places = Some 0)
              then z ← pyfloat.to_int value; Ok (imagemanage.NInt z)
              else Ok (imagemanage.NFloat value));
       Ok (imagemanage.str num +:+ " " +:+ prefix +:+ suffix)).
Proof.
  intros Hbase Hof Hscale scale suffix scaled.
  destruct (scale_loop_spec m e (length imagemanage.prefixes) v0 0
              ltac:(lia) ltac:(simpl; lia))
    as (k & Hrun & Hle & Hbefore & Hlast).
  fold scale in Hrun, Hbefore, Hlast. fold scaled in Hrun, Hbefore, Hlast.
  destruct (lookup_lt_is_Some_2 imagemanage.prefixes k ltac:(simpl; lia)) as [prefix Hprefix].
  exists k, prefix.
  split; [exact Hprefix |]. split; [exact Hbefore |]. split.
  - destruct Hlast as [Hmax | Hlow]; [left; lia | right].
    apply not_ge_is_lt; [| exact Hlow].
    apply scaled_not_nan. exact (of_int_not_nan _ _ Hof).
  - unfold imagemanage.format_size.
    assert (Hassert : negb ((base =? 2) || (base =? 10)) = false)
      by (destruct Hbase as [-> | ->]; reflexivity).
    rewrite Hassert.
    assert (Hpair :
      (if base =? 10
       then (imagemanage.scale_1000, if 1000 <=? num_bytes then "iB" else "B")
       else (imagemanage.scale_1024, "B")) = (scale, suffix)).
    { unfold suffix, scale. rewrite <- Hscale. destruct (base =? 10); reflexivity. }
    rewrite Hpair, Hof.
    unfold mbind, result_bind, scaled.
    rewrite Hrun.
    change (0 + Z.of_nat k) with (Z.of_nat k).
    rewrite (getitem_lookup _ _ _ Hprefix).
    set (last := Nat.iter k (fun x => SFdiv pyfloat.prec pyfloat.emax x scale) v0).
    assert (Hrest : forall value : pyfloat.float,
      match (if bool_decide (places = Some 0)
             then match pyfloat.to_int value with
                  | Ok z => Ok (imagemanage.NInt z)
                  | Raise err => Raise err
                  end
             else Ok (imagemanage.NFloat value)) with
      | Ok num => imagemanage.format_ imagemanage.default_format num (prefix +:+ suffix)
      | Raise err => Raise err
      end =
      match (if bool_decide (places = Some 0)
             then match pyfloat.to_int value with
                  | Ok z => Ok (imagemanage.NInt z)
                  | Raise err => Raise err
                  end
             else Ok (imagemanage.NFloat value)) with
      | Ok num => Ok (imagemanage.str num +:+ " " +:+ prefix +:+ suffix)
      | Raise err => Raise err
      end).
    { intros value.
      destruct (bool_decide (places = Some 0)); [| apply format_default].
      destruct (pyfloat.to_int value) as [z | err]; [| reflexivity].
      apply format_default. }
    destruct places as [p |]; [| apply Hrest].
    destruct (pyfloat.round last p) as [value | err]; [apply Hrest | reflexivity].
Qed.

(** C9, as the code has it: for a non-negative byte count below
    [2 ^ 1024 - 2 ^ 970], which is where [float] stops converting integers,
    and base 2 or 10, [format_size] divides by the scale (1024.0 or
    1000.0) until the value is below it or the largest unit is reached:
    every smaller unit had a scaled value at or above the scale, and the
    chosen unit has one below it unless it is the largest, which takes
    whatever is left.  The result is that value, rounded, and the unit.
    From [2 ^ 1024 - 2 ^ 970] on, [format_size] raises [OverflowError].  In
    particular [format_size(1024, base=2)] is ["1.0 KB"],
    [format_size(1000, base=10)] is ["1.0 KiB"] and
    [format_size(1, places=0)] is ["1 B"]. *)
Theorem format_size_picks_unit :
  (forall (num_bytes : Z) (places : option Z) (base : Z),
     0 <= num_bytes < 2 ^ 1024 - 2 ^ 970 ->
     base = 2 \/ base = 10 ->
     exists v0 : pyfloat.float,
       pyfloat.of_int num_bytes = Ok v0 /\
       let scale := if base =? 10 then imagemanage.scale_1000 else imagemanage.scale_1024 in
       let suffix := if (base =? 10) && (1000 <=? num_bytes) then "iB" else "B" in
       let scaled := fun k : nat =>
         Nat.iter k (fun x => SFdiv pyfloat.prec pyfloat.emax x scale) v0 in
       exists (exponent : nat) (prefix : string),
         imagemanage.prefixes !! exponent = Some prefix /\
         (forall k, (k < exponent)%nat -> pyfloat.ge (scaled k) scale = true) /\
         (exponent = 5%nat \/ SFltb (scaled exponent) scale = true) /\
         imagemanage.format_size num_bytes places base imagemanage.default_format =
           (value ← match places with
                    | Some p => pyfloat.round (scaled exponent) p
                    | None => Ok (scaled exponent)
                    end;
            num ← (if bool_decide (places = Some 0)
                   then z ← pyfloat.to_int value; Ok (imagemanage.NInt z)
                   else Ok (imagemanage.NFloat value));
            Ok (imagemanage.str num +:+ " " +:+ prefix +:+ suffix))) /\
  (forall (num_bytes : Z) (places : option Z) (base : Z) (format : list imagemanage.piece),
     2 ^ 1024 - 2 ^ 970 <= num_bytes ->
     base = 2 \/ base = 10 ->
     imagemanage.format_size num_bytes places base format =
       Raise (OverflowError "int too large to convert to float")) /\
  imagemanage.format_size 1024 (Some 2) 2 imagemanage.default_format = Ok "1.0 KB" /\
  imagemanage.format_size 1000 (Some 2) 10 imagemanage.default_format = Ok "1.0 KiB" /\
  imagemanage.format_size 1 (Some 0) 2 imagemanage.default_format = Ok "1 B".
Proof.
  split; [| split;
    [| exact (conj format_size_1024 (conj format_size_1000_base_10 format_size_1_places_0))]].
  - intros num_bytes places base Hrange Hbase.
    destruct (of_int_in_range num_bytes Hrange) as [v0 Hof].
    exists v0. split; [exact Hof |].
    destruct Hbase as [-> | ->].
    + exact (format_size_spec num_bytes places 2 v0 _ _ (or_introl eq_refl) Hof
               scale_1024_finite).
    + exact (format_size_spec num_bytes places 10 v0 _ _ (or_intror eq_refl) Hof
               scale_1000_finite).
  - intros num_bytes places base format Hlarge Hbase.
    unfold imagemanage.format_size.
    assert (Hassert : negb ((base =? 2) || (base =? 10)) = false)
      by (destruct Hbase as [-> | ->]; reflexivity).
    rewrite Hassert.
    destruct (if base =? 10
              then (imagemanage.scale_1000, if 1000 <=? num_bytes then "iB" else "B")
              else (imagemanage.scale_1024, "B")) as [scale suffix].
    rewrite (of_int_overflow num_bytes Hlarge). reflexivity.
Qed.

Lemma format_size_picks_unit_witness :
  let scaled := fun (v0 : pyfloat.float) (k : nat) =>
    Nat.iter k (fun x => SFdiv pyfloat.prec pyfloat.emax x imagemanage.scale_1024) v0 in
  0 <= 1536 < 2 ^ 1024 - 2 ^ 970 /\
  (2 = 2 \/ 2 = 10) /\
  exists v0 : pyfloat.float,
    pyfloat.of_int 1536 = Ok v0 /\
    exists (exponent : nat) (prefix : string),
      imagemanage.prefixes !! exponent = Some prefix /\
      (forall k, (k < exponent)%nat ->
         pyfloat.ge (scaled v0 k) imagemanage.scale_1024 = true) /\
      (exponent = 5%nat \/ SFltb (scaled v0 exponent) imagemanage.scale_1024 = true) /\
      imagemanage.format_size 1536 (Some 2) 2 imagemanage.default_format =
        (value ← pyfloat.round (scaled v0 exponent) 2;
         num ← Ok (imagemanage.NFloat value);
         Ok (imagemanage.str num +:+ " " +:+ prefix +:+ "B")).
Proof.
  intros scaled.
  assert (Hrange : 0 <= 1536 < 2 ^ 1024 - 2 ^ 970) by (split; [lia | reflexivity]).
  split; [exact Hrange |]. split; [left; reflexivity |].
  exact (proj1 format_size_picks_unit 1536 (Some 2) 2 Hrange (or_introl eq_refl)).
Defined.

(** The same byte count, evaluated. *)
Example format_size_1536 :
  imagemanage.format_size 1536 (Some 2) 2 imagemanage.default_format = Ok "1.5 KB".
Proof. vm_compute. reflexivity. Qed.

(** C9, counterexample to "for every non-negative byte count": an integer
    beyond the largest double has no float, and [format_size] raises
    [OverflowError] before a unit is picked, in either base. *)
Lemma format_size_overflows :
  0 <= 2 ^ 1024 /\
  imagemanage.format_size (2 ^ 1024) (Some 2) 2 imagemanage.default_format =
    Raise (OverflowError "int too large to convert to float") /\
  imagemanage.format_size (2 ^ 1024) (Some 2) 10 imagemanage.default_format =
    Raise (OverflowError "int too large to convert to float").
Proof.
  split; [apply Z.pow_nonneg; lia |].
  split; vm_compute; reflexivity.
Qed.

(** * Further properties *)

(** ** Handles and overlay texts *)

Lemma next_n_spec (n : nat) (self : handle.Handles) :
  next_n n self =
    (Ok (seqZ (handle._id self + 1) (Z.of_nat n)),
     handle.mkHandles (handle._id self + Z.of_nat n)).
Proof.
  revert self. induction n as [| n IH]; intros [id].
  - simpl. unfold mret, M_ret, ret. rewrite Z.add_0_r. reflexivity.
  - change (next_n (S n)) with
      (h ← handle.next; hs ← next_n n; mret (M := M handle.Handles) (h :: hs)).
    unfold mbind, M_bind, bind, handle.next. simpl.
    rewrite IH. simpl. unfold mret, M_ret, ret.
    rewrite (seqZ_cons (id + 1) (Z.of_nat (S n))) by lia.
    replace (Z.pred (Z.of_nat (S n))) with (Z.of_nat n) by lia.
    replace (id + Z.of_nat (S n)) with (id + 1 + Z.of_nat n) by lia.
    reflexivity.
Qed.

(** X1: A [Handles] object never gives out a handle twice: from a counter at
    [k], [n] calls in a row return [k + 1], ..., [k + n], which are
    pairwise distinct and all above every handle given out before, and
    leave the counter at [k + n]. *)
Theorem handles_next_never_repeats (n : nat) (self : handle.Handles) :
  let r := next_n n self in
  r.1 = Ok (seqZ (handle._id self + 1) (Z.of_nat n)) /\
  handle._id r.2 = handle._id self + Z.of_nat n /\
  (exists handles,
     r.1 = Ok handles /\ NoDup handles /\
     Forall (fun h => handle._id self < h <= handle._id r.2) handles).
Proof.
  intros r. unfold r. rewrite next_n_spec. simpl.
  split; [reflexivity |]. split; [reflexivity |].
  eexists. split; [reflexivity |]. split; [apply NoDup_seqZ |].
  apply Forall_forall. intros h Hh. apply elem_of_seqZ in Hh. lia.
Qed.

Lemma add_texts_spec {TextData} (texts : list (Z * Z * string)) (lg : list LogRecord)
    (w : ImageDrawWidget.Widget TextData) :
  add_texts texts (lg, w) =
    (Ok (seqZ (handle._id (ImageDrawWidget._handle_provider TextData w) + 1)
           (Z.of_nat (length texts))),
     (lg,
      ImageDrawWidget.mkWidget TextData
        (handle.mkHandles
           (handle._id (ImageDrawWidget._handle_provider TextData w) +
            Z.of_nat (length texts)))
        (ImageDrawWidget._text_objects TextData w))).
Proof.
  revert w. induction texts as [| [pos text] rest IH]; intros [[id] objs].
  - simpl. unfold mret, M_ret, ret. rewrite Z.add_0_r. reflexivity.
  - change (add_texts ((pos, text) :: rest)) with
      (h ← ImageDrawWidget.add_text TextData pos text [];
       hs ← add_texts rest;
       mret (M := M (list LogRecord * ImageDrawWidget.Widget TextData)) (h :: hs)).
    unfold mbind, M_bind, bind, ImageDrawWidget.add_text, handle.next. simpl.
    rewrite IH. simpl. unfold mret, M_ret, ret.
    rewrite (seqZ_cons (id + 1) (Z.of_nat (S (length rest)))) by lia.
    replace (Z.pred (Z.of_nat (S (length rest)))) with (Z.of_nat (length rest)) by lia.
    replace (id + Z.of_nat (S (length rest))) with (id + 1 + Z.of_nat (length rest)) by lia.
    reflexivity.
Qed.

(** X2: [add_text] hands out handles and stores nothing under them: on a new
    widget, after any number of texts were added the handles returned are
    [1], ..., [n], the log is as before, and no handle, the returned ones
    included, is a text: [is_text] is false and [get_text] returns [None]
    after a warning. *)
Theorem add_text_registers_nothing {TextData} (texts : list (Z * Z * string))
    (lg : list LogRecord) (handle : Z) :
  let r := add_texts texts (lg, ImageDrawWidget.__init__ TextData) in
  r.1 = Ok (seqZ 1 (Z.of_nat (length texts))) /\
  r.2.1 = lg /\
  (ImageDrawWidget.is_text TextData handle r.2).1 = Ok false /\
  ImageDrawWidget.get_text TextData handle r.2 =
    (Ok None,
     (lg ++ [mkLog WARNING "get_text() failed; %r is not a valid handle"
               [LVal (PInt handle)]],
      r.2.2)).
Proof.
  intros r. unfold r. rewrite add_texts_spec. simpl.
  split; [reflexivity |]. split; [reflexivity |].
  unfold ImageDrawWidget.get_text, ImageDrawWidget.is_text, bind. simpl.
  rewrite lookup_empty.
  rewrite bool_decide_eq_false_2 by (intros [x Hx]; discriminate Hx).
  split; reflexivity.
Qed.

(** ** Escape, the input modes and the keys *)

(** Membership in a list that is written out. *)
Ltac in_list := repeat first [apply list_elem_of_here | apply list_elem_of_further].

Lemma key_on_escape_run (w : World) :
  imagemanage._key_on_escape [] [] w =
    (Ok tt,
     mkWorld (logs w)
       (if hasFocus (textbox (window w)) || isVisible (textbox (window w))
        then set_textbox (mkLineEdit false false (text (textbox (window w))))
               (set_mode MODE_NONE (window w))
        else set_closed (set_mode MODE_NONE (window w)))).
Proof.
  destruct w as [lg [[vis foc txt] imgs cnt img pm idx md adv outp acts cl scr]].
  unfold imagemanage._key_on_escape, imagemanage.method0, imagemanage._hide_textbox,
    imagemanage.close.
  unfold_monad. destruct vis, foc; reflexivity.
Qed.

(** X3: Escape never takes both steps at once: it always returns and resets
    the mode; while the input box is visible or focused it hides the box,
    keeps its text and leaves the window open; only with the box hidden
    and unfocused it closes the window, and then the box is untouched.
    Nothing is logged. *)
Theorem escape_hides_before_it_closes (w : World) :
  let box := textbox (window w) in
  let r := imagemanage._key_on_escape [] [] w in
  r.1 = Ok tt /\
  logs r.2 = logs w /\
  _mode (window r.2) = MODE_NONE /\
  text (textbox (window r.2)) = text box /\
  isVisible (textbox (window r.2)) = false /\
  hasFocus (textbox (window r.2)) = false /\
  closed (window r.2) =
    (if hasFocus box || isVisible box then closed (window w) else true).
Proof.
  intros box r. unfold r, box. rewrite key_on_escape_run.
  destruct w as [lg [[vis foc txt] imgs cnt img pm idx md adv outp acts cl scr]].
  simpl. destruct foc, vis; simpl; repeat split.
Qed.

(** X4: Two presses of Escape close the window from every state: the first
    leaves the input box hidden and unfocused, so the second one takes
    the closing branch. *)
Theorem escape_twice_closes (w : World) :
  let r1 := imagemanage._key_on_escape [] [] w in
  let r2 := imagemanage._key_on_escape [] [] r1.2 in
  r1.1 = Ok tt /\ r2.1 = Ok tt /\
  closed (window r2.2) = true /\
  _mode (window r2.2) = MODE_NONE.
Proof.
  intros r1 r2. unfold r2, r1. rewrite !key_on_escape_run.
  destruct w as [lg [[vis foc txt] imgs cnt img pm idx md adv outp acts cl scr]].
  simpl. destruct foc, vis; simpl; repeat split.
Qed.

Lemma enter_mode_run (mode : string) (w : World) :
  imagemanage.enter_mode mode w =
    (Ok tt,
     mkWorld (logs w)
       (set_textbox (shown_box (window w)) (set_mode mode (window w)))).
Proof.
  unfold imagemanage.enter_mode.
  unfold mbind, M_bind, bind, modify_window, modify.
  rewrite show_textbox_spec. reflexivity.
Qed.

Lemma mode_key_unfocused (km : qhelper.Callable * string) (w : World) :
  km ∈ mode_keys ->
  hasFocus (textbox (window w)) = false ->
  exists lg,
    km.1 [] [] w =
      (Ok tt,
       mkWorld lg (set_textbox (shown_box (window w)) (set_mode km.2 (window w)))).
Proof.
  intros Hin Hfocus. unfold mode_keys in Hin.
  repeat (apply elem_of_cons in Hin as [-> | Hin]);
    [.. | apply elem_of_nil in Hin; contradiction];
    simpl;
    unfold imagemanage._key_rename_image, imagemanage._key_find_image,
      imagemanage._key_go_to_image, imagemanage._key_label,
      imagemanage._key_enter_command;
    rewrite blocked_by_input_unfocused by exact Hfocus;
    unfold imagemanage.method0; rewrite enter_mode_run; simpl;
    eexists; reflexivity.
Qed.

Lemma mode_key_focused (km : qhelper.Callable * string) (args : list pyval)
    (kwargs : kwdict) (w : World) :
  km ∈ mode_keys ->
  hasFocus (textbox (window w)) = true ->
  exists lg, km.1 args kwargs w = (Ok tt, mkWorld lg (window w)).
Proof.
  intros Hin Hfocus. unfold mode_keys in Hin.
  repeat (apply elem_of_cons in Hin as [-> | Hin]);
    [.. | apply elem_of_nil in Hin; contradiction];
    simpl;
    unfold imagemanage._key_rename_image, imagemanage._key_find_image,
      imagemanage._key_go_to_image, imagemanage._key_label,
      imagemanage._key_enter_command;
    rewrite blocked_by_input_focused by exact Hfocus;
    eexists; reflexivity.
Qed.

(** X5: While the input box lacks focus, each key that enters an input mode
    returns and stores its own mode.  The box keeps its text; it is
    visible afterwards when it was visible or the window is on screen,
    and focused exactly when the window is the active one.  So on the
    active window the box ends up visible and focused, and on a window
    that is not on screen, before [show()] or after [close()], the box is
    left as it was.  The rest of the window is as before. *)
Theorem mode_key_enters_its_mode (km : qhelper.Callable * string) (w : World) :
  km ∈ mode_keys ->
  hasFocus (textbox (window w)) = false ->
  let r := km.1 [] [] w in
  let box := textbox (window w) in
  let where_ := screen (window w) in
  r.1 = Ok tt /\
  window r.2 =
    set_textbox
      (mkLineEdit (isVisible box || on_screen where_) (is_active where_) (text box))
      (set_mode km.2 (window w)) /\
  (where_ = Active -> textbox (window r.2) = mkLineEdit true true (text box)) /\
  (where_ = Offscreen -> textbox (window r.2) = box).
Proof.
  intros Hin Hfocus r box where_. unfold r, box, where_.
  destruct (mode_key_unfocused km w Hin Hfocus) as [lg ->].
  destruct w as [lg0 [[vis foc txt] imgs cnt img pm idx md adv outp acts cl scr]].
  simpl in *. subst foc. unfold shown_box. simpl.
  split; [reflexivity |]. split; [reflexivity |]. split.
  - intros ->. simpl. rewrite orb_true_r. reflexivity.
  - intros ->. simpl. rewrite orb_false_r. reflexivity.
Qed.

Lemma mode_key_enters_its_mode_witness :
  let w := sample_world box_hidden MODE_NONE 0 in
  (imagemanage._key_label, MODE_LABEL) ∈ mode_keys /\
  hasFocus (textbox (window w)) = false /\
  screen (window w) = Active /\
  _mode (window (imagemanage._key_label [] [] w).2) = MODE_LABEL /\
  textbox (window (imagemanage._key_label [] [] w).2) = mkLineEdit true true "".
Proof.
  intros w.
  assert (Hin : (imagemanage._key_label, MODE_LABEL) ∈ mode_keys)
    by (unfold mode_keys; in_list).
  split; [exact Hin |]. split; [reflexivity |]. split; [reflexivity |].
  pose proof (mode_key_enters_its_mode (imagemanage._key_label, MODE_LABEL) w Hin eq_refl)
    as (_ & Hwin & Hactive & _).
  split; [exact (f_equal _mode Hwin) | exact (Hactive eq_refl)].
Defined.

(** X6: The first mode key wins on the active window: once a mode key was
    pressed there with the box unfocused, the box holds the focus, so a
    second mode key, whichever it is and whatever it is called with,
    returns without changing the window, and the mode is still that of
    the first key. *)
Theorem second_mode_key_is_ignored (first second : qhelper.Callable * string)
    (args : list pyval) (kwargs : kwdict) (w : World) :
  first ∈ mode_keys ->
  second ∈ mode_keys ->
  hasFocus (textbox (window w)) = false ->
  screen (window w) = Active ->
  let w1 := (first.1 [] [] w).2 in
  let r := second.1 args kwargs w1 in
  r.1 = Ok tt /\
  window r.2 = window w1 /\
  _mode (window r.2) = first.2.
Proof.
  intros Hfirst Hsecond Hfocus Hactive w1 r. unfold r, w1.
  destruct (mode_key_unfocused first w Hfirst Hfocus) as [lg ->]. simpl.
  assert (Hfocused :
    hasFocus (textbox (window
      (mkWorld lg (set_textbox (shown_box (window w)) (set_mode first.2 (window w))))))
    = true).
  { simpl. unfold shown_box. simpl. rewrite Hactive. apply orb_true_r. }
  destruct (mode_key_focused second args kwargs _ Hsecond Hfocused) as [lg' ->].
  repeat split.
Qed.

Lemma second_mode_key_is_ignored_witness :
  let w := sample_world box_hidden MODE_NONE 0 in
  let w1 := (imagemanage._key_rename_image [] [] w).2 in
  (imagemanage._key_rename_image, MODE_RENAME) ∈ mode_keys /\
  (imagemanage._key_enter_command, MODE_COMMAND) ∈ mode_keys /\
  hasFocus (textbox (window w)) = false /\
  screen (window w) = Active /\
  _mode (window (imagemanage._key_enter_command [] [] w1).2) = MODE_RENAME.
Proof.
  intros w w1.
  assert (H1 : (imagemanage._key_rename_image, MODE_RENAME) ∈ mode_keys)
    by (unfold mode_keys; in_list).
  assert (H2 : (imagemanage._key_enter_command, MODE_COMMAND) ∈ mode_keys)
    by (unfold mode_keys; in_list).
  split; [exact H1 |]. split; [exact H2 |]. split; [reflexivity |].
  split; [reflexivity |].
  exact (proj2 (proj2 (second_mode_key_is_ignored _ _ [] [] w H1 H2 eq_refl eq_refl))).
Defined.

Lemma on_command_run (w : World) :
  imagemanage._on_command w =
    (Ok tt,
     mkWorld
       (logs w ++
        [mkLog DEBUG "_on_command: mode=%s text=%r"
           [LVal (PStr (_mode (window w))); LVal (PStr (text (textbox (window w))))]] ++
        (if bool_decide (_mode (window w) ∈ [MODE_RENAME; MODE_GOTO; MODE_SET_IMAGE;
                                               MODE_LABEL; MODE_COMMAND])
         then []
         else [mkLog WARNING "Invalid mode %r (while executing %r)"
                 [LVal (PStr (_mode (window w)));
                  LVal (PStr (text (textbox (window w))))]]))
       (set_textbox (mkLineEdit false false (text (textbox (window w))))
          (set_mode MODE_NONE (window w)))).
Proof.
  unfold imagemanage._on_command.
  unfold mbind, M_bind, bind, get_window, modify_window, modify, log. simpl.
  rewrite hide_textbox_spec. simpl.
  rewrite dispatch_spec. simpl.
  rewrite <- app_assoc. reflexivity.
Qed.

Lemma mode_keys_modes (km : qhelper.Callable * string) :
  km ∈ mode_keys ->
  km.2 ∈ [MODE_RENAME; MODE_GOTO; MODE_SET_IMAGE; MODE_LABEL; MODE_COMMAND].
Proof.
  intros Hin. unfold mode_keys in Hin.
  repeat (apply elem_of_cons in Hin as [-> | Hin]);
    [.. | apply elem_of_nil in Hin; contradiction];
    simpl; rewrite !elem_of_cons; tauto.
Qed.

(** X7: Entering a mode and submitting the input box is a round trip: from an
    idle window (mode [MODE_NONE], box hidden and unfocused), a mode key
    followed by [_on_command] returns the window to exactly the state it
    started in, and the submission is dispatched on the mode of the key,
    so no invalid-mode warning is written. *)
Theorem mode_key_then_submit_restores (km : qhelper.Callable * string) (w : World) :
  km ∈ mode_keys ->
  _mode (window w) = MODE_NONE ->
  isVisible (textbox (window w)) = false ->
  hasFocus (textbox (window w)) = false ->
  let w1 := (km.1 [] [] w).2 in
  let r := imagemanage._on_command w1 in
  r.1 = Ok tt /\
  window r.2 = window w /\
  logs r.2 =
    logs w1 ++
    [mkLog DEBUG "_on_command: mode=%s text=%r"
       [LVal (PStr km.2); LVal (PStr (text (textbox (window w))))]].
Proof.
  intros Hin Hmode Hvis Hfocus w1 r. unfold r, w1.
  destruct (mode_key_unfocused km w Hin Hfocus) as [lg ->].
  rewrite on_command_run.
  pose proof (mode_keys_modes km Hin) as Hmodes.
  destruct w as [lg0 [[vis foc txt] imgs cnt img pm idx md adv outp acts cl scr]].
  simpl in *. subst md vis foc.
  rewrite bool_decide_eq_true_2 by exact Hmodes.
  repeat split.
Qed.

Lemma mode_key_then_submit_restores_witness :
  let w := sample_world box_hidden MODE_NONE 2 in
  (imagemanage._key_go_to_image, MODE_GOTO) ∈ mode_keys /\
  _mode (window w) = MODE_NONE /\
  isVisible (textbox (window w)) = false /\
  hasFocus (textbox (window w)) = false /\
  window (imagemanage._on_command (imagemanage._key_go_to_image [] [] w).2).2 = window w.
Proof.
  intros w.
  assert (Hin : (imagemanage._key_go_to_image, MODE_GOTO) ∈ mode_keys)
    by (unfold mode_keys; in_list).
  split; [exact Hin |].
  split; [reflexivity |]. split; [reflexivity |]. split; [reflexivity |].
  exact (proj1 (proj2 (mode_key_then_submit_restores _ w Hin eq_refl eq_refl eq_refl))).
Defined.

(** X8: A mode key pressed with the box unfocused, followed by Escape:
    the mode is back at [MODE_NONE] and the box is invisible and
    unfocused with its text kept.  When the key left the box visible,
    because it was visible before or the window is on screen, Escape
    takes the hiding branch: the window is not closed, and the rest of
    it is as before the key.  Otherwise, on a window that is not on
    screen with its box invisible, the key shows nothing and Escape
    closes the window. *)
Theorem mode_key_then_escape_cancels (km : qhelper.Callable * string) (w : World) :
  km ∈ mode_keys ->
  hasFocus (textbox (window w)) = false ->
  let box := textbox (window w) in
  let showing := isVisible box || on_screen (screen (window w)) in
  let r := imagemanage._key_on_escape [] [] (km.1 [] [] w).2 in
  r.1 = Ok tt /\
  _mode (window r.2) = MODE_NONE /\
  textbox (window r.2) = mkLineEdit false false (text box) /\
  closed (window r.2) = (if showing then closed (window w) else true) /\
  (showing = true ->
   window r.2 =
     set_textbox (mkLineEdit false false (text box)) (set_mode MODE_NONE (window w))).
Proof.
  intros Hin Hfocus box showing r. unfold r, showing, box.
  destruct (mode_key_unfocused km w Hin Hfocus) as [lg ->].
  rewrite key_on_escape_run.
  destruct w as [lg0 [[vis foc txt] imgs cnt img pm idx md adv outp acts cl scr]].
  simpl in *. subst foc. unfold shown_box. simpl.
  destruct vis, scr; simpl; repeat split; discriminate.
Qed.

Lemma mode_key_then_escape_cancels_witness :
  let w := sample_world box_hidden MODE_NONE 2 in
  (imagemanage._key_find_image, MODE_SET_IMAGE) ∈ mode_keys /\
  hasFocus (textbox (window w)) = false /\
  isVisible (textbox (window w)) || on_screen (screen (window w)) = true /\
  window (imagemanage._key_on_escape [] [] (imagemanage._key_find_image [] [] w).2).2 =
    window w.
Proof.
  intros w.
  assert (Hin : (imagemanage._key_find_image, MODE_SET_IMAGE) ∈ mode_keys)
    by (unfold mode_keys; in_list).
  split; [exact Hin |]. split; [reflexivity |]. split; [reflexivity |].
  exact (proj2 (proj2 (proj2 (proj2
    (mode_key_then_escape_cancels _ w Hin eq_refl)))) eq_refl).
Defined.

(** X9: While the input box has focus no decorated key acts: the keys that
    move through the images, mark, delete, zoom, adjust or toggle return
    without touching the window, whatever they are called with; only a
    debug record is written. *)
Theorem action_keys_blocked_while_focused guess_type (key : qhelper.Callable)
    (args : list pyval) (kwargs : kwdict) (w : World) :
  key ∈ action_keys guess_type ->
  hasFocus (textbox (window w)) = true ->
  (key args kwargs w).1 = Ok tt /\
  window (key args kwargs w).2 = window w /\
  length (logs (key args kwargs w).2) = S (length (logs w)).
Proof.
  intros Hin Hfocus. unfold action_keys in Hin.
  repeat (apply elem_of_cons in Hin as [-> | Hin]);
    [.. | apply elem_of_nil in Hin; contradiction];
    unfold imagemanage._key_prev_image, imagemanage._key_next_image,
      imagemanage._key_prev_many, imagemanage._key_next_many,
      imagemanage._key_delete_image, imagemanage._key_show_help,
      imagemanage._key_adjust, imagemanage._key_toggle_text,
      imagemanage._key_toggle_zoom, imagemanage._key_zoom_out,
      imagemanage._key_zoom_in, imagemanage._key_mark_image;
    rewrite blocked_by_input_focused by exact Hfocus;
    simpl; rewrite length_app, Nat.add_comm; repeat split.
Qed.

Lemma action_keys_blocked_while_focused_witness :
  let w := sample_world (box_typing "3") MODE_GOTO 1 in
  imagemanage._key_next_image sample_guess_type ∈ action_keys sample_guess_type /\
  hasFocus (textbox (window w)) = true /\
  window (imagemanage._key_next_image sample_guess_type [] [] w).2 = window w.
Proof.
  intros w.
  assert (Hin : imagemanage._key_next_image sample_guess_type ∈ action_keys sample_guess_type)
    by (unfold action_keys; in_list).
  split; [exact Hin |]. split; [reflexivity |].
  exact (proj1 (proj2
    (action_keys_blocked_while_focused sample_guess_type _ [] [] w Hin eq_refl))).
Defined.

(** ** The index and the image shown *)

(** X10: An index outside [[0, count)] is refused before anything happens:
    [set_index] raises [ValueError] and leaves the window and the log
    exactly as they were; neither the index is stored nor the image
    redrawn. *)
Theorem set_index_out_of_range_changes_nothing guess_type (idx : Z) (w : World) :
  idx < 0 \/ _count (window w) <= idx ->
  imagemanage.set_index guess_type idx w =
    (Raise (ValueError
       (pretty idx +:+ " outside range [0, " +:+ pretty (_count (window w)) +:+ ")")),
     w).
Proof.
  intros Hout. unfold imagemanage.set_index. unfold_monad.
  replace ((idx <? 0) || (_count (window w) <=? idx)) with true; [reflexivity |].
  symmetry. apply orb_true_iff.
  destruct Hout; [left; apply Z.ltb_lt | right; apply Z.leb_le]; assumption.
Qed.

Lemma set_index_out_of_range_changes_nothing_witness :
  let w := sample_world box_hidden MODE_NONE 3 in
  (5 < 0 \/ _count (window w) <= 5) /\
  imagemanage.set_index sample_guess_type 5 w =
    (Raise (ValueError "5 outside range [0, 5)"), w).
Proof.
  intros w.
  assert (H : 5 < 0 \/ _count (window w) <= 5) by (right; simpl; lia).
  split; [exact H |].
  exact (set_index_out_of_range_changes_nothing sample_guess_type 5 w H).
Defined.

Lemma set_index_keeps_count guess_type (idx : Z) (w : World) :
  _count (window (imagemanage.set_index guess_type idx w).2) = _count (window w).
Proof.
  unfold imagemanage.set_index. unfold_monad.
  destruct ((idx <? 0) || (_count (window w) <=? idx)); [reflexivity |].
  simpl.
  match goal with
  | |- context [imagemanage.redraw guess_type ?w'] =>
      pose proof (redraw_keeps_index guess_type w') as [_ Hc];
      destruct (imagemanage.redraw guess_type w') as [r w'']
  end.
  simpl in *. destruct r; exact Hc.
Qed.

Lemma advance_index_keeps_count guess_type (by_ : Z) (w : World) :
  _count (window (imagemanage._advance_index guess_type by_ w).2) = _count (window w).
Proof.
  unfold imagemanage._advance_index, imagemanage.py_mod. unfold_monad.
  destruct (_count (window w) =? 0); [reflexivity |].
  simpl.
  pose proof (set_index_keeps_count guess_type
                ((_index (window w) + by_) mod _count (window w)) w) as Hc.
  destruct (imagemanage.set_index guess_type _ w) as [r w'].
  simpl in *. exact Hc.
Qed.

Lemma advance_all_spec guess_type (amounts : list Z) (w : World) :
  0 < _count (window w) ->
  0 <= _index (window w) < _count (window w) ->
  _index (window (advance_all guess_type amounts w)) =
    (_index (window w) + total amounts) mod _count (window w) /\
  _count (window (advance_all guess_type amounts w)) = _count (window w).
Proof.
  revert w. induction amounts as [| by_ rest IH]; intros w Hn Hidx.
  - simpl. rewrite Z.add_0_r, Z.mod_small by exact Hidx. split; reflexivity.
  - unfold advance_all. simpl fold_left.
    fold (advance_all guess_type rest (imagemanage._advance_index guess_type by_ w).2).
    pose proof (advance_index_spec guess_type by_ w Hn) as Hi.
    pose proof (advance_index_keeps_count guess_type by_ w) as Hc.
    set (w1 := (imagemanage._advance_index guess_type by_ w).2) in *.
    assert (Hn1 : 0 < _count (window w1)) by (rewrite Hc; exact Hn).
    assert (Hidx1 : 0 <= _index (window w1) < _count (window w1)).
    { rewrite Hi, Hc. apply Z.mod_pos_bound. exact Hn. }
    destruct (IH w1 Hn1 Hidx1) as [IHi IHc].
    rewrite IHi, IHc, Hi, Hc. split; [| reflexivity].
    simpl total. rewrite Zplus_mod_idemp_l. f_equal. lia.
Qed.

(** X11: Moving through the images composes: on a window over [n > 0] images
    with its index in range, any run of advances, forwards or backwards
    and whether or not a redraw fails on the way, leaves the index at
    [(index + sum of the amounts) mod n], which is in [[0, n)]; the count
    is unchanged.  A run whose amounts sum to a multiple of [n], such as
    one step forwards and one back, ends on the image it started on. *)
Theorem advances_add_up guess_type (amounts : list Z) (w : World) :
  let n := _count (window w) in
  0 < n ->
  0 <= _index (window w) < n ->
  let w' := advance_all guess_type amounts w in
  _index (window w') = (_index (window w) + total amounts) mod n /\
  0 <= _index (window w') < n /\
  _count (window w') = n /\
  (total amounts mod n = 0 -> _index (window w') = _index (window w)).
Proof.
  intros n Hn Hidx w'. unfold w', n in *.
  destruct (advance_all_spec guess_type amounts w Hn Hidx) as [Hi Hc].
  split; [exact Hi |]. split; [rewrite Hi; apply Z.mod_pos_bound; exact Hn |].
  split; [exact Hc |].
  intros Hzero. rewrite Hi, <- Zplus_mod_idemp_r, Hzero, Z.add_0_r.
  apply Z.mod_small. exact Hidx.
Qed.

Lemma advances_add_up_witness :
  let w := sample_world box_hidden MODE_NONE 4 in
  0 < _count (window w) /\
  0 <= _index (window w) < _count (window w) /\
  _index (window (advance_all sample_guess_type [1; 10; -3] w)) = 2 /\
  _index (window (advance_all sample_guess_type [1; -1] w)) = 4.
Proof.
  intros w.
  assert (Hn : 0 < _count (window w)) by (simpl; lia).
  assert (Hidx : 0 <= _index (window w) < _count (window w)) by (simpl; lia).
  split; [exact Hn |]. split; [exact Hidx |]. split.
  - exact (proj1 (advances_add_up sample_guess_type [1; 10; -3] w Hn Hidx)).
  - exact (proj2 (proj2 (proj2 (advances_add_up sample_guess_type [1; -1] w Hn Hidx)))
             eq_refl).
Defined.

Lemma redraw_image guess_type (w : World) (path subtype : string) :
  getitem (_images (window w)) (_index (window w)) = Ok path ->
  guess_type path = (Some ("image/" +:+ subtype), None) ->
  imagemanage.redraw guess_type w = (Ok tt, mkWorld (logs w) (set_image path (window w))).
Proof.
  intros Hpath Hguess. unfold imagemanage.redraw. unfold_monad.
  rewrite Hpath. simpl. rewrite Hguess. reflexivity.
Qed.

(** X12: The canvas follows the index: on a window whose count is the length
    of its list and whose paths are all images, every advance returns,
    and afterwards the image loaded and shown is the one the list holds
    at the new index. *)
Theorem advance_shows_image_at_index guess_type (by_ : Z) (w : World) :
  _count (window w) = Z.of_nat (length (_images (window w))) ->
  0 < _count (window w) ->
  all_images guess_type (_images (window w)) ->
  let r := imagemanage._advance_index guess_type by_ w in
  r.1 = Ok tt /\
  _images (window r.2) = _images (window w) /\
  _index (window r.2) = (_index (window w) + by_) mod _count (window w) /\
  pixmap (window r.2) = _images (window w) !! Z.to_nat (_index (window r.2)) /\
  _image (window r.2) = pixmap (window r.2).
Proof.
  intros Hcount Hn Himages r.
  pose proof (Z.mod_pos_bound (_index (window w) + by_) (_count (window w)) Hn) as Hb.
  set (idx := (_index (window w) + by_) mod _count (window w)) in *.
  destruct (lookup_lt_is_Some_2 (_images (window w)) (Z.to_nat idx)) as [path Hpath];
    [lia |].
  destruct (Himages path (list_elem_of_lookup_2 _ _ _ Hpath)) as [subtype Hguess].
  assert (Hr : r =
    (Ok tt,
     mkWorld
       (logs w ++ [mkLog DEBUG "Index %d -> %d"
                     [LVal (PInt (_index (window w))); LVal (PInt idx)]])
       (set_image path (set_index_field idx (window w))))).
  { unfold r, imagemanage._advance_index, imagemanage.py_mod. unfold_monad.
    destruct (Z.eqb_spec (_count (window w)) 0) as [? | _]; [lia |].
    simpl. fold idx. unfold imagemanage.set_index. unfold_monad. simpl.
    destruct (Z.ltb_spec idx 0) as [? | _]; [lia |].
    destruct (Z.leb_spec (_count (window w)) idx) as [? | _]; [lia |].
    simpl.
    rewrite (redraw_image guess_type _ path subtype); [reflexivity | | exact Hguess].
    simpl. unfold getitem.
    destruct (Z.ltb_spec idx 0) as [? | _]; [lia |].
    destruct (Z.ltb_spec idx 0) as [? | _]; [lia |].
    destruct (Z.leb_spec (Z.of_nat (length (_images (window w)))) idx) as [? | _];
      [lia |].
    simpl. rewrite Hpath. reflexivity. }
  rewrite Hr. simpl. rewrite Hpath. repeat split.
Qed.

Lemma advance_shows_image_at_index_witness :
  let w := sample_world box_hidden MODE_NONE 4 in
  let r := imagemanage._advance_index sample_guess_type 2 w in
  _count (window w) = Z.of_nat (length (_images (window w))) /\
  0 < _count (window w) /\
  all_images sample_guess_type (_images (window w)) /\
  r.1 = Ok tt /\
  pixmap (window r.2) = _images (window w) !! Z.to_nat (_index (window r.2)).
Proof.
  intros w r.
  assert (Hcount : _count (window w) = Z.of_nat (length (_images (window w))))
    by reflexivity.
  assert (Hn : 0 < _count (window w)) by (simpl; lia).
  assert (Himages : all_images sample_guess_type (_images (window w)))
    by (intros path _; exists "png"; reflexivity).
  split; [exact Hcount |]. split; [exact Hn |]. split; [exact Himages |].
  pose proof (advance_shows_image_at_index sample_guess_type 2 w Hcount Hn Himages)
    as (Hok & _ & _ & Hshown & _).
  split; [exact Hok | exact Hshown].
Defined.

(** X13: [redraw] on a window whose index names a path of its list returns
    exactly when [guess_type] gives the path a MIME type with a slash in
    it and no encoding; otherwise it raises [ValueError] and the window
    is unchanged. *)
Theorem redraw_raises_on_unknown_or_encoded guess_type (w : World) (path : string) :
  getitem (_images (window w)) (_index (window w)) = Ok path ->
  let r := imagemanage.redraw guess_type w in
  let drawable :=
    exists mime, guess_type path = (Some mime, None) /\
                 is_Some (imagemanage.split_slash mime) in
  (drawable -> r.1 = Ok tt) /\
  (~ drawable -> (exists text, r.1 = Raise (ValueError text)) /\ window r.2 = window w).
Proof.
  intros Hpath r drawable. unfold r, drawable.
  unfold imagemanage.redraw. unfold_monad. rewrite Hpath. simpl.
  destruct (guess_type path) as [[mime |] [enc |]].
  - split.
    + intros (mime' & [=] & _).
    + intros _. simpl. split; [eexists; reflexivity | reflexivity].
  - destruct (imagemanage.split_slash mime) as [[mimecat mimename] |] eqn:Hsplit.
    + split.
      * intros _. repeat case_bool_decide; reflexivity.
      * intros Hnot. exfalso. apply Hnot. exists mime. rewrite Hsplit.
        split; [reflexivity | eexists; reflexivity].
    + split.
      * intros (mime' & [= <-] & [x Hx]). rewrite Hsplit in Hx. discriminate Hx.
      * intros _. simpl. split; [eexists; reflexivity | reflexivity].
  - split.
    + intros (mime' & [=] & _).
    + intros _. simpl. split; [eexists; reflexivity | reflexivity].
  - split.
    + intros (mime' & [=] & _).
    + intros _. simpl. split; [eexists; reflexivity | reflexivity].
Qed.

Lemma redraw_raises_on_unknown_or_encoded_witness :
  let w := sample_world box_hidden MODE_NONE 1 in
  let unknown := fun _ : string => (@None string, @None string) in
  getitem (_images (window w)) (_index (window w)) = Ok "b.png" /\
  (imagemanage.redraw sample_guess_type w).1 = Ok tt /\
  (exists text, (imagemanage.redraw unknown w).1 = Raise (ValueError text)) /\
  window (imagemanage.redraw unknown w).2 = window w.
Proof.
  intros w unknown.
  assert (Hpath : getitem (_images (window w)) (_index (window w)) = Ok "b.png")
    by reflexivity.
  split; [exact Hpath |]. split.
  - apply (proj1 (redraw_raises_on_unknown_or_encoded sample_guess_type w "b.png" Hpath)).
    exists "image/png". split; [reflexivity | eexists; reflexivity].
  - apply (proj2 (redraw_raises_on_unknown_or_encoded unknown w "b.png" Hpath)).
    intros (mime & [=] & _).
Defined.

(** ** Binding keys *)

Lemma add_keybind_new (keys : string) (func : qhelper.member) (args : list pyval)
    (p : imagemanage.Program) :
  imagemanage._keybinds p !! keys = None ->
  imagemanage._add_keybind keys func args [] p =
    (Ok tt,
     imagemanage.mkProgram
       (<[keys := first_keybind (keys, func, args)]> (imagemanage._keybinds p))
       (mkWorld (logs (imagemanage.world p) ++ [bind_new_record keys func args []])
          (with_actions [keys] (window (imagemanage.world p))))).
Proof.
  intros Hnew. destruct p as [table [lg win]].
  unfold imagemanage._add_keybind, imagemanage._add_keybind_in. unfold_monad.
  simpl in *. rewrite Hnew. reflexivity.
Qed.

(** X14: A first registration with keyword arguments fails: [KeyBind] takes
    none, so [_add_keybind] raises [TypeError] after its log record; the
    key stays unbound, no action is added and the window is unchanged. *)
Theorem add_keybind_rejects_keywords (keys : string) (func : qhelper.member)
    (args : list pyval) (kwargs : kwdict) (p : imagemanage.Program) :
  imagemanage._keybinds p !! keys = None ->
  kwargs <> [] ->
  imagemanage._add_keybind keys func args kwargs p =
    (Raise (TypeError "__init__() got an unexpected keyword argument"),
     imagemanage.mkProgram (imagemanage._keybinds p)
       (mkWorld (logs (imagemanage.world p) ++ [bind_new_record keys func args kwargs])
          (window (imagemanage.world p)))).
Proof.
  intros Hnew Hkw. destruct p as [table [lg win]].
  unfold imagemanage._add_keybind, imagemanage._add_keybind_in. unfold_monad.
  simpl in *. rewrite Hnew.
  destruct kwargs as [| kw rest]; [contradiction | reflexivity].
Qed.

Lemma add_keybind_rejects_keywords_witness :
  imagemanage._keybinds sample_program !! "m" = None /\
  [("number", PInt 1)] <> [] /\
  (imagemanage._add_keybind "m" (note "mark") [] [("number", PInt 1)] sample_program).1 =
    Raise (TypeError "__init__() got an unexpected keyword argument") /\
  imagemanage._keybinds
    (imagemanage._add_keybind "m" (note "mark") [] [("number", PInt 1)] sample_program).2
    !! "m" = None.
Proof.
  assert (Hnew : imagemanage._keybinds sample_program !! "m" = None) by reflexivity.
  assert (Hkw : [("number", PInt 1)] <> @nil (string * pyval)) by discriminate.
  split; [exact Hnew |]. split; [exact Hkw |].
  rewrite (add_keybind_rejects_keywords "m" (note "mark") [] _ sample_program Hnew Hkw).
  split; [reflexivity | exact Hnew].
Defined.

(** X15: Arguments bound at a first registration are never passed on: the
    entry holds the function followed by the arguments themselves, so a
    trigger calls the function without arguments, and never returns: it
    raises what that call raises or, if the call returns, fails on the
    first argument, which is no function. *)
Theorem bound_arguments_are_called_as_members (keys : string) (func : qhelper.member)
    (arg : pyval) (args : list pyval) (p : imagemanage.Program) :
  imagemanage._keybinds p !! keys = None ->
  let r := imagemanage._add_keybind keys func (arg :: args) [] p in
  r.1 = Ok tt /\
  exists kb,
    imagemanage._keybinds r.2 !! keys = Some kb /\
    qhelper._functions kb = func :: qhelper.Plain arg :: map qhelper.Plain args /\
    forall w,
      let called :=
        qhelper.call func [] []
          (mkWorld (logs w ++ [qhelper.invoke_record keys func [] []]) (window w)) in
      exists e,
        (qhelper.__call__ kb [] [] w).1 = Raise e /\
        match called.1 with
        | Ok _ => True
        | Raise e' => e = e' /\ (qhelper.__call__ kb [] [] w).2 = called.2
        end.
Proof.
  intros Hnew r. unfold r. rewrite (add_keybind_new _ _ _ _ Hnew).
  split; [reflexivity |].
  exists (first_keybind (keys, func, arg :: args)).
  split; [apply lookup_insert_eq |]. split; [reflexivity |].
  intros w. unfold qhelper.__call__, first_keybind.
  simpl qhelper._functions. simpl qhelper._keys. rewrite call_each_cons.
  destruct (qhelper.call func [] [] _) as [[[] | e] w1]; eexists.
  - split; [reflexivity | exact I].
  - split; [reflexivity | split; reflexivity].
Qed.

Lemma bound_arguments_are_called_as_members_witness :
  let r := imagemanage._add_keybind "m" (note "mark") [PInt 1] [] sample_program in
  imagemanage._keybinds sample_program !! "m" = None /\
  r.1 = Ok tt /\
  exists kb,
    imagemanage._keybinds r.2 !! "m" = Some kb /\
    qhelper._functions kb = [note "mark"; qhelper.Plain (PInt 1)].
Proof.
  intros r.
  assert (Hnew : imagemanage._keybinds sample_program !! "m" = None) by reflexivity.
  split; [exact Hnew |].
  destruct (bound_arguments_are_called_as_members "m" (note "mark") (PInt 1) []
              sample_program Hnew) as (Hok & kb & Hkb & Hfuncs & _).
  split; [exact Hok |]. exists kb. split; [exact Hkb | exact Hfuncs].
Defined.

Lemma with_actions_app (a b : list string) (im : ImageManager) :
  with_actions b (with_actions a im) = with_actions (a ++ b) im.
Proof. unfold with_actions. simpl. rewrite app_assoc. reflexivity. Qed.

Lemma add_keybinds_run (calls : list manager.binding) (p : imagemanage.Program) :
  NoDup (map (fun call : manager.binding => call.1.1) calls) ->
  (forall call, call ∈ calls -> imagemanage._keybinds p !! call.1.1 = None) ->
  manager.add_keybinds calls p =
    (Ok tt,
     imagemanage.mkProgram (bound_table calls (imagemanage._keybinds p))
       (mkWorld
          (logs (imagemanage.world p) ++
           map (fun call : manager.binding =>
                  bind_new_record call.1.1 call.1.2 call.2 []) calls)
          (with_actions (map (fun call : manager.binding => call.1.1) calls)
             (window (imagemanage.world p))))).
Proof.
  revert p. induction calls as [| [[keys func] args] rest IH]; intros p Hdup Hnew.
  - destruct p as [table [lg [box imgs cnt img pm idx md adv outp acts cl scr]]].
    simpl. unfold mret, M_ret, ret, with_actions. simpl. rewrite !app_nil_r. reflexivity.
  - change (manager.add_keybinds ((keys, func, args) :: rest)) with
      (imagemanage._add_keybind keys func args [];; manager.add_keybinds rest).
    unfold mbind, M_bind, bind.
    rewrite add_keybind_new by (apply (Hnew (keys, func, args)); apply list_elem_of_here).
    simpl in Hdup. apply NoDup_cons in Hdup as [Hnotin Hdup].
    rewrite IH; [| exact Hdup |].
    + simpl. rewrite with_actions_app, <- app_assoc. reflexivity.
    + intros call Hcall. simpl. rewrite lookup_insert_ne.
      * apply Hnew. apply list_elem_of_further. exact Hcall.
      * intros Heq. apply Hnotin. rewrite Heq.
        apply (list_elem_of_fmap_2 (fun call : manager.binding => call.1.1)). exact Hcall.
Qed.

Lemma bound_table_other (calls : list manager.binding)
    (table : gmap string qhelper.KeyBind) (keys : string) :
  keys ∉ map (fun call : manager.binding => call.1.1) calls ->
  bound_table calls table !! keys = table !! keys.
Proof.
  revert table. induction calls as [| call rest IH]; intros table Hnotin; [reflexivity |].
  simpl in *. apply not_elem_of_cons in Hnotin as [Hne Hnotin].
  unfold bound_table in *. simpl. rewrite IH by exact Hnotin.
  apply lookup_insert_ne. congruence.
Qed.

Lemma bound_table_lookup (calls : list manager.binding)
    (table : gmap string qhelper.KeyBind) (call : manager.binding) :
  NoDup (map (fun call : manager.binding => call.1.1) calls) ->
  call ∈ calls ->
  bound_table calls table !! call.1.1 = Some (first_keybind call).
Proof.
  revert table. induction calls as [| first rest IH]; intros table Hdup Hin.
  - apply elem_of_nil in Hin. contradiction.
  - simpl in Hdup. apply NoDup_cons in Hdup as [Hnotin Hdup].
    apply elem_of_cons in Hin as [-> | Hin].
    + unfold bound_table. simpl.
      fold (bound_table rest (<[first.1.1 := first_keybind first]> table)).
      rewrite bound_table_other by exact Hnotin. apply lookup_insert_eq.
    + unfold bound_table. simpl. apply IH; assumption.
Qed.

(** X16: A run of registrations under pairwise distinct keys, none of them
    bound before, never reaches [KeyBind.bind]: every call returns, each
    key is bound to its own function followed by its bound arguments, the
    shortcuts are added to the window in the order of the calls, and the
    keys that were bound before keep their entries. *)
Theorem add_keybinds_distinct_keys (calls : list manager.binding)
    (p : imagemanage.Program) :
  let shortcuts := map (fun call : manager.binding => call.1.1) calls in
  NoDup shortcuts ->
  (forall call, call ∈ calls -> imagemanage._keybinds p !! call.1.1 = None) ->
  let r := manager.add_keybinds calls p in
  r.1 = Ok tt /\
  window (imagemanage.world r.2) = with_actions shortcuts (window (imagemanage.world p)) /\
  (forall call, call ∈ calls ->
     imagemanage._keybinds r.2 !! call.1.1 = Some (first_keybind call)) /\
  (forall keys, keys ∉ shortcuts ->
     imagemanage._keybinds r.2 !! keys = imagemanage._keybinds p !! keys).
Proof.
  intros shortcuts Hdup Hnew r. unfold r, shortcuts in *.
  rewrite (add_keybinds_run calls p Hdup Hnew). simpl.
  split; [reflexivity |]. split; [reflexivity |]. split.
  - intros call Hcall. apply bound_table_lookup; assumption.
  - intros keys Hkeys. apply bound_table_other. exact Hkeys.
Qed.

Lemma add_keybinds_distinct_keys_witness :
  let calls := [("a", note "first", []); ("b", note "second", [PInt 2])] in
  let r := manager.add_keybinds calls sample_program in
  NoDup (map (fun call : manager.binding => call.1.1) calls) /\
  (forall call, call ∈ calls -> imagemanage._keybinds sample_program !! call.1.1 = None) /\
  r.1 = Ok tt /\
  actions (window (imagemanage.world r.2)) = ["a"; "b"].
Proof.
  intros calls r.
  assert (Hdup : NoDup (map (fun call : manager.binding => call.1.1) calls))
    by (apply (bool_decide_unpack _); reflexivity).
  assert (Hnew : forall call, call ∈ calls ->
                   imagemanage._keybinds sample_program !! call.1.1 = None)
    by (intros call _; apply lookup_empty).
  split; [exact Hdup |]. split; [exact Hnew |].
  pose proof (add_keybinds_distinct_keys calls sample_program Hdup Hnew)
    as (Hok & Hwin & _).
  split; [exact Hok |].
  unfold r. rewrite Hwin. reflexivity.
Defined.

(** ** The constructor *)

Lemma keybinds_shortcuts guess_type :
  map (fun call : manager.binding => call.1.1) (manager.keybinds guess_type) =
    constructor_shortcuts.
Proof. vm_compute. reflexivity. Qed.

Lemma constructor_shortcuts_distinct : NoDup constructor_shortcuts.
Proof. apply (bool_decide_unpack _). vm_compute. reflexivity. Qed.

Lemma init_run guess_type (images : list string) (advance_many : Z)
    (lg : list LogRecord) :
  exists lg1,
    manager.__init__ guess_type images advance_many lg =
      let table := bound_table (manager.keybinds guess_type) ∅ in
      let shown :=
        imagemanage.set_index guess_type 0 (mkWorld lg1 (constructed images advance_many)) in
      (shown.1, imagemanage.mkProgram table shown.2).
Proof.
  exists (lg ++ map (fun call : manager.binding =>
                      bind_new_record call.1.1 call.1.2 call.2 [])
                 (manager.keybinds guess_type)).
  unfold manager.__init__.
  unfold mbind at 1. unfold M_bind, bind.
  rewrite add_keybinds_run.
  - unfold imagemanage.in_world.
    cbn [imagemanage.world imagemanage._keybinds logs window].
    rewrite keybinds_shortcuts.
    match goal with
    | |- context [imagemanage.set_index guess_type 0 ?w] => set (w0 := w)
    end.
    change (imagemanage.set_index guess_type 0
              (mkWorld _ (constructed images advance_many)))
      with (imagemanage.set_index guess_type 0 w0).
    destruct (imagemanage.set_index guess_type 0 w0) as [res w1]. reflexivity.
  - rewrite keybinds_shortcuts. exact constructor_shortcuts_distinct.
  - intros call _. apply lookup_empty.
Qed.

Lemma init_table guess_type (images : list string) (advance_many : Z)
    (lg : list LogRecord) :
  imagemanage._keybinds (manager.__init__ guess_type images advance_many lg).2 =
    bound_table (manager.keybinds guess_type) ∅.
Proof.
  destruct (init_run guess_type images advance_many lg) as [lg1 ->]. reflexivity.
Qed.

(** X17: With a first image that [guess_type] takes for an image, the
    constructor returns and the window is ready: the input box hidden,
    unfocused and empty, the mode [MODE_NONE], the index 0 with the first
    image loaded and shown, the count the length of the list, and the
    thirty shortcuts added in the order of the calls.  No call reaches
    [KeyBind.bind]: every key is bound once, to its function followed by
    its bound arguments, and no other key is bound. *)
Theorem constructor_sets_up_window guess_type (first : string) (rest : list string)
    (advance_many : Z) (lg : list LogRecord) (subtype : string) :
  guess_type first = (Some ("image/" +:+ subtype), None) ->
  let images := first :: rest in
  let r := manager.__init__ guess_type images advance_many lg in
  r.1 = Ok tt /\
  window (imagemanage.world r.2) =
    set_image first (constructed images advance_many) /\
  (forall call, call ∈ manager.keybinds guess_type ->
     imagemanage._keybinds r.2 !! call.1.1 = Some (first_keybind call)) /\
  (forall keys, keys ∉ constructor_shortcuts -> imagemanage._keybinds r.2 !! keys = None).
Proof.
  intros Hguess images r.
  assert (Htable : imagemanage._keybinds r.2 =
                     bound_table (manager.keybinds guess_type) ∅)
    by apply init_table.
  assert (Hshown : r.1 = Ok tt /\
                   window (imagemanage.world r.2) =
                     set_image first (constructed images advance_many)).
  { unfold r. destruct (init_run guess_type images advance_many lg) as [lg1 ->].
    cbv zeta. unfold imagemanage.set_index. unfold_monad.
    unfold images at 1 2. simpl.
    rewrite (redraw_image guess_type _ first subtype); [split; reflexivity | | exact Hguess].
    reflexivity. }
  destruct Hshown as [Hok Hwin].
  split; [exact Hok |]. split; [exact Hwin |]. rewrite Htable. split.
  - intros call Hcall. apply bound_table_lookup; [| exact Hcall].
    rewrite keybinds_shortcuts. exact constructor_shortcuts_distinct.
  - intros keys Hkeys. rewrite bound_table_other; [apply lookup_empty |].
    rewrite keybinds_shortcuts. exact Hkeys.
Qed.

Lemma constructor_sets_up_window_witness :
  let r := manager.__init__ sample_guess_type sample_images 10 [] in
  sample_guess_type "a.png" = (Some ("image/" +:+ "png"), None) /\
  r.1 = Ok tt /\
  window (imagemanage.world r.2) = set_image "a.png" (constructed sample_images 10).
Proof.
  intros r. split; [reflexivity |].
  pose proof (constructor_sets_up_window sample_guess_type "a.png"
                ["b.png"; "c.png"; "d.png"; "e.png"] 10 [] "png" eq_refl)
    as (Hok & Hwin & _).
  split; [exact Hok | exact Hwin].
Defined.

(** X18: The constructor needs a first image it can show: given no image at
    all, or a first image whose type [guess_type] does not know, it binds
    all its keys and then raises [ValueError] from showing image 0. *)
Theorem constructor_needs_a_first_image guess_type (images : list string)
    (advance_many : Z) (lg : list LogRecord) :
  images = [] \/
  (exists first rest encoding,
     images = first :: rest /\ guess_type first = (None, encoding)) ->
  let r := manager.__init__ guess_type images advance_many lg in
  (exists text, r.1 = Raise (ValueError text)) /\
  actions (window (imagemanage.world r.2)) = constructor_shortcuts /\
  pixmap (window (imagemanage.world r.2)) = None.
Proof.
  intros Himages r. unfold r.
  destruct (init_run guess_type images advance_many lg) as [lg1 ->]. cbv zeta.
  destruct Himages as [-> | (first & rest & encoding & -> & Hguess)].
  - unfold imagemanage.set_index. unfold_monad. simpl.
    split; [eexists; reflexivity |]. split; reflexivity.
  - unfold imagemanage.set_index, imagemanage.redraw. unfold_monad. simpl.
    rewrite Hguess. simpl.
    split; [eexists; reflexivity |]. split; reflexivity.
Qed.

Lemma constructor_needs_a_first_image_witness :
  (@nil string = [] \/
   (exists first rest encoding,
      @nil string = first :: rest /\ sample_guess_type first = (None, encoding))) /\
  (manager.__init__ sample_guess_type [] 10 []).1 =
    Raise (ValueError "0 outside range [0, 0)").
Proof.
  assert (H : @nil string = [] \/
              (exists first rest encoding,
                 @nil string = first :: rest /\
                 sample_guess_type first = (None, encoding)))
    by (left; reflexivity).
  split; [exact H |].
  destruct (constructor_needs_a_first_image sample_guess_type [] 10 [] H)
    as ([text Htext] & _).
  rewrite Htext. revert Htext. vm_compute. intros H'. exact (eq_sym H').
Defined.

Lemma method1_member_raises (keys name param : string) (body : pyval -> M World unit)
    (v : pyval) (rest : list qhelper.member) (w : World) :
  let r :=
    qhelper.call_each keys
      (qhelper.Fn name
         (imagemanage._blocked_by_input name (imagemanage.method1 name param body))
       :: qhelper.Plain v :: rest) [] [] w in
  (exists e, r.1 = Raise e) /\
  (hasFocus (textbox (window w)) = false ->
   (exists text, r.1 = Raise (TypeError text)) /\ window r.2 = window w).
Proof.
  intros r. unfold r. rewrite call_each_cons. unfold qhelper.call.
  destruct (hasFocus (textbox (window w))) eqn:Hfocus.
  - rewrite blocked_by_input_focused by exact Hfocus.
    rewrite call_each_cons. split; [eexists; reflexivity | discriminate].
  - rewrite blocked_by_input_unfocused by exact Hfocus.
    split; [eexists; reflexivity |].
    intros _. split; [eexists; reflexivity | reflexivity].
Qed.

(** X19: The keys the constructor binds with an argument, [z] and [c] to
    adjust the size and [1] to [9] to mark, never work: the argument is
    stored as a member of the key-bind instead of being passed, so a
    trigger raises in every state.  While the input box lacks focus the
    function is called without its argument, which is a [TypeError], and
    the window is left as it was. *)
Theorem keys_bound_with_argument_raise guess_type (images : list string)
    (advance_many : Z) (lg : list LogRecord) (call : manager.binding) (w : World) :
  call ∈ manager.keybinds guess_type ->
  call.2 <> [] ->
  let r := manager.__init__ guess_type images advance_many lg in
  exists kb,
    imagemanage._keybinds r.2 !! call.1.1 = Some kb /\
    (exists e, (qhelper.__call__ kb [] [] w).1 = Raise e) /\
    (hasFocus (textbox (window w)) = false ->
     (exists text, (qhelper.__call__ kb [] [] w).1 = Raise (TypeError text)) /\
     window (qhelper.__call__ kb [] [] w).2 = window w).
Proof.
  intros Hcall Hargs r. unfold r. rewrite init_table.
  exists (first_keybind call). split.
  { apply bound_table_lookup; [| exact Hcall].
    rewrite keybinds_shortcuts. exact constructor_shortcuts_distinct. }
  unfold manager.keybinds in Hcall. apply elem_of_app in Hcall as [Hcall | Hcall].
  - repeat (apply elem_of_cons in Hcall as [-> | Hcall]);
      try (exfalso; apply Hargs; reflexivity);
      try (apply elem_of_nil in Hcall; contradiction);
      apply method1_member_raises.
  - apply list_elem_of_fmap in Hcall as (idx & -> & _).
    apply method1_member_raises.
Qed.

Lemma keys_bound_with_argument_raise_witness :
  let call : manager.binding :=
    ("z", qhelper.Fn "_key_adjust" imagemanage._key_adjust, [PInt (-1)]) in
  let r := manager.__init__ sample_guess_type sample_images 10 [] in
  call ∈ manager.keybinds sample_guess_type /\
  call.2 <> [] /\
  hasFocus (textbox (window (imagemanage.world r.2))) = false /\
  exists kb,
    imagemanage._keybinds r.2 !! "z" = Some kb /\
    exists text,
      (qhelper.__call__ kb [] [] (imagemanage.world r.2)).1 = Raise (TypeError text).
Proof.
  intros call r.
  assert (Hcall : call ∈ manager.keybinds sample_guess_type)
    by (unfold manager.keybinds; apply elem_of_app; left; in_list).
  assert (Hargs : call.2 <> []) by discriminate.
  assert (Hfocus : hasFocus (textbox (window (imagemanage.world r.2))) = false)
    by (vm_compute; reflexivity).
  split; [exact Hcall |]. split; [exact Hargs |]. split; [exact Hfocus |].
  destruct (keys_bound_with_argument_raise sample_guess_type sample_images 10 [] call
              (imagemanage.world r.2) Hcall Hargs) as (kb & Hkb & _ & Hraise).
  exists kb. split; [exact Hkb |]. exact (proj1 (Hraise Hfocus)).
Defined.






(** ** Listing files *)

Lemma rstrip_unchanged (s : string) :
  ends_with_newline s = false ->
  imagemanage.rstrip imagemanage.linesep s = s.
Proof.
  induction s as [| c rest IH]; [reflexivity |].
  intros Hend. simpl.
  destruct rest as [| d rest'].
  - simpl in *. rewrite orb_false_r. rewrite Hend. reflexivity.
  - rewrite IH by exact Hend. reflexivity.
Qed.

Lemma rstrip_line (s : string) :
  ends_with_newline s = false ->
  imagemanage.rstrip imagemanage.linesep (s +:+ imagemanage.linesep) = s.
Proof.
  induction s as [| c rest IH]; [reflexivity |].
  intros Hend. change (String c rest +:+ imagemanage.linesep)
    with (String c (rest +:+ imagemanage.linesep)).
  simpl imagemanage.rstrip.
  destruct rest as [| d rest'].
  - simpl in *. rewrite orb_false_r. rewrite Hend. reflexivity.
  - rewrite IH by exact Hend. reflexivity.
Qed.

Lemma rstrip_no_newline (s : string) :
  ends_with_newline (imagemanage.rstrip imagemanage.linesep s) = false.
Proof.
  induction s as [| c rest IH]; [reflexivity |].
  simpl.
  destruct (imagemanage.rstrip imagemanage.linesep rest) as [| d kept] eqn:Hrest.
  - simpl. rewrite orb_false_r.
    destruct (bool_decide (c = "010"%char)) eqn:Hc; [reflexivity |].
    simpl. exact Hc.
  - exact IH.
Qed.

(** X22: The lines of a listing file become entries without their line
    terminator: a line that is a name followed by a line feed gives the
    name, a last line without line feed is taken as it is, and no entry
    read from a listing file ends with a line feed.  Nothing else is
    stripped, and reading logs nothing. *)
Theorem listing_lines_lose_line_feed (fs : imagemanage.filesystem)
    (file_path : string) (lines : list string) (soft_errors : bool)
    (inputs : list string) (lg : list LogRecord) :
  imagemanage.open_rt fs file_path = Ok lines ->
  let entries := map (imagemanage.rstrip imagemanage.linesep) lines in
  imagemanage.read_lists fs [file_path] soft_errors inputs lg =
    (Ok (inputs ++ entries), lg) /\
  Forall (fun entry => ends_with_newline entry = false) entries /\
  (forall names,
     Forall (fun name => ends_with_newline name = false) names ->
     lines = map (fun name => name +:+ imagemanage.linesep) names \/ lines = names ->
     entries = names).
Proof.
  intros Hopen entries. unfold entries. split; [| split].
  - simpl. rewrite Hopen. reflexivity.
  - apply Forall_forall. intros entry Hentry.
    apply list_elem_of_fmap in Hentry as (line & -> & _). apply rstrip_no_newline.
  - clear Hopen entries. intros names Hnames [-> | ->].
    + rewrite map_map. induction Hnames as [| name rest Hname _ IH]; [reflexivity |].
      simpl. rewrite rstrip_line by exact Hname. rewrite IH. reflexivity.
    + induction Hnames as [| name rest Hname _ IH]; [reflexivity |].
      simpl. rewrite rstrip_unchanged by exact Hname. rewrite IH. reflexivity.
Qed.

Lemma listing_lines_lose_line_feed_witness :
  imagemanage.open_rt sample_fs "list.txt" =
    Ok (map (fun name => name +:+ imagemanage.linesep) ["c.png"; "gone.png"]) /\
  Forall (fun name => ends_with_newline name = false) ["c.png"; "gone.png"] /\
  imagemanage.read_lists sample_fs ["list.txt"] false ["pics"] [] =
    (Ok (["pics"] ++
         map (imagemanage.rstrip imagemanage.linesep)
           (map (fun name => name +:+ imagemanage.linesep) ["c.png"; "gone.png"])), []) /\
  map (imagemanage.rstrip imagemanage.linesep)
    (map (fun name => name +:+ imagemanage.linesep) ["c.png"; "gone.png"]) =
    ["c.png"; "gone.png"].
Proof.
  assert (Hopen : imagemanage.open_rt sample_fs "list.txt" =
                    Ok (map (fun name => name +:+ imagemanage.linesep)
                          ["c.png"; "gone.png"])) by reflexivity.
  assert (Hnames : Forall (fun name => ends_with_newline name = false)
                     ["c.png"; "gone.png"])
    by (repeat constructor).
  split; [exact Hopen |]. split; [exact Hnames |].
  pose proof (listing_lines_lose_line_feed sample_fs "list.txt" _ false ["pics"] [] Hopen)
    as (Hread & _ & Hstrip).
  split; [exact Hread |].
  exact (Hstrip ["c.png"; "gone.png"] Hnames (or_introl eq_refl)).
Defined.


Lemma read_lists_app fs l1 l2 soft_errors inputs lg :
  imagemanage.read_lists fs (l1 ++ l2) soft_errors inputs lg =
    match imagemanage.read_lists fs l1 soft_errors inputs lg with
    | (Ok entries, lg') => imagemanage.read_lists fs l2 soft_errors entries lg'
    | (Raise e, lg') => (Raise e, lg')
    end.
Proof.
  revert inputs lg. induction l1 as [| file_path rest IH]; intros inputs lg.
  - reflexivity.
  - simpl. destruct (imagemanage.open_rt fs file_path) as [lines | err].
    + apply IH.
    + destruct (imagemanage.is_oserror err); [| reflexivity].
      destruct soft_errors; simpl; [| reflexivity].
      unfold_monad. apply IH.
Qed.

(** X23: A listing file that cannot be read ends the gathering when soft
    errors are off, and also with soft errors on when the error is not an
    [OSError]: [gather_images] raises the error of the first such file,
    after reading the listing files before it, and before any path is
    looked at; it logs nothing. *)
Theorem unreadable_listing_file_aborts (fs : imagemanage.filesystem)
    (image_list : option (list string)) (before : list string) (file_path : string)
    (after : list string) (err : exn) (recurse soft_errors : bool)
    (lg : list LogRecord) :
  Forall (fun f => exists lines, imagemanage.open_rt fs f = Ok lines) before ->
  imagemanage.open_rt fs file_path = Raise err ->
  soft_errors = false \/ imagemanage.is_oserror err = false ->
  imagemanage.gather_images fs image_list (Some (before ++ file_path :: after))
    recurse soft_errors lg = (Raise err, lg).
Proof.
  intros Hbefore Hopen Hhard. unfold imagemanage.gather_images.
  unfold mbind, M_bind, bind. simpl valuehelper.iter_none at 1.
  rewrite read_lists_app.
  assert (Hread : forall inputs,
            exists entries,
              imagemanage.read_lists fs before soft_errors inputs lg = (Ok entries, lg)).
  { induction Hbefore as [| f rest [lines Hf] _ IH]; intros inputs.
    - eexists. reflexivity.
    - simpl. rewrite Hf. apply IH. }
  destruct (Hread (valuehelper.iter_none image_list)) as [entries ->].
  simpl. rewrite Hopen.
  destruct Hhard as [-> | ->]; [destruct (imagemanage.is_oserror err) |]; reflexivity.
Qed.

Lemma unreadable_listing_file_aborts_witness :
  Forall (fun f => exists lines, imagemanage.open_rt sample_fs f = Ok lines) ["list.txt"] /\
  imagemanage.open_rt sample_fs "none.txt" = Raise (FileNotFoundError "none.txt") /\
  (false = false \/ imagemanage.is_oserror (FileNotFoundError "none.txt") = false) /\
  imagemanage.gather_images sample_fs (Some ["pics"])
    (Some (["list.txt"] ++ "none.txt" :: [])) true false [] =
    (Raise (FileNotFoundError "none.txt"), []).
Proof.
  assert (H1 : Forall (fun f => exists lines, imagemanage.open_rt sample_fs f = Ok lines)
                 ["list.txt"])
    by (constructor; [eexists; reflexivity | constructor]).
  assert (H2 : imagemanage.open_rt sample_fs "none.txt" =
                 Raise (FileNotFoundError "none.txt")) by reflexivity.
  assert (H3 : false = false \/
               imagemanage.is_oserror (FileNotFoundError "none.txt") = false)
    by (left; reflexivity).
  split; [exact H1 |]. split; [exact H2 |]. split; [exact H3 |].
  exact (unreadable_listing_file_aborts sample_fs (Some ["pics"]) ["list.txt"] "none.txt"
           [] _ true false [] H1 H2 H3).
Defined.






(** ** [format_size] below zero *)

Lemma binary_round_aux_sign s m e l :
  0 <= m ->
  match binary_round_aux pyfloat.prec pyfloat.emax s m e l with
  | S754_zero s' | S754_infinity s' | S754_finite s' _ _ => s' = s
  | S754_nan => False
  end.
Proof.
  intros Hm. unfold binary_round_aux.
  pose proof (shr_fexp_nonneg m e l Hm) as H1.
  destruct (shr_fexp pyfloat.prec pyfloat.emax m e l) as [mrs' e']. simpl in H1.
  pose proof (shr_fexp_nonneg _ e' loc_Exact
                (round_nearest_even_nonneg _ (loc_of_shr_record mrs') H1)) as H2.
  destruct (shr_fexp pyfloat.prec pyfloat.emax _ e' loc_Exact) as [mrs'' e''].
  simpl in H2.
  destruct (shr_m mrs'') as [| p | p]; [reflexivity | | lia].
  destruct (e'' <=? pyfloat.emax - pyfloat.prec); reflexivity.
Qed.

(** The float of a negative integer is not at or above a positive one. *)
Lemma of_int_negative_below (n : Z) (v : pyfloat.float) (m : positive) (e : Z) :
  n < 0 ->
  pyfloat.of_int n = Ok v ->
  pyfloat.ge v (S754_finite false m e) = false.
Proof.
  intros Hneg. unfold pyfloat.of_int, binary_normalize, binary_round.
  destruct n as [| p | p]; [lia | lia |].
  destruct (shl_align p 0 _) as [mz ez].
  pose proof (binary_round_aux_sign true (Z.pos mz) ez loc_Exact ltac:(lia)) as Hsign.
  destruct (binary_round_aux pyfloat.prec pyfloat.emax true (Z.pos mz) ez loc_Exact)
    as [s | s | | s mx ex]; try contradiction; subst s.
  - intros [= <-]. reflexivity.
  - discriminate.
  - intros [= <-]. reflexivity.
Qed.

(** X26: A negative byte count is never scaled: in base 2 and in base 10 the
    loop is not entered, so the number printed is the count itself as a
    float, rounded, and the unit is plain ["B"]. *)
Theorem format_size_negative_stays_in_bytes (num_bytes : Z) (places : option Z)
    (base : Z) (v0 : pyfloat.float) :
  num_bytes < 0 ->
  base = 2 \/ base = 10 ->
  pyfloat.of_int num_bytes = Ok v0 ->
  imagemanage.format_size num_bytes places base imagemanage.default_format =
    (value ← match places with
             | Some p => pyfloat.round v0 p
             | None => Ok v0
             end;
     num ← (if bool_decide (places = Some 0)
            then z ← pyfloat.to_int value; Ok (imagemanage.NInt z)
            else Ok (imagemanage.NFloat value));
     Ok (imagemanage.str num +:+ " B")).
Proof.
  intros Hneg Hbase Hof.
  assert (Hscale : exists m e,
            (if base =? 10 then imagemanage.scale_1000 else imagemanage.scale_1024)
              = S754_finite false m e).
  { destruct (base =? 10); eexists _, _;
      [apply scale_1000_finite | apply scale_1024_finite]. }
  destruct Hscale as (m & e & Hscale).
  destruct (format_size_spec num_bytes places base v0 m e Hbase Hof Hscale)
    as (exponent & prefix & Hprefix & Hbefore & _ & Hrun).
  destruct exponent as [| k].
  - simpl in Hprefix. injection Hprefix as <-.
    rewrite Hrun. simpl Nat.iter.
    destruct (Z.leb_spec 1000 num_bytes) as [? | _]; [lia |].
    rewrite andb_false_r. reflexivity.
  - specialize (Hbefore 0%nat ltac:(lia)). simpl in Hbefore.
    rewrite (of_int_negative_below num_bytes v0 m e Hneg Hof) in Hbefore.
    discriminate Hbefore.
Qed.

Lemma format_size_negative_stays_in_bytes_witness :
  let v0 := S754_finite true 5497558138880000 (-40) in
  -5000 < 0 /\
  (10 = 2 \/ 10 = 10) /\
  pyfloat.of_int (-5000) = Ok v0 /\
  imagemanage.format_size (-5000) (Some 0) 10 imagemanage.default_format =
    (value ← pyfloat.round v0 0;
     num ← (z ← pyfloat.to_int value; Ok (imagemanage.NInt z));
     Ok (imagemanage.str num +:+ " B")).
Proof.
  intros v0.
  assert (Hneg : -5000 < 0) by lia.
  assert (Hbase : 10 = 2 \/ 10 = 10) by (right; reflexivity).
  assert (Hof : pyfloat.of_int (-5000) = Ok v0) by (vm_compute; reflexivity).
  split; [exact Hneg |]. split; [exact Hbase |]. split; [exact Hof |].
  exact (format_size_negative_stays_in_bytes (-5000) (Some 0) 10 v0 Hneg Hbase Hof).
Defined.

(** The same byte count, evaluated. *)
Example format_size_negative_run :
  imagemanage.format_size (-5000) (Some 0) 10 imagemanage.default_format = Ok "-5000 B" /\
  imagemanage.format_size (-5000) (Some 2) 2 imagemanage.default_format = Ok "-5000.0 B".
Proof. split; vm_compute; reflexivity. Qed.
